(** * Batched publishing to the HuggingFace Hub

    A shallow embedding of [app/services/huggingface.py] (the
    [HuggingFaceService] upload operations and [list_raw_files]) and of
    the raw, cleaned and chunked sections of [push_to_huggingface] in
    [app/routes/admin.py], with the properties of the batch publisher
    stated over it.

    Python objects are modelled as follows.
    - JSON-compatible values are [pyval]; a dict with string keys is a
      [gmap string pyval].  JSON numbers with a fraction are not modelled.
    - The chunk dicts handed to the service live in a [store] and are
      passed by reference ([loc]), as in Python.
    - [create_commit], [time.sleep], the logger, the clock and the local
      filesystem are effects on a [world]; the remote hub is an oracle
      that sees the whole history of the run.
    - [CommitOperationAdd] is the hub client's: it validates the path it
      is given, as [huggingface_hub] does, and [str.encode] raises on a
      lone surrogate. *)

From stdpp Require Import gmap strings list fin_maps pretty sorting.
From Stdlib Require Import ZArith Lia Ascii.

Local Open Scope Z_scope.

(* ===================================================================== *)
(** ** Python values *)
(* ===================================================================== *)

#[local] Unset Elimination Schemes.
Inductive pyval :=
| PNone
| PBool (b : bool)
| PInt (z : Z)
| PStr (s : string)
| PList (l : list pyval)
| PDict (l : list (string * pyval)).
#[local] Set Elimination Schemes.

Abbreviation pydict := (gmap string pyval).

(** [bool(v)]: the truth value Python gives to [v]. *)
Definition truthy (v : pyval) : bool :=
  match v with
  | PNone => false
  | PBool b => b
  | PInt z => negb (z =? 0)
  | PStr s => negb (String.eqb s "")
  | PList l => match l with [] => false | _ => true end
  | PDict l => match l with [] => false | _ => true end
  end.

(** [d.get(key, default)] *)
Definition dict_get (d : pydict) (key : string) (default : pyval) : pyval :=
  match d !! key with
  | Some v => v
  | None => default
  end.

(** Exceptions that the repository's own code can raise; a
    [UnicodeEncodeError] is what [str.encode] raises. *)
Inductive exn :=
| ValueError (msg : string)
| TypeError (msg : string)
| OSError (msg : string)
| UnicodeEncodeError (msg : string).

(** [str(e)] *)
Definition exn_message (e : exn) : string :=
  match e with
  | ValueError msg | TypeError msg | OSError msg | UnicodeEncodeError msg => msg
  end.

Inductive result (A : Type) :=
| Ok (a : A)
| Raise (e : exn).
Arguments Ok {A} a.
Arguments Raise {A} e.

Definition is_ok {A} (r : result A) : bool :=
  match r with Ok _ => true | Raise _ => false end.

(** Sequencing of code that can raise. *)
Definition and_then {A B} (r : result A) (k : A → result B) : result B :=
  match r with
  | Ok a => k a
  | Raise e => Raise e
  end.

(** The format specification [02d] applied to an [int]: sign-aware zero
    padding to width two. *)
Definition format_int_02d (z : Z) : string :=
  let s := pretty z in
  if (String.length s <? 2)%nat then "0" +:+ s else s.

(** [format(v, '02d')], as in the f-string field [{v:02d}]. *)
Definition format_02d (v : pyval) : result string :=
  match v with
  | PInt z => Ok (format_int_02d z)
  | PBool b => Ok (format_int_02d (if b then 1 else 0))
  | PStr _ => Raise (ValueError "Unknown format code 'd' for object of type 'str'")
  | PNone => Raise (TypeError "unsupported format string passed to NoneType.__format__")
  | PList _ => Raise (TypeError "unsupported format string passed to list.__format__")
  | PDict _ => Raise (TypeError "unsupported format string passed to dict.__format__")
  end.

(** [x or y] on an optional string: [None] and the empty string are falsy. *)
Definition or_default (x : option string) (y : string) : string :=
  match x with
  | Some s => if String.eqb s "" then y else s
  | None => y
  end.

(* ===================================================================== *)
(** ** Commit operations of the hub client *)
(* ===================================================================== *)

(** A [str] is modelled by its UTF-8 bytes.  A lone surrogate, which
    [json.load] makes of an escape such as [\ud800], has no UTF-8
    encoding; it stands in a text as the three bytes [ED A0..BF 80..BF],
    which the encoding of no other character contains. *)
Fixpoint has_surrogate (s : string) : bool :=
  match s with
  | String a (String b _ as s') =>
      ((Ascii.nat_of_ascii a =? 237)%nat
       && (160 <=? Ascii.nat_of_ascii b)%nat && (Ascii.nat_of_ascii b <=? 191)%nat)
      || has_surrogate s'
  | _ => false
  end.

(** A key or a string of the value holds a lone surrogate:
    [json.dumps(..., ensure_ascii=False)] writes it out as it is. *)
Fixpoint value_has_surrogate (v : pyval) : bool :=
  match v with
  | PStr s => has_surrogate s
  | PList l => existsb value_has_surrogate l
  | PDict l => existsb (λ kv, has_surrogate (fst kv) || value_has_surrogate (snd kv)) l
  | _ => false
  end.

Definition dict_has_surrogate (d : pydict) : bool :=
  existsb (λ kv, has_surrogate (fst kv) || value_has_surrogate (snd kv)) (map_to_list d).

(** [path_or_fileobj] of a [CommitOperationAdd]: UTF-8 bytes of a text, or
    of [json.dumps(d, indent=2, ensure_ascii=False)]. *)
Inductive payload :=
| Utf8Text (s : string)
| Utf8Json (d : pydict).

(** What [.encode('utf-8')] raises on a lone surrogate; the text of the
    exception also names the character and its position, of which only
    the codec and the reason are kept. *)
Definition SURROGATES_NOT_ALLOWED : exn :=
  UnicodeEncodeError "'utf-8' codec can't encode character: surrogates not allowed".

(** [content.encode('utf-8')] *)
Definition encode_text (content : string) : result payload :=
  if has_surrogate content then Raise SURROGATES_NOT_ALLOWED else Ok (Utf8Text content).

(** [json.dumps(d, indent=2, ensure_ascii=False).encode('utf-8')] *)
Definition encode_json (d : pydict) : result payload :=
  if dict_has_surrogate d then Raise SURROGATES_NOT_ALLOWED else Ok (Utf8Json d).

(** [s.startswith(prefix)] and [s[n:]] *)
Definition startswith (s prefix : string) : bool := String.prefix prefix s.

Fixpoint str_drop (n : nat) (s : string) : string :=
  match n, s with
  | S n', String _ s' => str_drop n' s'
  | _, _ => s
  end.

(** [s.split('/')] *)
Fixpoint split_slash (s : string) : list string :=
  match s with
  | EmptyString => [EmptyString]
  | String c s' =>
      if Ascii.eqb c "/"%char then EmptyString :: split_slash s'
      else
        match split_slash s' with
        | part :: parts => String c part :: parts
        | [] => [String c EmptyString]
        end
  end.

Definition FORBIDDEN_FOLDERS : list string := [".git"; ".cache"].

(** [huggingface_hub]'s [_validate_path_in_repo]: one leading [/] and
    then one leading [./] are dropped; [.], [..], a leading [../] and a
    component named as a forbidden folder are refused. *)
Definition validate_path_in_repo (path_in_repo : string) : result string :=
  let path_in_repo :=
    if startswith path_in_repo "/" then str_drop 1 path_in_repo else path_in_repo in
  if String.eqb path_in_repo "." || String.eqb path_in_repo ".."
     || startswith path_in_repo "../"
  then Raise (ValueError ("Invalid `path_in_repo` in CommitOperation: '"
                          +:+ path_in_repo +:+ "'"))
  else
    let path_in_repo :=
      if startswith path_in_repo "./" then str_drop 2 path_in_repo else path_in_repo in
    match List.find (λ forbidden, existsb (String.eqb forbidden) (split_slash path_in_repo))
                    FORBIDDEN_FOLDERS with
    | Some forbidden =>
        Raise (ValueError ("Invalid `path_in_repo` in CommitOperation: cannot update files under a '"
                           +:+ forbidden +:+ "/' folder (path: '" +:+ path_in_repo +:+ "')."))
    | None => Ok path_in_repo
    end.

(** A [CommitOperationAdd] object: its path is the validated one. *)
Record operation := Operation {
  path_in_repo : string;
  path_or_fileobj : payload;
}.

(** [CommitOperationAdd(path_in_repo=..., path_or_fileobj=...)] on
    bytes: [__post_init__] validates the path and raises [ValueError]
    when it is refused. *)
Definition CommitOperationAdd (path_in_repo : string) (path_or_fileobj : payload)
    : result operation :=
  and_then (validate_path_in_repo path_in_repo)
           (λ path_in_repo, Ok (Operation path_in_repo path_or_fileobj)).

(* ===================================================================== *)
(** ** The world: remote hub, clock, logger, heap and local files *)
(* ===================================================================== *)

Record commit_request := CreateCommit {
  repo_id : string;
  repo_type : string;
  operations : list operation;
  commit_message : string;
}.

(** What [create_commit] can raise.  [RepositoryNotFoundError] is a
    subclass of [HfHubHTTPError]; [response] is [getattr(e, 'response',
    None)] reduced to its [status_code]. *)
Inductive commit_exn :=
| RepositoryNotFoundError (response : option Z) (text : string)
| HfHubHTTPError (response : option Z) (text : string)
| OtherException (text : string).

Inductive outcome :=
| Committed
| Raised (e : commit_exn).

Inductive log_level := WARNING | ERROR.

Inductive event :=
| EvCommit (req : commit_request) (out : outcome)
| EvSleep (seconds : Z)
| EvLog (level : log_level) (fmt : string) (args : list Z) (err : string).

(** A file of the local store: a JSON object, or anything [json.load]
    followed by [.get] fails on. *)
Inductive file_content :=
| JsonObject (d : pydict)
| NotAJsonObject (raw : string).

Definition loc := nat.

(** - [hub]: what the remote answers to a commit, given all that happened
      so far in the run;
    - [clock]: [datetime.utcnow().isoformat()];
    - [write_fails]: the paths [open(path, 'w')] fails on;
    - [trace]: the events so far, oldest first;
    - [store]: the heap of dict objects, a reference being an index;
    - [files]: the regular files of the local disk, by path;
    - [dirs]: the directories of the local disk, each with its sorted
      listing [sorted(os.listdir(path))]. *)
Record world := {
  hub : list event → commit_request → outcome;
  clock : list event → string;
  write_fails : string → bool;
  trace : list event;
  store : list pydict;
  files : gmap string file_content;
  dirs : gmap string (list string);
}.

Definition with_trace (w : world) (t : list event) : world :=
  {| hub := hub w; clock := clock w; write_fails := write_fails w;
     trace := t; store := store w; files := files w; dirs := dirs w |}.

Definition with_store (w : world) (s : list pydict) : world :=
  {| hub := hub w; clock := clock w; write_fails := write_fails w;
     trace := trace w; store := s; files := files w; dirs := dirs w |}.

Definition with_files (w : world) (f : gmap string file_content) : world :=
  {| hub := hub w; clock := clock w; write_fails := write_fails w;
     trace := trace w; store := store w; files := f; dirs := dirs w |}.

(** Effectful code: state passing with exceptions; an exception keeps the
    effects performed before it. *)
Definition M (A : Type) : Type := world → result A * world.

Definition ret {A} (a : A) : M A := λ w, (Ok a, w).

Definition bind {A B} (m : M A) (k : A → M B) : M B :=
  λ w, match m w with
       | (Ok a, w') => k a w'
       | (Raise e, w') => (Raise e, w')
       end.

Definition lift {A} (r : result A) : M A := λ w, (r, w).

Notation "x <- m ;; k" := (bind m (λ x, k))
  (at level 100, m at next level, right associativity,
   format "'[v' x  <-  m  ;;  '/' k ']'").
Notation "m ;;; k" := (bind m (λ _, k))
  (at level 100, right associativity).

Definition emit (ev : event) : M unit :=
  λ w, (Ok tt, with_trace w (trace w ++ [ev])).

(** [self.api.create_commit(...)]: returns normally or raises. *)
Definition create_commit (req : commit_request) : M outcome :=
  λ w, let out := hub w (trace w) req in
       (Ok out, with_trace w (trace w ++ [EvCommit req out])).

Definition sleep (seconds : Z) : M unit := emit (EvSleep seconds).

Definition log (level : log_level) (fmt : string) (args : list Z) (err : string) : M unit :=
  emit (EvLog level fmt args err).

(** Reading through a reference to a dict.  References are handed out by
    [alloc] and by the callers' heaps, so they point into the store; one
    that does not reads as the empty dict. *)
Definition deref (w : world) (l : loc) : pydict :=
  match store w !! l with
  | Some d => d
  | None => ∅
  end.

Definition read (l : loc) : M pydict := λ w, (Ok (deref w l), w).

Definition exn_text (e : commit_exn) : string :=
  match e with
  | RepositoryNotFoundError _ t => t
  | HfHubHTTPError _ t => t
  | OtherException t => t
  end.

(* ===================================================================== *)
(** ** HuggingFaceService *)
(* ===================================================================== *)

Record HuggingFaceService := {
  token : string;
  raw_repo : string;
  cleaned_repo : string;
  chunked_repo : string;
}.

(** [self.api = HfApi(token=self.token) if self.token else None] *)
Definition api_present (self : HuggingFaceService) : bool :=
  negb (String.eqb (token self) "").

Definition is_configured (self : HuggingFaceService) : bool :=
  negb (String.eqb (token self) "") && api_present self.

(** The dict returned by the single-file uploads. *)
Inductive upload_result :=
| UploadOk (message : string) (repo : string)
| UploadError (error : string).

(** The list [operations] of [upload_raw_file], built inside its [try]:
    the content and then the metadata, each encoded before its
    [CommitOperationAdd] is made. *)
Definition raw_operations (filename content : string) (metadata : pydict)
    : result (list operation) :=
  and_then (encode_text content) (λ content_bytes,
  and_then (CommitOperationAdd (filename +:+ ".txt") content_bytes) (λ content_op,
  and_then (encode_json metadata) (λ metadata_bytes,
  and_then (CommitOperationAdd (filename +:+ ".meta.json") metadata_bytes) (λ metadata_op,
  Ok [content_op; metadata_op])))).

Definition upload_raw_file (self : HuggingFaceService) (filename content : string)
    (metadata : pydict) (repo : option string) : M upload_result :=
  if negb (is_configured self) then
    ret (UploadError "HuggingFace not configured. Please set HF_TOKEN.")
  else
    let target_repo := or_default repo (raw_repo self) in
    match raw_operations filename content metadata with
    | Raise e => ret (UploadError ("Upload failed: " +:+ exn_message e))
    | Ok operations =>
        out <- create_commit (CreateCommit target_repo "dataset" operations
                                ("Add raw file: " +:+ filename)) ;;
        match out with
        | Committed =>
            ret (UploadOk ("Uploaded " +:+ filename +:+ " to " +:+ target_repo) target_repo)
        | Raised (RepositoryNotFoundError _ _) =>
            ret (UploadError ("Repository " +:+ target_repo
                              +:+ " not found. Please create it first."))
        | Raised (HfHubHTTPError _ t) =>
            ret (UploadError ("HuggingFace API error: " +:+ t))
        | Raised (OtherException t) =>
            ret (UploadError ("Upload failed: " +:+ t))
        end
    end.

(** The list [operations] of [upload_cleaned_file], built inside its
    [try]. *)
Definition cleaned_operations (filename content : string) : result (list operation) :=
  and_then (encode_text content) (λ content_bytes,
  and_then (CommitOperationAdd (filename +:+ ".txt") content_bytes) (λ content_op,
  Ok [content_op])).

Definition upload_cleaned_file (self : HuggingFaceService) (filename content : string)
    (metadata : pydict) (repo : option string) : M upload_result :=
  if negb (is_configured self) then
    ret (UploadError "HuggingFace not configured")
  else
    let target_repo := or_default repo (cleaned_repo self) in
    match cleaned_operations filename content with
    | Raise e => ret (UploadError ("Upload failed: " +:+ exn_message e))
    | Ok operations =>
        out <- create_commit (CreateCommit target_repo "dataset" operations
                                ("Add cleaned file: " +:+ filename)) ;;
        match out with
        | Committed =>
            ret (UploadOk ("Uploaded " +:+ filename +:+ " to " +:+ target_repo) target_repo)
        | Raised e =>
            ret (UploadError ("Upload failed: " +:+ exn_text e))
        end
    end.

(** The dict returned by [upload_chunks_batch] when the service is
    configured. *)
Record batch_report := {
  success : bool;
  message : string;
  repo : string;
  uploaded_count : nat;
  failed_count : nat;
  failed_chunks : list string;
}.

Inductive batch_result :=
| NotConfigured (error : string)
| Report (r : batch_report).

Definition MAX_RETRIES : nat := 3.

(** [range(0, stop, step)], iterated as the [for] loop consumes it. *)
Fixpoint range_loop (fuel i stop step : nat) : list nat :=
  match fuel with
  | O => []
  | S fuel' =>
      if (i <? stop)%nat then i :: range_loop fuel' (i + step)%nat stop step else []
  end.

Definition py_range (stop : nat) (step : Z) : result (list nat) :=
  if step =? 0 then Raise (ValueError "range() arg 3 must not be zero")
  else if step <? 0 then Ok []
  else Ok (range_loop stop 0 stop (Z.to_nat step)).

(** [chunks[batch_start : batch_start + batch_size]] for a positive
    [batch_size]. *)
Definition slice {A} (l : list A) (start size : nat) : list A :=
  take size (drop start l).

(** One [CommitOperationAdd] of the batch, made outside any [try]: the
    index is formatted, the record encoded, the path validated, and what
    one of them raises leaves the call. *)
Definition chunk_operation (folder_name : string) (chunk : pydict) : result operation :=
  let chunk_index := dict_get chunk "chunk_index" (PInt 1) in
  and_then (format_02d chunk_index) (λ idx,
  let chunk_filename := folder_name +:+ "/chunk_" +:+ idx +:+ ".json" in
  and_then (encode_json chunk) (λ chunk_content,
  CommitOperationAdd chunk_filename chunk_content)).

(** [for chunk in batch: ... operations.append(...)] *)
Fixpoint build_operations (folder_name : string) (batch : list loc)
    (operations : list operation) : M (list operation) :=
  match batch with
  | [] => ret operations
  | chunk :: batch' =>
      d <- read chunk ;;
      op <- lift (chunk_operation folder_name d) ;;
      build_operations folder_name batch' (operations ++ [op])
  end.

(** The name appended to [failed_chunks] for one chunk. *)
Definition failed_chunk_name (folder_name : string) (chunk : pydict) : result string :=
  match format_02d (dict_get chunk "chunk_index" (PStr "?")) with
  | Ok idx => Ok (folder_name +:+ "/chunk_" +:+ idx +:+ ".json")
  | Raise e => Raise e
  end.

(** [for chunk in batch: failed_chunks.append(...)] *)
Fixpoint record_failed (folder_name : string) (batch : list loc)
    (failed_chunks : list string) : M (list string) :=
  match batch with
  | [] => ret failed_chunks
  | chunk :: batch' =>
      d <- read chunk ;;
      name <- lift (failed_chunk_name folder_name d) ;;
      record_failed folder_name batch' (failed_chunks ++ [name])
  end.

Definition status_code_of (response : option Z) : Z :=
  match response with
  | Some code => code
  | None => 0
  end.

Definition batch_commit_message (folder_name : string) (batch_start len : nat) : string :=
  "Add chunks " +:+ pretty (batch_start + 1)%nat +:+ "-" +:+ pretty (batch_start + len)%nat
  +:+ " for " +:+ folder_name.

Definition RETRY_WARNING : string :=
  "HF rate-limit / transient error on batch %d-%d (attempt %d/%d). Retrying in %ds. Error: %s".

Section retry.
Context (target_repo folder_name : string) (batch_start : nat)
        (batch : list loc) (operations : list operation).

Definition batch_request : commit_request :=
  CreateCommit target_repo "dataset" operations
    (batch_commit_message folder_name batch_start (length batch)).

(** The [except HfHubHTTPError] clause. *)
Definition on_http_error (attempt : nat) (response : option Z) (text : string)
    (retry : list string → M (nat * list string))
    (uploaded_count : nat) (failed_chunks : list string) : M (nat * list string) :=
  let status_code := status_code_of response in
  if (status_code =? 429) || (attempt <? MAX_RETRIES)%nat then
    let wait := 2 ^ Z.of_nat attempt in
    log WARNING RETRY_WARNING
        [Z.of_nat (batch_start + 1); Z.of_nat (batch_start + length batch);
         Z.of_nat attempt; Z.of_nat MAX_RETRIES; wait] text ;;;
    sleep wait ;;;
    retry failed_chunks
  else
    failed_chunks' <- record_failed folder_name batch failed_chunks ;;
    log ERROR "Batch upload permanently failed: %s" [] text ;;;
    ret (uploaded_count, failed_chunks').

(** The [except Exception] clause. *)
Definition on_other_error (attempt : nat) (text : string)
    (retry : list string → M (nat * list string))
    (uploaded_count : nat) (failed_chunks : list string) : M (nat * list string) :=
  if (attempt <? MAX_RETRIES)%nat then
    sleep (2 ^ Z.of_nat attempt) ;;;
    retry failed_chunks
  else
    failed_chunks' <- record_failed folder_name batch failed_chunks ;;
    log ERROR "Batch upload error: %s" [] text ;;;
    ret (uploaded_count, failed_chunks').

(** [for attempt in range(1, MAX_RETRIES + 1): try: ... except ...];
    falling out of the list of attempts is the loop ending without a
    [break]. *)
Fixpoint retry_loop (attempts : list nat) (uploaded_count : nat)
    (failed_chunks : list string) : M (nat * list string) :=
  match attempts with
  | [] => ret (uploaded_count, failed_chunks)
  | attempt :: attempts' =>
      out <- create_commit batch_request ;;
      match out with
      | Committed => ret ((uploaded_count + length batch)%nat, failed_chunks)
      | Raised (RepositoryNotFoundError response text)
      | Raised (HfHubHTTPError response text) =>
          on_http_error attempt response text
            (retry_loop attempts' uploaded_count) uploaded_count failed_chunks
      | Raised (OtherException text) =>
          on_other_error attempt text
            (retry_loop attempts' uploaded_count) uploaded_count failed_chunks
      end
  end.
End retry.

(** The body of [for batch_start in range(0, len(chunks), batch_size)]. *)
Definition upload_one_batch (target_repo folder_name : string) (chunks : list loc)
    (batch_size : nat) (batch_start : nat) (uploaded_count : nat)
    (failed_chunks : list string) : M (nat * list string) :=
  let batch := slice chunks batch_start batch_size in
  operations <- build_operations folder_name batch [] ;;
  retry_loop target_repo folder_name batch_start batch operations
             (seq 1 MAX_RETRIES) uploaded_count failed_chunks.

Fixpoint upload_batches (target_repo folder_name : string) (chunks : list loc)
    (batch_size : nat) (starts : list nat) (uploaded_count : nat)
    (failed_chunks : list string) : M (nat * list string) :=
  match starts with
  | [] => ret (uploaded_count, failed_chunks)
  | batch_start :: starts' =>
      r <- upload_one_batch target_repo folder_name chunks batch_size batch_start
             uploaded_count failed_chunks ;;
      upload_batches target_repo folder_name chunks batch_size starts' r.1 r.2
  end.

Definition upload_chunks_batch (self : HuggingFaceService) (folder_name : string)
    (chunks : list loc) (repo : option string) (batch_size : Z) : M batch_result :=
  if negb (is_configured self) then
    ret (NotConfigured "HuggingFace not configured")
  else
    let target_repo := or_default repo (chunked_repo self) in
    starts <- lift (py_range (length chunks) batch_size) ;;
    r <- upload_batches target_repo folder_name chunks (Z.to_nat batch_size) starts 0%nat [] ;;
    let uploaded_count := r.1 in
    let failed_chunks := r.2 in
    ret (Report {|
      success := bool_decide (length failed_chunks = 0%nat);
      message := "Uploaded " +:+ pretty uploaded_count +:+ " chunks ("
                 +:+ pretty (length failed_chunks) +:+ " failed) to " +:+ target_repo;
      repo := target_repo;
      uploaded_count := uploaded_count;
      failed_count := length failed_chunks;
      failed_chunks := failed_chunks |}).

(** [upload_chunks]: the legacy wrapper, with the default batch size. *)
Definition upload_chunks (self : HuggingFaceService) (folder_name : string)
    (chunks : list loc) (repo : option string) : M batch_result :=
  upload_chunks_batch self folder_name chunks repo 50.

(* ===================================================================== *)
(** ** The chunked section of [push_to_huggingface] *)
(* ===================================================================== *)

(** [results['chunked']] *)
Module Results.
Record t := {
  uploaded : nat;
  failed : nat;
  skipped : nat;
  files : list string;
  failed_chunks : list string;
}.
Definition empty : t :=
  {| uploaded := 0; failed := 0; skipped := 0; files := []; failed_chunks := [] |}.
End Results.

Definition endswith (s suffix : string) : bool :=
  (String.length suffix <=? String.length s)%nat
  && String.eqb (String.substring (String.length s - String.length suffix)
                           (String.length suffix) s) suffix.

(** [os.path.join(a, b)] for a relative [b]. *)
Definition path_join (a b : string) : string := a +:+ "/" +:+ b.

Definition path_exists (w : world) (p : string) : bool :=
  bool_decide (is_Some (files w !! p)) || bool_decide (is_Some (dirs w !! p)).

(** Keys of the Python dict [chunk_file_paths]: lists and dicts are not
    hashable; [True == 1] and [False == 0] are the same key. *)
Definition hashable (v : pyval) : bool :=
  match v with
  | PList _ | PDict _ => false
  | _ => true
  end.

Definition key_eqb (a b : pyval) : bool :=
  match a, b with
  | PNone, PNone => true
  | PInt x, PInt y => x =? y
  | PInt x, PBool y => x =? (if y then 1 else 0)
  | PBool x, PInt y => (if x then 1 else 0) =? y
  | PBool x, PBool y => Bool.eqb x y
  | PStr x, PStr y => String.eqb x y
  | _, _ => false
  end.

Fixpoint key_get (m : list (pyval * string)) (k : pyval) : option string :=
  match m with
  | [] => None
  | (k', v) :: m' => if key_eqb k' k then Some v else key_get m' k
  end.

Fixpoint key_set (m : list (pyval * string)) (k : pyval) (v : string) : list (pyval * string) :=
  match m with
  | [] => [(k, v)]
  | (k', v') :: m' => if key_eqb k' k then (k', v) :: m' else (k', v') :: key_set m' k v
  end.

(** [json.load(f)] of an opened file allocates a fresh dict. *)
Definition alloc (d : pydict) : M loc :=
  λ w, (Ok (length (store w)), with_store w (store w ++ [d])).

(** [chunk_data[key] = v] *)
Definition setitem (l : loc) (key : string) (v : pyval) : M unit :=
  λ w, (Ok tt, with_store w (<[l := <[key := v]> (deref w l)]> (store w))).

Fixpoint has_slash (s : string) : bool :=
  match s with
  | EmptyString => false
  | String c s' => Ascii.eqb c "/"%char || has_slash s'
  end.

(** The name under which [path] is an entry of the directory [dir]:
    [path] is [dir/name]. *)
Definition entry_name (dir path : string) : option string :=
  if startswith path (dir +:+ "/") then
    let name := str_drop (String.length dir + 1) path in
    if negb (String.eqb name "") && negb (has_slash name) then Some name else None
  else None.

(** A name put at its place in a sorted listing. *)
Fixpoint insert_sorted (name : string) (listing : list string) : list string :=
  match listing with
  | [] => [name]
  | name' :: listing' =>
      if String.leb name name' then name :: listing
      else name' :: insert_sorted name listing'
  end.

(** The directories after a file was created at [path]: the directory
    it is an entry of lists its name. *)
Definition create_entry (path : string) (ds : gmap string (list string))
    : gmap string (list string) :=
  map_imap (λ dir listing,
              Some match entry_name dir path with
                   | Some name => insert_sorted name listing
                   | None => listing
                   end) ds.

(** [with open(path, 'w') as f: json.dump(d, f, ...)]: the file holds
    [d]; a file that was not there is created. *)
Definition write_json (path : string) (d : pydict) : M unit :=
  λ w, (Ok tt,
        {| hub := hub w; clock := clock w; write_fails := write_fails w;
           trace := trace w; store := store w;
           files := <[path := JsonObject d]> (files w);
           dirs := if path_exists w path then dirs w else create_entry path (dirs w) |}).

Record collected := {
  unpushed_chunks : list loc;
  chunk_file_paths : list (pyval * string);
  collected_results : Results.t;
}.

Definition count_failed (r : Results.t) : Results.t :=
  {| Results.uploaded := Results.uploaded r; Results.failed := S (Results.failed r);
     Results.skipped := Results.skipped r; Results.files := Results.files r;
     Results.failed_chunks := Results.failed_chunks r |}.

Definition count_skipped (r : Results.t) : Results.t :=
  {| Results.uploaded := Results.uploaded r; Results.failed := Results.failed r;
     Results.skipped := S (Results.skipped r); Results.files := Results.files r;
     Results.failed_chunks := Results.failed_chunks r |}.

Definition READ_ERROR : string := "Error reading chunk %s: %s".

(** One iteration of [for chunk_file in sorted(os.listdir(folder_path))]. *)
Definition collect_chunk (folder_path chunk_file : string) (c : collected) : M collected :=
  if negb (endswith chunk_file ".json") then ret c
  else
    let chunk_path := path_join folder_path chunk_file in
    λ w,
      match files w !! chunk_path with
      | Some (JsonObject d) =>
          (chunk_data <- alloc d ;;
           if truthy (dict_get d "pushed_to_hf" PNone) then
             ret {| unpushed_chunks := unpushed_chunks c;
                    chunk_file_paths := chunk_file_paths c;
                    collected_results := count_skipped (collected_results c) |}
           else
             let unpushed := unpushed_chunks c ++ [chunk_data] in
             let key := dict_get d "chunk_index" (PStr chunk_file) in
             if hashable key then
               ret {| unpushed_chunks := unpushed;
                      chunk_file_paths := key_set (chunk_file_paths c) key chunk_path;
                      collected_results := collected_results c |}
             else
               log ERROR READ_ERROR [] chunk_path ;;;
               ret {| unpushed_chunks := unpushed;
                      chunk_file_paths := chunk_file_paths c;
                      collected_results := count_failed (collected_results c) |}) w
      | _ =>
          (log ERROR READ_ERROR [] chunk_path ;;;
           ret {| unpushed_chunks := unpushed_chunks c;
                  chunk_file_paths := chunk_file_paths c;
                  collected_results := count_failed (collected_results c) |}) w
      end.

Fixpoint collect_chunks (folder_path : string) (listing : list string) (c : collected)
    : M collected :=
  match listing with
  | [] => ret c
  | chunk_file :: listing' =>
      c' <- collect_chunk folder_path chunk_file c ;;
      collect_chunks folder_path listing' c'
  end.

(** One iteration of [for chunk_data in unpushed_chunks] that marks the
    pushed chunks. *)
Definition mark_chunk (folder_name : string) (failed_set : list string)
    (chunk_file_paths : list (pyval * string)) (pushed_at : string) (chunk_data : loc)
    : M unit :=
  d <- read chunk_data ;;
  let chunk_index := dict_get d "chunk_index" PNone in
  idx <- lift (format_02d chunk_index) ;;
  let chunk_key_name := folder_name +:+ "/chunk_" +:+ idx +:+ ".json" in
  if bool_decide (chunk_key_name ∈ failed_set) then ret tt
  else
    match key_get chunk_file_paths chunk_index with
    | Some chunk_path =>
        λ w,
          if negb (String.eqb chunk_path "") && path_exists w chunk_path then
            (setitem chunk_data "pushed_to_hf" (PStr pushed_at) ;;;
             if write_fails w chunk_path then
               log WARNING "Could not mark chunk as pushed: %s" [] chunk_path
             else
               d' <- read chunk_data ;;
               write_json chunk_path d') w
          else (Ok tt, w)
    | None => ret tt
    end.

Fixpoint mark_chunks (folder_name : string) (failed_set : list string)
    (chunk_file_paths : list (pyval * string)) (pushed_at : string)
    (unpushed_chunks : list loc) : M unit :=
  match unpushed_chunks with
  | [] => ret tt
  | chunk_data :: rest =>
      mark_chunk folder_name failed_set chunk_file_paths pushed_at chunk_data ;;;
      mark_chunks folder_name failed_set chunk_file_paths pushed_at rest
  end.

(** [result.get('uploaded_count', 0)] and its siblings. *)
Definition get_uploaded_count (r : batch_result) : nat :=
  match r with Report r => uploaded_count r | NotConfigured _ => 0%nat end.
Definition get_failed_count (r : batch_result) : nat :=
  match r with Report r => failed_count r | NotConfigured _ => 0%nat end.
Definition get_failed_chunks (r : batch_result) : list string :=
  match r with Report r => failed_chunks r | NotConfigured _ => [] end.

Definition utcnow_isoformat : M string := λ w, (Ok (clock w (trace w)), w).

(** The updates of [results['chunked']] after a folder's upload. *)
Definition add_batch_result (folder_name : string) (results : Results.t)
    (result : batch_result) : Results.t :=
  {| Results.uploaded := (Results.uploaded results + get_uploaded_count result)%nat;
     Results.failed := (Results.failed results + get_failed_count result)%nat;
     Results.skipped := Results.skipped results;
     Results.files :=
       if (0 <? get_uploaded_count result)%nat then
         Results.files results ++
           [folder_name +:+ " (" +:+ pretty (get_uploaded_count result) +:+ " chunks)"]
       else Results.files results;
     Results.failed_chunks :=
       Results.failed_chunks results ++ get_failed_chunks result |}.

(** [target_filename and folder_name != target_filename] *)
Definition filtered_out (target_filename : option string) (folder_name : string) : bool :=
  match target_filename with
  | Some t => negb (String.eqb t "") && negb (String.eqb folder_name t)
  | None => false
  end.

(** The body of [for folder_name in sorted(os.listdir(APPROVED_CHUNKED_DIR))]. *)
Definition push_chunk_folder (hf_service : HuggingFaceService) (repo : option string)
    (target_filename : option string) (approved_chunked_dir folder_name : string)
    (results : Results.t) : M Results.t :=
  let folder_path := path_join approved_chunked_dir folder_name in
  λ w,
    match dirs w !! folder_path with
    | None => (Ok results, w)
    | Some listing =>
        if filtered_out target_filename folder_name then (Ok results, w)
        else
          (c <- collect_chunks folder_path listing
                  {| unpushed_chunks := []; chunk_file_paths := [];
                     collected_results := results |} ;;
           let results := collected_results c in
           match unpushed_chunks c with
           | [] => ret results
           | _ =>
               result <- upload_chunks_batch hf_service folder_name (unpushed_chunks c) repo 50 ;;
               let results := add_batch_result folder_name results result in
               let failed_set := get_failed_chunks result in
               now <- utcnow_isoformat ;;
               let pushed_at := now +:+ "Z" in
               mark_chunks folder_name failed_set (chunk_file_paths c) pushed_at
                           (unpushed_chunks c) ;;;
               ret results
           end) w
    end.

Fixpoint push_chunk_folders (hf_service : HuggingFaceService) (repo : option string)
    (target_filename : option string) (approved_chunked_dir : string)
    (folders : list string) (results : Results.t) : M Results.t :=
  match folders with
  | [] => ret results
  | folder_name :: folders' =>
      results' <- push_chunk_folder hf_service repo target_filename approved_chunked_dir
                    folder_name results ;;
      push_chunk_folders hf_service repo target_filename approved_chunked_dir folders' results'
  end.

(** [if push_type in ['chunked', 'all']: ...]; an exception that escapes
    is the route's 500 answer. *)
Definition push_to_huggingface_chunked (hf_service : HuggingFaceService)
    (repo : option string) (target_filename : option string)
    (approved_chunked_dir : string) : M Results.t :=
  λ w,
    if path_exists w approved_chunked_dir then
      match dirs w !! approved_chunked_dir with
      | Some folders =>
          push_chunk_folders hf_service repo target_filename approved_chunked_dir
            folders Results.empty w
      | None => (Raise (OSError "Not a directory"), w)
      end
    else (Ok Results.empty, w).

(* ===================================================================== *)
(** ** Observations on a trace *)
(* ===================================================================== *)

Fixpoint commits_of (t : list event) : list (commit_request * outcome) :=
  match t with
  | [] => []
  | EvCommit req out :: t' => (req, out) :: commits_of t'
  | _ :: t' => commits_of t'
  end.

Fixpoint sleeps_of (t : list event) : list Z :=
  match t with
  | [] => []
  | EvSleep s :: t' => s :: sleeps_of t'
  | _ :: t' => sleeps_of t'
  end.

(** The commit attempts and waits of a trace, in order, without the log
    records. *)
Inductive step :=
| Attempt
| Wait (seconds : Z).

Fixpoint shape (t : list event) : list step :=
  match t with
  | [] => []
  | EvCommit _ _ :: t' => Attempt :: shape t'
  | EvSleep s :: t' => Wait s :: shape t'
  | EvLog _ _ _ _ :: t' => shape t'
  end.

(** What a batch does when every attempt fails and is retried. *)
Definition backoff_schedule (attempts : list nat) : list step :=
  flat_map (λ attempt, [Attempt; Wait (2 ^ Z.of_nat attempt)]) attempts.

(** [w] after the events [evs], nothing else changed. *)
Definition after (w : world) (evs : list event) : world :=
  with_trace w (trace w ++ evs).

(** Pure readings of the two inner loops over a batch. *)
Fixpoint operations_of (folder_name : string) (ds : list pydict) : result (list operation) :=
  match ds with
  | [] => Ok []
  | d :: ds' =>
      match chunk_operation folder_name d with
      | Ok op =>
          match operations_of folder_name ds' with
          | Ok ops => Ok (op :: ops)
          | Raise e => Raise e
          end
      | Raise e => Raise e
      end
  end.

Fixpoint failed_names_of (folder_name : string) (ds : list pydict) : result (list string) :=
  match ds with
  | [] => Ok []
  | d :: ds' =>
      match failed_chunk_name folder_name d with
      | Ok name =>
          match failed_names_of folder_name ds' with
          | Ok names => Ok (name :: names)
          | Raise e => Raise e
          end
      | Raise e => Raise e
      end
  end.

(** Whether the handler of exception [e] at attempt [attempt] takes the
    wait-and-retry branch, and the events each branch leaves. *)
Definition retries (e : commit_exn) (attempt : nat) : bool :=
  match e with
  | RepositoryNotFoundError response _
  | HfHubHTTPError response _ =>
      (status_code_of response =? 429) || (attempt <? MAX_RETRIES)%nat
  | OtherException _ => (attempt <? MAX_RETRIES)%nat
  end.

Definition backoff_events (batch_start len : nat) (e : commit_exn) (attempt : nat)
    : list event :=
  let wait := 2 ^ Z.of_nat attempt in
  match e with
  | RepositoryNotFoundError _ text
  | HfHubHTTPError _ text =>
      [EvLog WARNING RETRY_WARNING
         [Z.of_nat (batch_start + 1); Z.of_nat (batch_start + len);
          Z.of_nat attempt; Z.of_nat MAX_RETRIES; wait] text;
       EvSleep wait]
  | OtherException _ => [EvSleep wait]
  end.

Definition failure_log (e : commit_exn) : event :=
  match e with
  | RepositoryNotFoundError _ text
  | HfHubHTTPError _ text => EvLog ERROR "Batch upload permanently failed: %s" [] text
  | OtherException text => EvLog ERROR "Batch upload error: %s" [] text
  end.

(** [ceil(m / n)] on naturals. *)
Definition ceil_div (m n : nat) : nat := ((m + n - 1) / n)%nat.

(** The batches [upload_chunks_batch] cuts [chunks] into, for a positive
    [batch_size]: one slice per [batch_start] of its [range]. *)
Definition batches_of {A} (chunks : list A) (batch_size : nat) : list (list A) :=
  map (λ batch_start, slice chunks batch_start batch_size)
      (range_loop (length chunks) 0 (length chunks) batch_size).

Fixpoint attempts_in (sh : list step) : nat :=
  match sh with
  | [] => 0
  | Attempt :: sh' => S (attempts_in sh')
  | Wait _ :: sh' => attempts_in sh'
  end.

Fixpoint waits_in (sh : list step) : list Z :=
  match sh with
  | [] => []
  | Attempt :: sh' => waits_in sh'
  | Wait s :: sh' => s :: waits_in sh'
  end.

(** [status_code == 429] under [except HfHubHTTPError]. *)
Definition is_rate_limit (e : commit_exn) : bool :=
  match e with
  | RepositoryNotFoundError response _
  | HfHubHTTPError response _ => status_code_of response =? 429
  | OtherException _ => false
  end.

(* ===================================================================== *)
(** ** Concrete services, records and hubs for the examples *)
(* ===================================================================== *)

Definition demo_service : HuggingFaceService :=
  {| token := "hf_demo"; raw_repo := "mozhii/raw"; cleaned_repo := "mozhii/cleaned";
     chunked_repo := "mozhii/chunked" |}.

Definition chunk_record (i : Z) : pydict :=
  <["chunk_index" := PInt i]> (<["text" := PStr "..."]> ∅).

(** A chunk record without a [chunk_index] entry. *)
Definition unindexed_record : pydict := <["text" := PStr "..."]> ∅.

Definition always (out : outcome) : list event → commit_request → outcome :=
  λ _ _, out.

(** A hub that raises [e] on the first [n] commit calls of the run and
    accepts the later ones. *)
Definition fails_first (n : nat) (e : commit_exn) : list event → commit_request → outcome :=
  λ t _, if (length (commits_of t) <? n)%nat then Raised e else Committed.

Definition rate_limited : commit_exn := HfHubHTTPError (Some 429) "429 Too Many Requests".
Definition server_error : commit_exn := HfHubHTTPError (Some 500) "500 Server Error".
Definition connection_reset : commit_exn := OtherException "Connection reset by peer".

Definition fresh_world (h : list event → commit_request → outcome) (heap : list pydict)
    : world :=
  {| hub := h; clock := λ _, "2026-01-01T00:00:00"; write_fails := λ _, false;
     trace := []; store := heap; files := ∅; dirs := ∅ |}.

(** The operation of a chunk can be built: its [chunk_index] (1 when
    absent) can be formatted with [02d], being an [int] or a [bool], its
    record can be encoded, and the hub client accepts its path. *)
Definition sendable (folder_name : string) (d : pydict) : bool :=
  is_ok (chunk_operation folder_name d).



(** The operations of a batch whose records are all sendable. *)
Definition batch_operations (folder_name : string) (ds : list pydict) : list operation :=
  match operations_of folder_name ds with
  | Ok ops => ops
  | Raise _ => []
  end.

(** The event a batch leaves when its first commit attempt is accepted. *)
Definition accepted_commit (target_repo folder_name : string) (chunks : list loc)
    (batch_size : nat) (w : world) (batch_start : nat) : event :=
  let batch := slice chunks batch_start batch_size in
  EvCommit (batch_request target_repo folder_name batch_start batch
              (batch_operations folder_name (map (deref w) batch)))
           Committed.

(** A run in which the hub accepts every commit: 223 chunk records. *)
Definition many_records (n : nat) : list pydict :=
  map (λ i, chunk_record (Z.of_nat i)) (seq 1 n).

Definition accepting_world : world :=
  fresh_world (always Committed) (many_records 223).

(** Every operation of every commit in [evs] is the operation of one of
    the records [ds]. *)
Definition sends_only (folder_name : string) (ds : list pydict) (evs : list event) : Prop :=
  Forall (λ c, Forall (λ op, ∃ d, d ∈ ds ∧ chunk_operation folder_name d = Ok op)
                      (operations c.1))
         (commits_of evs).

(** What [push_to_huggingface] makes of one entry of a chunk folder. *)
Inductive entry_kind :=
| NotJson
| Unreadable
| Marked (d : pydict)
| Unmarked (d : pydict).

Definition classify (fs : gmap string file_content) (folder_path chunk_file : string)
    : entry_kind :=
  if negb (endswith chunk_file ".json") then NotJson
  else
    match fs !! path_join folder_path chunk_file with
    | Some (JsonObject d) =>
        if truthy (dict_get d "pushed_to_hf" PNone) then Marked d else Unmarked d
    | _ => Unreadable
    end.

(** The records of a folder that carry no [pushed_to_hf] marker, in the
    order of the listing. *)
Definition unmarked_records (fs : gmap string file_content) (folder_path : string)
    (listing : list string) : list pydict :=
  flat_map (λ chunk_file,
              match classify fs folder_path chunk_file with
              | Unmarked d => [d]
              | _ => []
              end) listing.

(** The number of records of a folder that carry the marker. *)
Definition marked_count (fs : gmap string file_content) (folder_path : string)
    (listing : list string) : nat :=
  length (flat_map (λ chunk_file,
                      match classify fs folder_path chunk_file with
                      | Marked d => [d]
                      | _ => []
                      end) listing).

(** The number of entries counted as failed while the folder is read. *)
Definition read_failures (fs : gmap string file_content) (folder_path : string)
    (listing : list string) : nat :=
  length (flat_map (λ chunk_file,
                      match classify fs folder_path chunk_file with
                      | Unreadable => [chunk_file]
                      | Unmarked d =>
                          if hashable (dict_get d "chunk_index" (PStr chunk_file)) then []
                          else [chunk_file]
                      | _ => []
                      end) listing).

(** [w'] has the hub, clock and disk of [w]. *)
Definition same_disk (w w' : world) : Prop :=
  hub w' = hub w ∧ clock w' = clock w ∧ write_fails w' = write_fails w
  ∧ files w' = files w ∧ dirs w' = dirs w.

(** From [w] to [w'] no commit was attempted. *)
Definition quiet (w w' : world) : Prop :=
  ∃ evs, trace w' = trace w ++ evs ∧ commits_of evs = [].

(** From [w] to [w'] dicts were only allocated. *)
Definition grows (w w' : world) : Prop :=
  ∃ ds, store w' = store w ++ ds.

(** A disk with one chunk folder of three records, the second of which
    was pushed before. *)
Definition demo_dir : string := "data/approved/chunked".

Definition demo_disk : world :=
  {| hub := always Committed; clock := λ _, "2026-01-01T00:00:00";
     write_fails := λ _, false; trace := []; store := [];
     files :=
       <["data/approved/chunked/doc/chunk_01.json" := JsonObject (chunk_record 1)]>
       (<["data/approved/chunked/doc/chunk_02.json" :=
            JsonObject (<["pushed_to_hf" := PStr "2025-12-31T00:00:00Z"]> (chunk_record 2))]>
        (<["data/approved/chunked/doc/chunk_03.json" := JsonObject (chunk_record 3)]> ∅));
     dirs :=
       <["data/approved/chunked" := ["doc"]]>
       (<["data/approved/chunked/doc" :=
            ["chunk_01.json"; "chunk_02.json"; "chunk_03.json"]]> ∅) |}.

(** The same disk in front of a hub that answers 429 to every commit. *)
Definition demo_disk_rate_limited : world :=
  {| hub := always (Raised rate_limited); clock := clock demo_disk;
     write_fails := write_fails demo_disk; trace := []; store := [];
     files := files demo_disk; dirs := dirs demo_disk |}.

(** The stages of the push of folder [doc] of that disk: what was read,
    and what the service answered. *)
Definition demo_listing : list string :=
  ["chunk_01.json"; "chunk_02.json"; "chunk_03.json"].

Definition demo_read : result collected * world :=
  collect_chunks (path_join demo_dir "doc") demo_listing
    {| unpushed_chunks := []; chunk_file_paths := [];
       collected_results := Results.empty |} demo_disk.

Definition demo_collected : collected :=
  match demo_read.1 with
  | Ok c => c
  | Raise _ => {| unpushed_chunks := []; chunk_file_paths := [];
                  collected_results := Results.empty |}
  end.

Definition demo_upload : result batch_result * world :=
  upload_chunks_batch demo_service "doc" (unpushed_chunks demo_collected) None 50
    demo_read.2.

Definition demo_result : batch_result :=
  match demo_upload.1 with
  | Ok r => r
  | Raise _ => NotConfigured ""
  end.

(** The disk after a first push of everything. *)
Definition demo_disk_pushed : world :=
  (push_to_huggingface_chunked demo_service None None demo_dir demo_disk).2.

(** One chunk read from its file and not yet marked. *)
Definition marking_world : world :=
  {| hub := always Committed; clock := λ _, "2026-01-01T00:00:00";
     write_fails := λ _, false; trace := []; store := [chunk_record 1];
     files := <["data/approved/chunked/doc/chunk_01.json" := JsonObject (chunk_record 1)]> ∅;
     dirs := ∅ |}.

(** A chunk record whose [chunk_index] entry is there and is an [int]
    (or a [bool]): the one kind of record both name formats accept. *)
Definition indexed (d : pydict) : bool :=
  match d !! "chunk_index" with
  | Some (PInt _) | Some (PBool _) => true
  | _ => false
  end.

(** A hub that never answers with status 429. *)
Definition never_rate_limited (w : world) : Prop :=
  ∀ t req e, hub w t req = Raised e → is_rate_limit e = false.

(* ===================================================================== *)
(** ** The rest of the service and of the push route *)
(* ===================================================================== *)

(** The requests the hub accepted, in order. *)
Fixpoint accepted_requests (t : list event) : list commit_request :=
  match t with
  | [] => []
  | EvCommit req Committed :: t' => req :: accepted_requests t'
  | _ :: t' => accepted_requests t'
  end.

(** The number of files the hub accepted. *)
Definition operations_accepted (t : list event) : nat :=
  sum_list (map (λ req, length (operations req)) (accepted_requests t)).

(** The seconds slept. *)
Definition total_sleep (t : list event) : Z := foldr Z.add 0 (sleeps_of t).

(** The list [operations] of [upload_chunk], built inside its [try]. *)
Definition single_chunk_operations (folder_name chunk_file : string) (chunk_data : pydict)
    : result (list operation) :=
  let chunk_filename := folder_name +:+ "/" +:+ chunk_file in
  and_then (encode_json chunk_data) (λ chunk_content,
  and_then (CommitOperationAdd chunk_filename chunk_content) (λ chunk_op,
  Ok [chunk_op])).

(** [upload_chunk]: one chunk, at most one commit. *)
Definition upload_chunk (self : HuggingFaceService) (folder_name chunk_file : string)
    (chunk_data : pydict) (repo : option string) : M upload_result :=
  if negb (is_configured self) then
    ret (UploadError "HuggingFace not configured")
  else
    let target_repo := or_default repo (chunked_repo self) in
    match single_chunk_operations folder_name chunk_file chunk_data with
    | Raise e => ret (UploadError ("Upload failed: " +:+ exn_message e))
    | Ok operations =>
        out <- create_commit
                 (CreateCommit target_repo "dataset" operations
                    ("Add " +:+ chunk_file +:+ " for " +:+ folder_name)) ;;
        match out with
        | Committed =>
            ret (UploadOk ("Uploaded " +:+ chunk_file +:+ " to " +:+ target_repo) target_repo)
        | Raised e =>
            ret (UploadError ("Upload failed: " +:+ exn_text e))
        end
    end.

(** [result['success']] of a single-file upload. *)
Definition upload_succeeded (r : upload_result) : bool :=
  match r with
  | UploadOk _ _ => true
  | UploadError _ => false
  end.

(** A run of a single-file upload from [w], whose operations are
    [built]: it returns its dict; without a token, or when an operation
    could not be built, nothing was done and the dict reports no success;
    otherwise the hub was asked once, for these operations, and its answer
    decides [success]. *)
Definition tries_once (self : HuggingFaceService) (w : world)
    (built : result (list operation)) (run : result upload_result * world) : Prop :=
  ∃ r, run.1 = Ok r
       ∧ match is_configured self, built with
         | true, Ok ops =>
             ∃ req out, run.2 = after w [EvCommit req out]
                        ∧ operations req = ops
                        ∧ out = hub w (trace w) req
                        ∧ (upload_succeeded r = true ↔ out = Committed)
         | _, _ => run.2 = w ∧ upload_succeeded r = false
         end.

(* ===================================================================== *)
(** ** File names *)
(* ===================================================================== *)

(** [new.join(...)] around every character: [s.replace('', new)]. *)
Fixpoint interleave (new s : string) : string :=
  match s with
  | EmptyString => new
  | String c s' => new +:+ String c (interleave new s')
  end.

(** The scan of [s.replace(old, new)] for a non-empty [old]: occurrences
    are taken from the left and do not overlap; [skip] counts the
    characters of the occurrence just replaced that are still to pass. *)
Fixpoint replace_from (old new : string) (skip : nat) (s : string) : string :=
  match s with
  | EmptyString => EmptyString
  | String c s' =>
      match skip with
      | S k => replace_from old new k s'
      | O =>
          if String.prefix old s
          then new +:+ replace_from old new (String.length old - 1) s'
          else String c (replace_from old new 0 s')
      end
  end.

(** [s.replace(old, new)] *)
Definition str_replace (s old new : string) : string :=
  if String.eqb old "" then interleave new s else replace_from old new 0 s.

(** [old in s] *)
Fixpoint occurs (old s : string) : bool :=
  match s with
  | EmptyString => String.prefix old EmptyString
  | String c s' => String.prefix old s || occurs old s'
  end.

(** [filename.replace('.txt', '')] *)
Definition base_name_of (filename : string) : string := str_replace filename ".txt" "".

(* ===================================================================== *)
(** ** Listing the raw repository *)
(* ===================================================================== *)

(** The dict returned by [list_raw_files]. *)
Inductive listing_result :=
| Listed (files : list string) (count : nat)
| ListError (error : string).

(** [list_raw_files]; [list_repo_files] is the hub's answer to
    [self.api.list_repo_files(repo_id, repo_type='dataset')]: the file
    names, or the text of what it raised. *)
Definition list_raw_files (list_repo_files : string → string + list string)
    (self : HuggingFaceService) : listing_result :=
  if negb (is_configured self) then ListError "HuggingFace not configured"
  else
    match list_repo_files (raw_repo self) with
    | inr files =>
        let txt_files :=
          map base_name_of (List.filter (λ f, endswith f ".txt") files) in
        Listed txt_files (length txt_files)
    | inl text => ListError ("Failed to list files: " +:+ text)
    end.

(* ===================================================================== *)
(** ** The raw and cleaned sections of [push_to_huggingface] *)
(* ===================================================================== *)

(** The two sections are the same code up to the directory, the upload
    method and the words of the log records. *)
Inductive stage := RawStage | CleanedStage.

(** The order in which [os.listdir] gives the entries of a directory:
    some arrangement of its names. *)
Record listdir_order := ListdirOrder {
  order_of :> string → list string → list string;
  order_permutes : ∀ path listing, order_of path listing ≡ₚ listing;
}.

Definition upload_of (st : stage) (self : HuggingFaceService)
    : string → string → pydict → option string → M upload_result :=
  match st with
  | RawStage => upload_raw_file self
  | CleanedStage => upload_cleaned_file self
  end.

Definition UPLOAD_FAILED (st : stage) : string :=
  match st with
  | RawStage => "Raw upload failed for %s: %s"
  | CleanedStage => "Cleaned upload failed for %s: %s"
  end.

Definition UPLOAD_EXCEPTION (st : stage) : string :=
  match st with
  | RawStage => "Exception uploading raw %s: %s"
  | CleanedStage => "Exception uploading cleaned %s: %s"
  end.

Definition count_uploaded (base_name : string) (r : Results.t) : Results.t :=
  {| Results.uploaded := S (Results.uploaded r); Results.failed := Results.failed r;
     Results.skipped := Results.skipped r; Results.files := Results.files r ++ [base_name];
     Results.failed_chunks := Results.failed_chunks r |}.

Section local_disk.
(** [json_dumps]: the text [f.read()] gives for a file that holds a JSON
    object; [os_order]: the order in which [os.listdir] gives the entries
    of a directory. *)
Context (json_dumps : pydict → string).
Context (os_order : listdir_order).

Definition file_text (c : file_content) : string :=
  match c with
  | JsonObject d => json_dumps d
  | NotAJsonObject raw => raw
  end.

(** [os.listdir(path)] *)
Definition os_listdir (path : string) : M (list string) :=
  λ w, match dirs w !! path with
       | Some listing => (Ok (os_order path listing), w)
       | None => (Raise (OSError "Not a directory"), w)
       end.

(** The [except Exception] clause of one file. *)
Definition on_push_exception (st : stage) (base_name : string) (results : Results.t)
    : M Results.t :=
  log ERROR (UPLOAD_EXCEPTION st) [] base_name ;;;
  ret (count_failed results).

(** [metadata = {}], replaced by [json.load] of the meta file when there
    is one; [None] when that raises (or when the skip test on what was
    loaded does). *)
Definition load_metadata (w : world) (meta_path : string) : option pydict :=
  if path_exists w meta_path then
    match files w !! meta_path with
    | Some (JsonObject d) => Some d
    | _ => None
    end
  else Some ∅.

(** The body of [for filename in os.listdir(...)] of a section. *)
Definition push_file (st : stage) (hf_service : HuggingFaceService) (dir : string)
    (repo : option string) (target_filename : option string) (filename : string)
    (results : Results.t) : M Results.t :=
  if negb (endswith filename ".txt") then ret results
  else
    let base_name := base_name_of filename in
    if filtered_out target_filename base_name then ret results
    else
      let content_path := path_join dir filename in
      let meta_path := path_join dir (base_name +:+ ".meta.json") in
      λ w,
        match files w !! content_path with
        | None => on_push_exception st base_name results w
        | Some c =>
            let content := file_text c in
            match load_metadata w meta_path with
            | None => on_push_exception st base_name results w
            | Some metadata =>
                if truthy (dict_get metadata "pushed_to_hf" PNone) then
                  (Ok (count_skipped results), w)
                else
                  (result <- upload_of st hf_service base_name content metadata repo ;;
                   match result with
                   | UploadOk _ _ =>
                       let results := count_uploaded base_name results in
                       now <- utcnow_isoformat ;;
                       let metadata := <["pushed_to_hf" := PStr (now +:+ "Z")]> metadata in
                       λ w',
                         if write_fails w' meta_path then
                           on_push_exception st base_name results w'
                         else
                           (write_json meta_path metadata ;;; ret results) w'
                   | UploadError _ =>
                       log ERROR (UPLOAD_FAILED st) [] base_name ;;;
                       ret (count_failed results)
                   end) w
            end
        end.

Fixpoint push_files (st : stage) (hf_service : HuggingFaceService) (dir : string)
    (repo : option string) (target_filename : option string) (listing : list string)
    (results : Results.t) : M Results.t :=
  match listing with
  | [] => ret results
  | filename :: listing' =>
      results' <- push_file st hf_service dir repo target_filename filename results ;;
      push_files st hf_service dir repo target_filename listing' results'
  end.

(** [if push_type in [stage, 'all']: ...] for the raw or the cleaned
    stage. *)
Definition push_stage (st : stage) (hf_service : HuggingFaceService) (dir : string)
    (repo : option string) (target_filename : option string) : M Results.t :=
  λ w,
    if path_exists w dir then
      (listing <- os_listdir dir ;;
       push_files st hf_service dir repo target_filename listing Results.empty) w
    else (Ok Results.empty, w).
End local_disk.

(** The entries of a listing that a section pushes. *)
Definition eligible (target_filename : option string) (filename : string) : bool :=
  endswith filename ".txt" && negb (filtered_out target_filename (base_name_of filename)).

(** The meta file at [path] carries the marker. *)
Definition marked_at (w : world) (path : string) : Prop :=
  ∃ d, files w !! path = Some (JsonObject d)
       ∧ truthy (dict_get d "pushed_to_hf" PNone) = true.

(** What a push may do to the file at [path]: leave it, or add the marker
    to the unmarked metadata it holds (to no metadata when there is no
    such file). *)
Definition marker_added (w w' : world) (path : string) : Prop :=
  files w' !! path = files w !! path
  ∨ ∃ d stamp,
      files w' !! path = Some (JsonObject (<["pushed_to_hf" := PStr (stamp +:+ "Z")]> d))
      ∧ truthy (dict_get d "pushed_to_hf" PNone) = false
      ∧ (files w !! path = Some (JsonObject d)
         ∨ (path_exists w path = false ∧ d = ∅)).

(** The operations of the commit a section makes for one file. *)
Definition stage_operations (st : stage) (base_name content : string) (metadata : pydict)
    : result (list operation) :=
  match st with
  | RawStage => raw_operations base_name content metadata
  | CleanedStage => cleaned_operations base_name content
  end.

(** An entry whose content and metadata can be read, that carries no
    marker and whose operations can be built: the next push sends it. *)
Definition unpushed_at (json_dumps : pydict → string) (st : stage) (w : world)
    (dir filename : string) : Prop :=
  ∃ c d,
    files w !! path_join dir filename = Some c
    ∧ load_metadata w (path_join dir (base_name_of filename +:+ ".meta.json")) = Some d
    ∧ truthy (dict_get d "pushed_to_hf" PNone) = false
    ∧ is_ok (stage_operations st (base_name_of filename) (file_text json_dumps c) d) = true.

(** The entries of [dir] that a section pushes, in the order of
    [os.listdir]. *)
Definition eligible_entries (os_order : listdir_order) (w : world)
    (dir : string) (target_filename : option string) : list string :=
  match dirs w !! dir with
  | Some listing => List.filter (eligible target_filename) (os_order dir listing)
  | None => []
  end.

(** A chunk file of [folder_path] that is read as an unmarked record
    without a [chunk_index] entry. *)
Definition unindexed_entry (fs : gmap string file_content) (folder_path : string)
    (listing : list string) : Prop :=
  ∃ d, d ∈ unmarked_records fs folder_path listing ∧ d !! "chunk_index" = None.

(** A disk with two approved raw files, the first with its metadata. *)
Definition raw_dir : string := "data/approved/raw".

Definition raw_disk (h : list event → commit_request → outcome) (wf : string → bool)
    : world :=
  {| hub := h; clock := λ _, "2026-01-01T00:00:00"; write_fails := wf;
     trace := []; store := [];
     files :=
       <["data/approved/raw/a.txt" := NotAJsonObject "first"]>
       (<["data/approved/raw/a.meta.json" := JsonObject (<["language" := PStr "ta"]> ∅)]>
        (<["data/approved/raw/b.txt" := NotAJsonObject "second"]> ∅));
     dirs := <["data/approved/raw" := ["a.meta.json"; "a.txt"; "b.txt"]]> ∅ |}.

(** [json.dumps] and the order of [os.listdir] for the examples. *)
Definition compact_dumps : pydict → string := λ _, "{...}".
Definition sorted_order : listdir_order :=
  ListdirOrder (λ _ listing, listing) (λ _ listing, Permutation_refl listing).

(** A chunk folder whose second record has no [chunk_index]. *)
Definition unindexed_disk (h : list event → commit_request → outcome) : world :=
  {| hub := h; clock := λ _, "2026-01-01T00:00:00"; write_fails := λ _, false;
     trace := []; store := [];
     files :=
       <["data/approved/chunked/doc/chunk_01.json" := JsonObject (chunk_record 1)]>
       (<["data/approved/chunked/doc/chunk_02.json" := JsonObject unindexed_record]> ∅);
     dirs :=
       <["data/approved/chunked" := ["doc"]]>
       (<["data/approved/chunked/doc" := ["chunk_01.json"; "chunk_02.json"]]> ∅) |}.

(** A repository listing for the examples. *)
Definition demo_repo_files : string → string + list string :=
  λ _, inr ["README.md"; "a.txt"; "a.meta.json"; "notes/b.txt"].

(** [w'] has the hub, clock and heap of [w]. *)
Definition same_setting (w w' : world) : Prop :=
  hub w' = hub w ∧ clock w' = clock w ∧ write_fails w' = write_fails w
  ∧ store w' = store w.

(** From [w] to [w'] the directories are the same ones, and their
    listings gained only names that end in [.meta.json]. *)
Definition meta_names_added (w w' : world) : Prop :=
  ∀ dir,
    match dirs w !! dir, dirs w' !! dir with
    | Some listing, Some listing' =>
        ∃ added, listing' ≡ₚ added ++ listing
                 ∧ Forall (λ name, endswith name ".meta.json" = true) added
    | None, None => True
    | _, _ => False
    end.

(** The request [req] carries the file [filename] of [dir] as it is on
    the disk of [w], where its metadata has no marker: its operations
    are the ones the stage builds from that text and that metadata. *)
Definition sends_file (json_dumps : pydict → string) (st : stage) (w : world)
    (dir filename : string) (req : commit_request) : Prop :=
  ∃ c d,
    files w !! path_join dir filename = Some c
    ∧ load_metadata w (path_join dir (base_name_of filename +:+ ".meta.json")) = Some d
    ∧ truthy (dict_get d "pushed_to_hf" PNone) = false
    ∧ stage_operations st (base_name_of filename) (file_text json_dumps c) d
      = Ok (operations req).

(** From [w] to [w'] the disk changed by added markers only, and in
    files named [*.meta.json] only, those that were created among them. *)
Definition marks_only (w w' : world) : Prop :=
  same_setting w w'
  ∧ meta_names_added w w'
  ∧ (∀ p, marker_added w w' p)
  ∧ (∀ p, endswith p ".meta.json" = false → files w' !! p = files w !! p).

(** From [w] to [w'] every file is as it was or holds a record that
    carries the marker; the directories are as they were. *)
Definition writes_marked (w w' : world) : Prop :=
  dirs w' = dirs w
  ∧ ∀ p, files w' !! p = files w !! p
         ∨ ∃ d, files w' !! p = Some (JsonObject d)
                ∧ truthy (dict_get d "pushed_to_hf" PNone) = true.

(** Three chunk records behind a hub that fails the first commit of the
    run with a server error, and behind one that fails every commit. *)
Definition retried_world : world :=
  fresh_world (fails_first 1 server_error) (many_records 3).

Definition failing_world : world :=
  fresh_world (always (Raised server_error)) (many_records 3).

Definition retried_run : result batch_result * world :=
  upload_chunks_batch demo_service "doc" (seq 0 3) None 2 retried_world.

Definition failing_run : result batch_result * world :=
  upload_chunks_batch demo_service "doc" (seq 0 3) None 2 failing_world.

(** The report of a run that returned one. *)
Definition report_of (run : result batch_result * world) : batch_report :=
  match run.1 with
  | Ok (Report r) => r
  | _ => {| success := false; message := ""; repo := ""; uploaded_count := 0;
            failed_count := 0; failed_chunks := [] |}
  end.

(** The counters of a push that returned them. *)
Definition results_of (run : result Results.t * world) : Results.t :=
  match run.1 with
  | Ok r => r
  | Raise _ => Results.empty
  end.

(** The raw files in front of a hub that accepts everything, with a disk
    that can be written, and with one that cannot. *)
Definition raw_disk_writable : world := raw_disk (always Committed) (λ _, false).
Definition raw_disk_read_only : world := raw_disk (always Committed) (λ _, true).

Definition raw_first_push : result Results.t * world :=
  push_stage compact_dumps sorted_order RawStage demo_service raw_dir None None
    raw_disk_writable.

(* ===================================================================== *)
(** ** The listing of the approved files *)
(* ===================================================================== *)

(** One dict of the list returned by [list_approved_files].  [None] is a
    key the dict does not have; [chunks] and [chunks_pushed], which an
    entry made for a chunk folder gets in the iteration that makes it,
    are always there. *)
Record approved_entry := ApprovedEntry {
  entry_filename : string;
  entry_raw : bool;
  entry_raw_pushed : option bool;
  entry_cleaned : bool;
  entry_cleaned_pushed : option bool;
  entry_chunks : nat;
  entry_chunks_pushed : nat;
}.

(** The defaults handed to [files.setdefault] by the three loops. *)
Definition raw_default (base : string) : approved_entry :=
  ApprovedEntry base false None false None 0 0.
Definition cleaned_default (base : string) : approved_entry :=
  ApprovedEntry base false (Some false) false None 0 0.
Definition chunk_default (folder : string) : approved_entry :=
  ApprovedEntry folder false (Some false) false (Some false) 0 0.

Definition text_default (st : stage) (base : string) : approved_entry :=
  match st with
  | RawStage => raw_default base
  | CleanedStage => cleaned_default base
  end.

(** [files.setdefault(key, default)], the entry it returns. *)
Definition setdefault (files : gmap string approved_entry) (key : string)
    (default : approved_entry) : approved_entry :=
  match files !! key with
  | Some entry => entry
  | None => default
  end.

(** [entry['raw'] = True; entry['raw_pushed'] = pushed], and the same for
    the cleaned stage. *)
Definition set_pushed (st : stage) (pushed : bool) (entry : approved_entry)
    : approved_entry :=
  match st with
  | RawStage =>
      ApprovedEntry (entry_filename entry) true (Some pushed) (entry_cleaned entry)
        (entry_cleaned_pushed entry) (entry_chunks entry) (entry_chunks_pushed entry)
  | CleanedStage =>
      ApprovedEntry (entry_filename entry) (entry_raw entry) (entry_raw_pushed entry) true
        (Some pushed) (entry_chunks entry) (entry_chunks_pushed entry)
  end.

(** [entry['chunks'] = total; entry['chunks_pushed'] = pushed_count] *)
Definition set_chunks (total pushed_count : nat) (entry : approved_entry) : approved_entry :=
  ApprovedEntry (entry_filename entry) (entry_raw entry) (entry_raw_pushed entry)
    (entry_cleaned entry) (entry_cleaned_pushed entry) total pushed_count.

(** One iteration of the raw or of the cleaned loop; [None] is an
    exception, which ends the route in its [except] clause. *)
Definition list_text_entry (st : stage) (w : world) (dir fname : string)
    (files : gmap string approved_entry) : option (gmap string approved_entry) :=
  if negb (endswith fname ".txt") then Some files
  else
    let base := base_name_of fname in
    let meta_path := path_join dir (base +:+ ".meta.json") in
    match load_metadata w meta_path with
    | None => None
    | Some d =>
        let pushed := truthy (dict_get d "pushed_to_hf" PNone) in
        let entry := setdefault files base (text_default st base) in
        Some (<[base := set_pushed st pushed entry]> files)
    end.

Fixpoint list_text_entries (st : stage) (w : world) (dir : string) (listing : list string)
    (files : gmap string approved_entry) : option (gmap string approved_entry) :=
  match listing with
  | [] => Some files
  | fname :: listing' =>
      match list_text_entry st w dir fname files with
      | Some files' => list_text_entries st w dir listing' files'
      | None => None
      end
  end.

(** [json.load(f).get('pushed_to_hf')] inside [try: ... except: pass] *)
Definition chunk_is_pushed (w : world) (chunk_path : string) : bool :=
  match files w !! chunk_path with
  | Some (JsonObject d) => truthy (dict_get d "pushed_to_hf" PNone)
  | _ => false
  end.

(** [for cf in os.listdir(folder_path)]: [total] and [pushed_count]. *)
Fixpoint count_chunk_files (w : world) (folder_path : string) (listing : list string)
    (total pushed_count : nat) : nat * nat :=
  match listing with
  | [] => (total, pushed_count)
  | cf :: listing' =>
      if negb (endswith cf ".json") then
        count_chunk_files w folder_path listing' total pushed_count
      else
        count_chunk_files w folder_path listing' (S total)
          (if chunk_is_pushed w (path_join folder_path cf) then S pushed_count
           else pushed_count)
  end.

Section approved_files.
Context (os_order : listdir_order).

(** [if os.path.exists(dir): for fname in os.listdir(dir): ...] *)
Definition list_text_dir (st : stage) (w : world) (dir : string)
    (files : gmap string approved_entry) : option (gmap string approved_entry) :=
  if path_exists w dir then
    match dirs w !! dir with
    | Some listing => list_text_entries st w dir (os_order dir listing) files
    | None => None
    end
  else Some files.

(** One iteration of [for folder in os.listdir(APPROVED_CHUNKED_DIR)]. *)
Definition list_chunk_folder (w : world) (approved_chunked_dir folder : string)
    (files : gmap string approved_entry) : gmap string approved_entry :=
  let folder_path := path_join approved_chunked_dir folder in
  match dirs w !! folder_path with
  | None => files
  | Some listing =>
      let counts := count_chunk_files w folder_path (os_order folder_path listing) 0 0 in
      let entry := setdefault files folder (chunk_default folder) in
      <[folder := set_chunks counts.1 counts.2 entry]> files
  end.

Fixpoint list_chunk_folders (w : world) (approved_chunked_dir : string)
    (folders : list string) (files : gmap string approved_entry)
    : gmap string approved_entry :=
  match folders with
  | [] => files
  | folder :: folders' =>
      list_chunk_folders w approved_chunked_dir folders'
        (list_chunk_folder w approved_chunked_dir folder files)
  end.

Definition list_chunk_dir (w : world) (approved_chunked_dir : string)
    (files : gmap string approved_entry) : option (gmap string approved_entry) :=
  if path_exists w approved_chunked_dir then
    match dirs w !! approved_chunked_dir with
    | Some folders =>
        Some (list_chunk_folders w approved_chunked_dir
                (os_order approved_chunked_dir folders) files)
    | None => None
    end
  else Some files.

(** The three loops of [list_approved_files]. *)
Definition collect_approved (w : world)
    (approved_raw_dir approved_cleaned_dir approved_chunked_dir : string)
    : option (gmap string approved_entry) :=
  match list_text_dir RawStage w approved_raw_dir ∅ with
  | Some files1 =>
      match list_text_dir CleanedStage w approved_cleaned_dir files1 with
      | Some files2 => list_chunk_dir w approved_chunked_dir files2
      | None => None
      end
  | None => None
  end.

(** The answer of the route: the entries, which the route returns as the
    list of the values sorted by [filename] (their key), with their
    number; or the 500 answer, after a log record (the text of the
    exception is not modelled). *)
Inductive approved_files_response :=
| ApprovedFiles (files : gmap string approved_entry) (count : nat)
| ApprovedFilesError (error : string).

Definition list_approved_files
    (approved_raw_dir approved_cleaned_dir approved_chunked_dir : string)
    : M approved_files_response :=
  λ w,
    match collect_approved w approved_raw_dir approved_cleaned_dir approved_chunked_dir with
    | Some files => (Ok (ApprovedFiles files (size files)), w)
    | None =>
        (log ERROR "Error listing approved files: %s" [] "" ;;;
         ret (ApprovedFilesError "Failed to list approved files")) w
    end.
End approved_files.

(** The entry says that the file is there for the stage and pushed. *)
Definition listed_as_pushed (st : stage) (entry : approved_entry) : Prop :=
  match st with
  | RawStage => entry_raw entry = true ∧ entry_raw_pushed entry = Some true
  | CleanedStage => entry_cleaned entry = true ∧ entry_cleaned_pushed entry = Some true
  end.

(** The directory of a stage. *)
Definition stage_dir (st : stage) (approved_raw_dir approved_cleaned_dir : string) : string :=
  match st with
  | RawStage => approved_raw_dir
  | CleanedStage => approved_cleaned_dir
  end.

(** The listing after the first push of the two raw files, and the
    listing of the disk with the chunk folder. *)
Definition raw_listing : result approved_files_response * world :=
  list_approved_files sorted_order raw_dir "data/approved/cleaned" demo_dir
    raw_first_push.2.

Definition chunk_listing : result approved_files_response * world :=
  list_approved_files sorted_order raw_dir "data/approved/cleaned" demo_dir demo_disk.

(** The entries of a listing that returned them. *)
Definition entries_of (run : result approved_files_response * world)
    : gmap string approved_entry :=
  match run.1 with
  | Ok (ApprovedFiles entries _) => entries
  | _ => ∅
  end.

(* ===================================================================== *)
(** ** Basic facts *)
(* ===================================================================== *)

Lemma after_nil w : after w [] = w.
Proof. destruct w. unfold after, with_trace. cbn. by rewrite app_nil_r. Qed.

Lemma after_after w evs1 evs2 : after (after w evs1) evs2 = after w (evs1 ++ evs2).
Proof. unfold after, with_trace. cbn. by rewrite app_assoc. Qed.

Lemma commits_of_app t1 t2 : commits_of (t1 ++ t2) = commits_of t1 ++ commits_of t2.
Proof. induction t1 as [|[] t1 IH]; cbn; by rewrite ?IH. Qed.

Lemma sleeps_of_app t1 t2 : sleeps_of (t1 ++ t2) = sleeps_of t1 ++ sleeps_of t2.
Proof. induction t1 as [|[] t1 IH]; cbn; by rewrite ?IH. Qed.

Lemma shape_app t1 t2 : shape (t1 ++ t2) = shape t1 ++ shape t2.
Proof. induction t1 as [|[] t1 IH]; cbn; by rewrite ?IH. Qed.

Lemma and_then_ok {A B} (r : result A) (k : A → result B) b :
  and_then r k = Ok b → ∃ a, r = Ok a ∧ k a = Ok b.
Proof. destruct r as [a|e]; [|done]. intros H. by exists a. Qed.

Lemma encode_text_ok content bytes :
  encode_text content = Ok bytes → bytes = Utf8Text content.
Proof. unfold encode_text. destruct (has_surrogate content); [done|]. by intros [= <-]. Qed.

Lemma encode_json_ok d bytes : encode_json d = Ok bytes → bytes = Utf8Json d.
Proof. unfold encode_json. destruct (dict_has_surrogate d); [done|]. by intros [= <-]. Qed.

Lemma CommitOperationAdd_ok path bytes op :
  CommitOperationAdd path bytes = Ok op →
  validate_path_in_repo path = Ok (path_in_repo op) ∧ path_or_fileobj op = bytes.
Proof.
  unfold CommitOperationAdd. intros H. apply and_then_ok in H as (p & Hp & [= <-]).
  by rewrite Hp.
Qed.

(** What it takes to build the operation of a chunk, and what is built. *)
Lemma chunk_operation_ok folder_name d op :
  chunk_operation folder_name d = Ok op →
  ∃ idx, format_02d (dict_get d "chunk_index" (PInt 1)) = Ok idx
         ∧ validate_path_in_repo (folder_name +:+ "/chunk_" +:+ idx +:+ ".json")
           = Ok (path_in_repo op)
         ∧ path_or_fileobj op = Utf8Json d.
Proof.
  unfold chunk_operation. intros H.
  apply and_then_ok in H as (idx & Hidx & H). cbv zeta in H.
  apply and_then_ok in H as (bytes & Hb & H).
  apply encode_json_ok in Hb as ->. apply CommitOperationAdd_ok in H as [Hp Hb].
  by exists idx.
Qed.

(** The three things that can keep the operation of a chunk from being
    built. *)
Lemma sendable_spec folder_name d :
  sendable folder_name d = true
  ↔ ∃ idx, format_02d (dict_get d "chunk_index" (PInt 1)) = Ok idx
           ∧ dict_has_surrogate d = false
           ∧ is_ok (validate_path_in_repo (folder_name +:+ "/chunk_" +:+ idx +:+ ".json"))
             = true.
Proof.
  unfold sendable, chunk_operation, encode_json, CommitOperationAdd. cbv zeta. split.
  - destruct (format_02d _) as [idx|]; [|done]. cbn [and_then].
    destruct (dict_has_surrogate d); [done|]. cbn [and_then].
    destruct (validate_path_in_repo _) eqn:Hp; [|done]. intros _.
    exists idx. by rewrite Hp.
  - intros (idx & -> & -> & Hp). cbn [and_then].
    by destruct (validate_path_in_repo _).
Qed.

Lemma build_operations_run folder_name batch ops w :
  build_operations folder_name batch ops w =
  (match operations_of folder_name (map (deref w) batch) with
   | Ok l => Ok (ops ++ l)
   | Raise e => Raise e
   end, w).
Proof.
  revert ops. induction batch as [|l batch IH]; intros ops; cbn.
  - unfold ret. by rewrite app_nil_r.
  - unfold bind, read, lift. cbn.
    destruct (chunk_operation folder_name (deref w l)) as [op|e]; [|done].
    rewrite IH. destruct (operations_of _ _); [|done].
    by rewrite <- app_assoc.
Qed.

Lemma record_failed_run folder_name batch failed w :
  record_failed folder_name batch failed w =
  (match failed_names_of folder_name (map (deref w) batch) with
   | Ok l => Ok (failed ++ l)
   | Raise e => Raise e
   end, w).
Proof.
  revert failed. induction batch as [|l batch IH]; intros failed; cbn.
  - unfold ret. by rewrite app_nil_r.
  - unfold bind, read, lift. cbn.
    destruct (failed_chunk_name folder_name (deref w l)) as [op|e]; [|done].
    rewrite IH. destruct (failed_names_of _ _); [|done].
    by rewrite <- app_assoc.
Qed.

(* ===================================================================== *)
(** ** One batch: the retry loop *)
(* ===================================================================== *)

Section retry_facts.
Context (target_repo folder_name : string) (batch_start : nat)
        (batch : list loc) (ops : list operation).

Local Abbreviation req := (batch_request target_repo folder_name batch_start batch ops).
Local Abbreviation loop := (retry_loop target_repo folder_name batch_start batch ops).

(** One turn of the loop, by what the hub answers. *)
Lemma retry_loop_step attempt attempts u f w :
  loop (attempt :: attempts) u f w =
  match hub w (trace w) req with
  | Committed =>
      (Ok ((u + length batch)%nat, f), after w [EvCommit req Committed])
  | Raised e =>
      if retries e attempt then
        loop attempts u f
          (after w (EvCommit req (Raised e)
                    :: backoff_events batch_start (length batch) e attempt))
      else
        match failed_names_of folder_name (map (deref w) batch) with
        | Ok names =>
            (Ok (u, f ++ names), after w [EvCommit req (Raised e); failure_log e])
        | Raise x => (Raise x, after w [EvCommit req (Raised e)])
        end
  end.
Proof.
  cbn [retry_loop]. unfold bind at 1. unfold create_commit at 1.
  cbn beta iota zeta.
  destruct (hub w (trace w) _) as [|e] eqn:Hout; [done|].
  destruct e as [response text|response text|text]; cbn [retries backoff_events failure_log];
    unfold on_http_error, on_other_error.
  1,2: destruct ((status_code_of response =? 429) || (attempt <? MAX_RETRIES)%nat).
  5: destruct (attempt <? MAX_RETRIES)%nat.
  all: unfold bind, log, sleep, emit, ret; cbn beta iota zeta;
    rewrite ?record_failed_run; cbn [deref store with_trace trace];
    try (unfold after, with_trace; cbn; by rewrite <- ?app_assoc).
  all: fold (deref w); change (λ l, match store w !! l with Some d => d | None => ∅ end) with (deref w);
    destruct (failed_names_of _ _); unfold after, with_trace; cbn; by rewrite <- ?app_assoc.
Qed.

Lemma shape_backoff_events e attempt :
  shape (backoff_events batch_start (length batch) e attempt) = [Wait (2 ^ Z.of_nat attempt)].
Proof. by destruct e. Qed.

Lemma commits_of_backoff_events e attempt :
  commits_of (backoff_events batch_start (length batch) e attempt) = [].
Proof. by destruct e. Qed.

(** Whatever the hub answers, a batch follows the backoff schedule for
    as long as it runs. *)
Lemma retry_loop_shape attempts u f w :
  ∃ evs, (loop attempts u f w).2 = after w evs
         ∧ shape evs `prefix_of` backoff_schedule attempts.
Proof.
  revert w. induction attempts as [|attempt attempts IH]; intros w.
  - exists []. split; [by rewrite after_nil | apply prefix_nil].
  - rewrite retry_loop_step. destruct (hub w (trace w) req) as [|e].
    + eexists. split; [done|]. cbn. apply prefix_cons, prefix_nil.
    + destruct (retries e attempt).
      * destruct (IH (after w (EvCommit req (Raised e)
                    :: backoff_events batch_start (length batch) e attempt)))
          as (evs & Hw & Hp).
        eexists. rewrite Hw, after_after. split; [done|].
        cbn. rewrite shape_app, shape_backoff_events. cbn.
        by do 2 apply prefix_cons.
      * destruct (failed_names_of _ _); cbn; (eexists; split; [done|]);
          cbn; [destruct e; cbn|]; apply prefix_cons, prefix_nil.
Qed.

Lemma failed_names_of_length ds names :
  failed_names_of folder_name ds = Ok names → length names = length ds.
Proof.
  revert names. induction ds as [|d ds IH]; intros names; cbn.
  - by intros [= <-].
  - destruct (failed_chunk_name folder_name d); [|done].
    destruct (failed_names_of folder_name ds) as [l|]; [|done].
    intros [= <-]. cbn. f_equal. by apply IH.
Qed.

(** A batch ends in one of four ways: committed, recorded as failed,
    dropped (the attempts ran out in the retry branch), or raising
    while the failure is recorded. *)
Lemma retry_loop_result attempts u f w :
  match (loop attempts u f w).1 with
  | Ok (u', f') =>
      (u' = (u + length batch)%nat ∧ f' = f)
      ∨ (u' = u ∧ ∃ names, failed_names_of folder_name (map (deref w) batch) = Ok names
                           ∧ f' = f ++ names)
      ∨ (u' = u ∧ f' = f)
  | Raise x => failed_names_of folder_name (map (deref w) batch) = Raise x
  end.
Proof.
  revert w. induction attempts as [|attempt attempts IH]; intros w.
  - cbn. auto.
  - rewrite retry_loop_step. destruct (hub w (trace w) req) as [|e]; [cbn; auto|].
    destruct (retries e attempt).
    + apply (IH (after w _)).
    + destruct (failed_names_of _ _) eqn:E; cbn; [|done].
      right; left. eauto.
Qed.

(** When the hub accepts the first attempt, the batch is one commit. *)
Lemma retry_loop_committed attempt attempts u f w :
  hub w (trace w) req = Committed →
  loop (attempt :: attempts) u f w =
  (Ok ((u + length batch)%nat, f), after w [EvCommit req Committed]).
Proof. intros H. by rewrite retry_loop_step, H. Qed.
End retry_facts.

(* ===================================================================== *)
(** ** Batching *)
(* ===================================================================== *)

Lemma range_loop_concat {A} (l : list A) step fuel i :
  (0 < step)%nat → (length l ≤ i + fuel)%nat →
  concat (map (λ s, slice l s step) (range_loop fuel i (length l) step)) = drop i l.
Proof.
  intros Hstep. revert i. induction fuel as [|fuel IH]; intros i Hfuel; cbn [range_loop].
  - symmetry. apply drop_ge. lia.
  - destruct (Nat.ltb_spec i (length l)) as [Hlt|Hge]; cbn [map concat].
    + rewrite IH by lia. unfold slice.
      rewrite <- (drop_drop l step i). apply take_drop.
    + symmetry. by apply drop_ge.
Qed.

Lemma range_loop_length stop step fuel i :
  (0 < step)%nat → (stop ≤ i + fuel)%nat →
  length (range_loop fuel i stop step) = ceil_div (stop - i) step.
Proof.
  intros Hstep. unfold ceil_div. revert i.
  induction fuel as [|fuel IH]; intros i Hfuel; cbn [range_loop].
  - replace (stop - i)%nat with 0%nat by lia. cbn [length].
    symmetry. apply Nat.div_small. lia.
  - destruct (Nat.ltb_spec i stop) as [Hlt|Hge]; cbn [length].
    + rewrite IH by lia.
      destruct (Nat.le_gt_cases (stop - i) step) as [Hle|Hgt].
      * replace (stop - (i + step))%nat with 0%nat by lia.
        rewrite (Nat.div_small (0 + step - 1) step) by lia.
        apply (Nat.div_unique _ _ 1 (stop - i - 1))%nat; lia.
      * replace (stop - i + step - 1)%nat
          with ((stop - (i + step) + step - 1) + 1 * step)%nat by lia.
        rewrite Nat.div_add by lia. lia.
    + replace (stop - i)%nat with 0%nat by lia.
      symmetry. apply Nat.div_small. lia.
Qed.

Lemma range_loop_bound stop step fuel i s :
  s ∈ range_loop fuel i stop step → (i ≤ s < stop)%nat.
Proof.
  revert i. induction fuel as [|fuel IH]; intros i; cbn [range_loop].
  - by intros ?%elem_of_nil.
  - destruct (Nat.ltb_spec i stop) as [Hlt|Hge].
    + intros [->|Hin]%elem_of_cons; [lia|]. apply IH in Hin. lia.
    + by intros ?%elem_of_nil.
Qed.

Lemma slice_length {A} (l : list A) s step :
  length (slice l s step) = (step `min` (length l - s))%nat.
Proof. unfold slice. by rewrite length_take, length_drop. Qed.

Lemma batches_of_concat {A} (chunks : list A) batch_size :
  (0 < batch_size)%nat → concat (batches_of chunks batch_size) = chunks.
Proof.
  intros H. unfold batches_of. rewrite range_loop_concat by lia. apply drop_0.
Qed.

Lemma batches_of_length {A} (chunks : list A) batch_size :
  (0 < batch_size)%nat →
  length (batches_of chunks batch_size) = ceil_div (length chunks) batch_size.
Proof.
  intros H. unfold batches_of. rewrite length_map, range_loop_length by lia.
  f_equal. lia.
Qed.

Lemma batches_of_bounded {A} (chunks : list A) batch_size :
  Forall (λ batch, (length batch ≤ batch_size)%nat) (batches_of chunks batch_size).
Proof.
  unfold batches_of. apply Forall_map, Forall_forall. intros s _.
  cbn. rewrite slice_length. lia.
Qed.

Lemma batches_of_nonempty {A} (chunks : list A) batch_size :
  (0 < batch_size)%nat →
  Forall (λ batch, (0 < length batch)%nat) (batches_of chunks batch_size).
Proof.
  intros H. unfold batches_of. apply Forall_map, Forall_forall. intros s Hs.
  apply range_loop_bound in Hs. cbn. rewrite slice_length. lia.
Qed.

Lemma batches_of_lengths {A} (chunks : list A) batch_size :
  map length (batches_of chunks batch_size) =
  map (λ s, (batch_size `min` (length chunks - s))%nat)
      (range_loop (length chunks) 0 (length chunks) batch_size).
Proof.
  unfold batches_of. rewrite map_map. apply map_ext. intros s. apply slice_length.
Qed.

(* ===================================================================== *)
(** ** All batches *)
(* ===================================================================== *)

Section batches_facts.
Context (target_repo folder_name : string) (chunks : list loc) (batch_size : nat).

Local Abbreviation one := (upload_one_batch target_repo folder_name chunks batch_size).
Local Abbreviation all := (upload_batches target_repo folder_name chunks batch_size).

Lemma upload_one_batch_run batch_start u f w :
  one batch_start u f w =
  match operations_of folder_name (map (deref w) (slice chunks batch_start batch_size)) with
  | Ok ops =>
      retry_loop target_repo folder_name batch_start
        (slice chunks batch_start batch_size) ops (seq 1 MAX_RETRIES) u f w
  | Raise e => (Raise e, w)
  end.
Proof.
  unfold upload_one_batch, bind. rewrite build_operations_run.
  by destruct (operations_of _ _).
Qed.

Lemma upload_batches_cons batch_start starts u f w :
  all (batch_start :: starts) u f w =
  match one batch_start u f w with
  | (Ok r, w') => all starts r.1 r.2 w'
  | (Raise e, w') => (Raise e, w')
  end.
Proof. done. Qed.

(** A batch only appends events to the trace. *)
Lemma upload_one_batch_frame batch_start u f w :
  ∃ evs, (one batch_start u f w).2 = after w evs
         ∧ shape evs `prefix_of` backoff_schedule (seq 1 MAX_RETRIES).
Proof.
  rewrite upload_one_batch_run. destruct (operations_of _ _) as [ops|e].
  - apply retry_loop_shape.
  - exists []. split; [by rewrite after_nil | apply prefix_nil].
Qed.

Lemma upload_batches_frame starts u f w :
  ∃ evs, (all starts u f w).2 = after w evs.
Proof.
  revert u f w. induction starts as [|s starts IH]; intros u f w.
  - exists []. by rewrite after_nil.
  - rewrite upload_batches_cons.
    destruct (upload_one_batch_frame s u f w) as (evs & Hw & _).
    destruct (one s u f w) as [[r|e] w']; cbn in Hw; subst w'.
    + destruct (IH r.1 r.2 (after w evs)) as (evs' & ->).
      exists (evs ++ evs'). by rewrite after_after.
    + by exists evs.
Qed.

(** No batch is counted twice: what a batch adds to the two tallies is
    at most its length. *)
Lemma upload_one_batch_tally batch_start u f w u' f' :
  (one batch_start u f w).1 = Ok (u', f') →
  (u' = (u + length (slice chunks batch_start batch_size))%nat ∧ f' = f)
  ∨ (u' = u ∧ ∃ names, f' = f ++ names
                       ∧ length names = length (slice chunks batch_start batch_size))
  ∨ (u' = u ∧ f' = f).
Proof.
  rewrite upload_one_batch_run. destruct (operations_of _ _) as [ops|e]; [|done].
  intros H.
  pose proof (retry_loop_result target_repo folder_name batch_start
                (slice chunks batch_start batch_size) ops (seq 1 MAX_RETRIES) u f w) as R.
  rewrite H in R. destruct R as [?|[[-> (names & Hn & ->)]|?]]; auto.
  right; left. split; [done|]. exists names. split; [done|].
  apply failed_names_of_length in Hn. by rewrite length_map in Hn.
Qed.

Lemma upload_batches_tally starts u f w u' f' :
  (all starts u f w).1 = Ok (u', f') →
  (u' + length f' ≤
     u + length f + sum_list (map (λ s, length (slice chunks s batch_size)) starts))%nat
  ∧ (u ≤ u')%nat ∧ f `prefix_of` f'.
Proof.
  revert u f w. induction starts as [|s starts IH]; intros u f w.
  - cbn. intros [= <- <-]. split; [lia|]. done.
  - rewrite upload_batches_cons.
    destruct (one s u f w) as [[[u1 f1]|e] w'] eqn:E; [|done].
    intros H. apply IH in H. cbn [fst snd] in H.
    assert ((one s u f w).1 = Ok (u1, f1)) as T by (by rewrite E).
    apply upload_one_batch_tally in T. cbn [map sum_list_with id].
    destruct H as (H1 & H2 & H3).
    destruct T as [[-> ->]|[[-> (names & -> & Hl)]|[-> ->]]].
    + split; [lia|]. split; [lia|done].
    + rewrite length_app in H1. split; [lia|]. split; [lia|].
      etrans; [|exact H3]. by apply prefix_app_r.
    + split; [lia|]. done.
Qed.
End batches_facts.

Lemma sum_list_concat_length {A} (ls : list (list A)) :
  sum_list (map length ls) = length (concat ls).
Proof. induction ls as [|l ls IH]; cbn; [done|]. rewrite length_app. lia. Qed.

(** [upload_chunks_batch] for a configured service, step by step. *)
Lemma upload_chunks_batch_run self folder_name chunks repo batch_size w :
  is_configured self = true →
  upload_chunks_batch self folder_name chunks repo batch_size w =
  match py_range (length chunks) batch_size with
  | Raise e => (Raise e, w)
  | Ok starts =>
      match upload_batches (or_default repo (chunked_repo self)) folder_name chunks
              (Z.to_nat batch_size) starts 0%nat [] w with
      | (Ok r, w') =>
          (Ok (Report {|
             success := bool_decide (length r.2 = 0%nat);
             message := "Uploaded " +:+ pretty r.1 +:+ " chunks ("
                        +:+ pretty (length r.2) +:+ " failed) to "
                        +:+ or_default repo (chunked_repo self);
             repo := or_default repo (chunked_repo self);
             uploaded_count := r.1;
             failed_count := length r.2;
             failed_chunks := r.2 |}), w')
      | (Raise e, w') => (Raise e, w')
      end
  end.
Proof.
  intros Hc. unfold upload_chunks_batch. rewrite Hc. cbn [negb].
  unfold bind, lift. destruct (py_range _ _) as [starts|e]; [|done].
  by destruct (upload_batches _ _ _ _ _ _ _ _) as [[r|e] w'].
Qed.

Lemma upload_chunks_batch_unconfigured self folder_name chunks repo batch_size w :
  is_configured self = false →
  upload_chunks_batch self folder_name chunks repo batch_size w =
  (Ok (NotConfigured "HuggingFace not configured"), w).
Proof. intros Hc. unfold upload_chunks_batch. by rewrite Hc. Qed.

(** The service only appends to the trace: heap, files and directories
    are those of the call. *)
Lemma upload_chunks_batch_frame self folder_name chunks repo batch_size w :
  ∃ evs, (upload_chunks_batch self folder_name chunks repo batch_size w).2 = after w evs.
Proof.
  destruct (is_configured self) eqn:Hc.
  - rewrite upload_chunks_batch_run by done.
    destruct (py_range _ _) as [starts|e].
    + destruct (upload_batches_frame (or_default repo (chunked_repo self)) folder_name
                  chunks (Z.to_nat batch_size) starts 0%nat [] w) as (evs & Hw).
      exists evs. by destruct (upload_batches _ _ _ _ _ _ _ _) as [[r|e] w'].
    + exists []. by rewrite after_nil.
  - rewrite upload_chunks_batch_unconfigured by done.
    exists []. by rewrite after_nil.
Qed.

(** The two tallies never exceed the input. *)
Lemma upload_chunks_batch_tally self folder_name chunks repo batch_size w r :
  (upload_chunks_batch self folder_name chunks repo batch_size w).1 = Ok (Report r) →
  (uploaded_count r + length (failed_chunks r) ≤ length chunks)%nat
  ∧ failed_count r = length (failed_chunks r).
Proof.
  destruct (is_configured self) eqn:Hc.
  2: { by rewrite upload_chunks_batch_unconfigured. }
  rewrite upload_chunks_batch_run by done.
  unfold py_range.
  destruct (Z.eqb_spec batch_size 0) as [|Hnz]; [done|].
  destruct (Z.ltb_spec batch_size 0) as [Hneg|Hpos].
  - cbn. intros [= <-]. cbn. split; [lia|done].
  - destruct (upload_batches _ _ _ _ _ _ _ _) as [[[u f]|e] w'] eqn:E; [|done].
    intros [= <-]. cbn. split; [|done].
    assert ((upload_batches (or_default repo (chunked_repo self)) folder_name chunks
               (Z.to_nat batch_size)
               (range_loop (length chunks) 0 (length chunks) (Z.to_nat batch_size))
               0%nat [] w).1 = Ok (u, f)) as T by (by rewrite E).
    apply upload_batches_tally in T. destruct T as (T & _). cbn in T.
    change (map (λ s, length (slice chunks s (Z.to_nat batch_size))) ?l)
      with (map (length ∘ (λ s, slice chunks s (Z.to_nat batch_size))) l) in T.
    rewrite <- (map_map (λ s, slice chunks s (Z.to_nat batch_size)) length) in T.
    fold (batches_of chunks (Z.to_nat batch_size)) in T.
    rewrite sum_list_concat_length, batches_of_concat in T by lia. lia.
Qed.

(* ===================================================================== *)
(** ** Backoff *)
(* ===================================================================== *)

Lemma commits_of_shape evs : length (commits_of evs) = attempts_in (shape evs).
Proof. induction evs as [|[] evs IH]; cbn; by rewrite ?IH. Qed.

Lemma sleeps_of_shape evs : sleeps_of evs = waits_in (shape evs).
Proof. induction evs as [|[] evs IH]; cbn; by rewrite ?IH. Qed.

(** What following the schedule of the three attempts gives. *)
Lemma backoff_schedule_prefix sh :
  sh `prefix_of` backoff_schedule (seq 1 MAX_RETRIES) →
  (attempts_in sh ≤ MAX_RETRIES)%nat
  ∧ StronglySorted Z.lt (waits_in sh)
  ∧ waits_in sh = map (λ attempt, 2 ^ Z.of_nat attempt) (seq 1 (length (waits_in sh)))
  ∧ (length (waits_in sh) ≤ attempts_in sh)%nat.
Proof.
  intros [k Hk].
  change (backoff_schedule (seq 1 MAX_RETRIES))
    with [Attempt; Wait 2; Attempt; Wait 4; Attempt; Wait 8] in Hk.
  repeat (destruct sh as [|? sh]; cbn in Hk;
          [ clear Hk; cbn; (split; [unfold MAX_RETRIES; lia|]);
            (split; [repeat constructor|]); (split; [reflexivity|lia])
          | injection Hk as <- Hk ]).
  destruct sh; [|discriminate].
  cbn. split; [unfold MAX_RETRIES; lia|]. split; [repeat constructor|]. split; [reflexivity|lia].
Qed.

(** C5. For every batch of [upload_chunks_batch], whatever the hub
    answers: the commit attempts and waits of the batch follow, for as long
    as the batch runs, the schedule attempt, wait 2^1, attempt, wait 2^2,
    attempt, wait 2^3; so the wait after the failed attempt number
    [attempt] (before the next retry) is [2 ^ attempt] with attempts
    numbered from 1, the successive waits of the batch strictly increase,
    and the batch makes at most [MAX_RETRIES] = 3 commit attempts. *)
Theorem backoff_doubles_and_attempts_are_bounded
    target_repo folder_name chunks batch_size batch_start uploaded_count failed_chunks w :
  ∃ evs,
    (upload_one_batch target_repo folder_name chunks batch_size batch_start
       uploaded_count failed_chunks w).2 = after w evs
    ∧ shape evs `prefix_of` [Attempt; Wait 2; Attempt; Wait 4; Attempt; Wait 8]
    ∧ sleeps_of evs = map (λ attempt, 2 ^ Z.of_nat attempt) (seq 1 (length (sleeps_of evs)))
    ∧ StronglySorted Z.lt (sleeps_of evs)
    ∧ (length (commits_of evs) ≤ MAX_RETRIES)%nat
    ∧ MAX_RETRIES = 3%nat.
Proof.
  destruct (upload_one_batch_frame target_repo folder_name chunks batch_size batch_start
              uploaded_count failed_chunks w) as (evs & Hw & Hp).
  exists evs. split; [done|]. split; [exact Hp|].
  apply backoff_schedule_prefix in Hp. destruct Hp as (Ha & Hs & Hm & _).
  rewrite sleeps_of_shape, commits_of_shape. done.
Qed.

(* ===================================================================== *)
(** ** The happy path *)
(* ===================================================================== *)

Lemma operations_of_sendable folder_name ds :
  Forall (λ d, sendable folder_name d = true) ds →
  ∃ ops, operations_of folder_name ds = Ok ops
         ∧ map path_or_fileobj ops = map Utf8Json ds.
Proof.
  induction 1 as [|d ds Hd _ (ops & IH & IHp)]; cbn.
  - by exists [].
  - unfold sendable in Hd.
    destruct (chunk_operation folder_name d) as [op|] eqn:Hop; [|done].
    apply chunk_operation_ok in Hop as (idx & _ & _ & Hb).
    rewrite IH. eexists. split; [done|]. cbn. by rewrite IHp, Hb.
Qed.

Section happy_path.
Context (target_repo folder_name : string) (chunks : list loc) (batch_size : nat).
Context (w : world).
Hypothesis hub_accepts : ∀ t req, hub w t req = Committed.
Hypothesis chunks_sendable : Forall (λ l, sendable folder_name (deref w l) = true) chunks.

Lemma slice_sendable batch_start :
  Forall (λ d, sendable folder_name d = true)
         (map (deref w) (slice chunks batch_start batch_size)).
Proof.
  apply Forall_map. unfold slice. by apply Forall_take, Forall_drop.
Qed.

Lemma upload_batches_accepted starts u f evs0 :
  upload_batches target_repo folder_name chunks batch_size starts u f (after w evs0) =
  (Ok ((u + sum_list (map (λ s, length (slice chunks s batch_size)) starts))%nat, f),
   after w (evs0 ++ map (accepted_commit target_repo folder_name chunks batch_size w)
                          starts)).
Proof.
  revert u evs0. induction starts as [|s starts IH]; intros u evs0.
  - cbn. unfold ret. by rewrite Nat.add_0_r, app_nil_r.
  - rewrite upload_batches_cons, upload_one_batch_run.
    change (deref (after w evs0)) with (deref w).
    destruct (operations_of_sendable folder_name _ (slice_sendable s)) as (ops & Hops & _).
    assert (batch_operations folder_name (map (deref w) (slice chunks s batch_size)) = ops)
      as Hb by (unfold batch_operations; by rewrite Hops).
    rewrite Hops. change (seq 1 MAX_RETRIES) with (1%nat :: seq 2 2).
    rewrite retry_loop_committed by apply hub_accepts.
    cbn [fst snd]. rewrite after_after, IH.
    cbn [map sum_list_with]. unfold accepted_commit at 2. rewrite Hb.
    f_equal; [f_equal; f_equal; unfold id; lia|].
    by rewrite <- app_assoc.
Qed.
End happy_path.

Lemma commits_of_accepted target_repo folder_name chunks batch_size w starts :
  commits_of (map (accepted_commit target_repo folder_name chunks batch_size w) starts) =
  map (λ s, (batch_request target_repo folder_name s (slice chunks s batch_size)
               (batch_operations folder_name (map (deref w) (slice chunks s batch_size))),
             Committed)) starts.
Proof. induction starts as [|s starts IH]; cbn; by rewrite ?IH. Qed.

(** C6. With a positive [batch_size], [upload_chunks_batch] cuts its
    input into consecutive batches of at most [batch_size] chunks that,
    put end to end, are the input in its order; when the operation of
    every chunk can be built (its index formatted, its record encoded,
    its path accepted by the hub client) and every commit is accepted at
    the first try, it makes exactly ceil(m / batch_size) commit attempts,
    one per batch and carrying that batch's records in order, and reports
    every chunk uploaded and none failed.  For 223 chunks and a batch
    size of 50 the batches have 50, 50, 50, 50 and 23 chunks. *)
Theorem batches_partition_the_input_and_happy_path_commits_once_per_batch
    self folder_name chunks repo batch_size w :
  is_configured self = true →
  0 < batch_size →
  (∀ t req, hub w t req = Committed) →
  Forall (λ l, sendable folder_name (deref w l) = true) chunks →
  let batches := batches_of chunks (Z.to_nat batch_size) in
  concat batches = chunks
  ∧ Forall (λ batch, (0 < length batch ≤ Z.to_nat batch_size)%nat) batches
  ∧ length batches = ceil_div (length chunks) (Z.to_nat batch_size)
  ∧ (∃ evs r,
       upload_chunks_batch self folder_name chunks repo batch_size w
       = (Ok (Report r), after w evs)
       ∧ length (commits_of evs) = ceil_div (length chunks) (Z.to_nat batch_size)
       ∧ Forall (λ c, c.2 = Committed) (commits_of evs)
       ∧ map (λ c, map path_or_fileobj (operations c.1)) (commits_of evs)
         = map (map (λ l, Utf8Json (deref w l))) batches
       ∧ uploaded_count r = length chunks
       ∧ failed_chunks r = []
       ∧ success r = true)
  ∧ (length chunks = 223%nat → batch_size = 50 →
     map length batches = [50; 50; 50; 50; 23]%nat).
Proof.
  intros Hc Hpos Hhub Hidx batches.
  assert (0 < Z.to_nat batch_size)%nat as Hn by lia.
  split; [by apply batches_of_concat|].
  split.
  { pose proof (batches_of_bounded chunks (Z.to_nat batch_size)) as Hb.
    pose proof (batches_of_nonempty chunks (Z.to_nat batch_size) Hn) as Hne.
    subst batches. revert Hb Hne. generalize (batches_of chunks (Z.to_nat batch_size)).
    induction l as [|b l IH]; intros Hb Hne; [constructor|].
    inversion Hb; inversion Hne; subst. constructor; [lia|by apply IH]. }
  split; [by apply batches_of_length|].
  split.
  - rewrite upload_chunks_batch_run by done. unfold py_range.
    destruct (Z.eqb_spec batch_size 0) as [|_]; [lia|].
    destruct (Z.ltb_spec batch_size 0) as [|_]; [lia|].
    pose proof (upload_batches_accepted (or_default repo (chunked_repo self)) folder_name
                  chunks (Z.to_nat batch_size) w Hhub Hidx
                  (range_loop (length chunks) 0 (length chunks) (Z.to_nat batch_size))
                  0%nat [] []) as Hrun.
    rewrite after_nil in Hrun. rewrite Hrun.
    cbn [fst snd app]. eexists _, _. split; [reflexivity|].
    rewrite commits_of_accepted.
    split; [rewrite length_map; fold (@batches_of loc chunks (Z.to_nat batch_size));
            rewrite range_loop_length by lia; f_equal; lia|].
    split; [apply Forall_map, Forall_forall; by intros|].
    split.
    { subst batches. unfold batches_of. rewrite !map_map. apply map_ext_in.
      intros s _. cbn.
      destruct (operations_of_sendable folder_name _
                  (slice_sendable folder_name chunks (Z.to_nat batch_size) w Hidx s))
        as (ops & Hops & Hp).
      unfold batch_operations. rewrite Hops, Hp. by rewrite map_map. }
    cbn. split.
    { change (map (λ s, length (slice chunks s (Z.to_nat batch_size))) ?l)
        with (map (length ∘ (λ s, slice chunks s (Z.to_nat batch_size))) l).
      rewrite <- (map_map (λ s, slice chunks s (Z.to_nat batch_size)) length).
      fold (batches_of chunks (Z.to_nat batch_size)).
      by rewrite sum_list_concat_length, batches_of_concat. }
    done.
  - intros Hlen ->. subst batches. rewrite batches_of_lengths, Hlen. reflexivity.
Qed.

(** The scenario of the 223 chunks: five accepted commits, 223 uploaded. *)
Lemma batching_of_223_chunks_by_50 :
  ∃ evs r,
    upload_chunks_batch demo_service "doc" (seq 0 223) None 50 accepting_world
    = (Ok (Report r), after accepting_world evs)
    ∧ length (commits_of evs) = 5%nat
    ∧ uploaded_count r = 223%nat
    ∧ failed_chunks r = []
    ∧ map length (batches_of (seq 0 223) 50) = [50; 50; 50; 50; 23]%nat.
Proof.
  destruct (batches_partition_the_input_and_happy_path_commits_once_per_batch
              demo_service "doc" (seq 0 223) None 50 accepting_world)
    as (_ & _ & _ & (evs & r & Hrun & Hn & _ & _ & Hu & Hf & _) & H223).
  - reflexivity.
  - lia.
  - intros t req. reflexivity.
  - apply (bool_decide_unpack _). vm_compute. exact I.
  - exists evs, r. split; [exact Hrun|]. split; [exact Hn|]. split; [exact Hu|].
    split; [exact Hf|]. apply H223; reflexivity.
Defined.

(* ===================================================================== *)
(** ** Rate limiting on the last attempt *)
(* ===================================================================== *)

(** C1. The tallies of [upload_chunks_batch] do not always add up to the
    input: when the third attempt of a batch raises [HfHubHTTPError] with
    status 429 the handler waits again, the attempts are used up and the
    batch is neither added to [uploaded_count] nor to [failed_chunks].
    Here one chunk goes in, and the report counts 0 uploaded and 0
    failed (and says [success]). *)
Theorem rate_limited_batch_is_neither_uploaded_nor_failed :
  let chunks := [0%nat] in
  let w := fresh_world (always (Raised rate_limited)) [chunk_record 1] in
  ∃ r, (upload_chunks_batch demo_service "doc" chunks None 50 w).1 = Ok (Report r)
       ∧ uploaded_count r = 0%nat
       ∧ failed_chunks r = []
       ∧ success r = true
       ∧ (uploaded_count r + length (failed_chunks r))%nat ≠ length chunks.
Proof.
  cbv zeta. eexists. split; [vm_compute; reflexivity|]. cbn. repeat split; lia.
Qed.

(** C2. A batch whose three commit attempts all raised does not always
    have its chunks in [failed_chunks]: three chunks in batches of two,
    the hub answers 429 to the first three commit calls and accepts the
    fourth.  The first batch (chunks 1 and 2) used up its attempts without
    a commit, and the report lists no failed chunk. *)
Theorem exhausted_rate_limited_batch_is_not_listed_as_failed :
  let w := fresh_world (fails_first 3 rate_limited)
             [chunk_record 1; chunk_record 2; chunk_record 3] in
  let run := upload_chunks_batch demo_service "doc" [0; 1; 2]%nat None 2 w in
  map (λ c, (map path_in_repo (operations c.1), c.2)) (commits_of (trace run.2))
  = [ (["doc/chunk_01.json"; "doc/chunk_02.json"], Raised rate_limited);
      (["doc/chunk_01.json"; "doc/chunk_02.json"], Raised rate_limited);
      (["doc/chunk_01.json"; "doc/chunk_02.json"], Raised rate_limited);
      (["doc/chunk_03.json"], Committed) ]
  ∧ ∃ r, run.1 = Ok (Report r)
         ∧ uploaded_count r = 1%nat
         ∧ failed_chunks r = [].
Proof.
  cbv zeta. split; [vm_compute; reflexivity|].
  eexists. split; [vm_compute; reflexivity|]. done.
Qed.

(** C3. An error raised while a batch is processed can abort the whole
    call: the name recorded for a failed chunk is formatted from
    [chunk.get("chunk_index", "?")] with [02d], which raises [ValueError]
    for a chunk without [chunk_index].  Two chunks in batches of one, the
    hub unreachable: the first batch fails three times, the handler raises
    while recording it, no report is returned and the second batch is
    never attempted. *)
Theorem failure_of_an_unindexed_chunk_aborts_the_call :
  let w := fresh_world (always (Raised connection_reset))
             [unindexed_record; chunk_record 2] in
  let run := upload_chunks_batch demo_service "doc" [0; 1]%nat None 1 w in
  run.1 = Raise (ValueError "Unknown format code 'd' for object of type 'str'")
  ∧ map (λ c, map path_in_repo (operations c.1)) (commits_of (trace run.2))
    = [ ["doc/chunk_01.json"]; ["doc/chunk_01.json"]; ["doc/chunk_01.json"] ].
Proof. cbv zeta. split; vm_compute; reflexivity. Qed.

(** C10. Whenever [upload_chunks_batch] returns its report, [success] is
    true exactly when [failed_chunks] is empty (the answer of an
    unconfigured service has no [failed_chunks] and comes only then); and
    [success] can be true with [uploaded_count] below the number of input
    chunks, a batch having been added to neither tally. *)
Theorem success_means_no_failed_chunk_listed :
  (∀ self folder_name chunks repo batch_size w,
     match (upload_chunks_batch self folder_name chunks repo batch_size w).1 with
     | Ok (Report r) =>
         (success r = true ↔ failed_chunks r = [])
         ∧ failed_count r = length (failed_chunks r)
         ∧ is_configured self = true
     | Ok (NotConfigured _) => is_configured self = false
     | Raise _ => is_configured self = true
     end)
  ∧ (∃ self folder_name chunks repo batch_size w r,
       (upload_chunks_batch self folder_name chunks repo batch_size w).1 = Ok (Report r)
       ∧ success r = true
       ∧ (uploaded_count r < length chunks)%nat).
Proof.
  split.
  - intros self folder_name chunks repo batch_size w.
    destruct (is_configured self) eqn:Hc.
    + rewrite upload_chunks_batch_run by done.
      destruct (py_range _ _) as [starts|e]; [|done].
      destruct (upload_batches _ _ _ _ _ _ _ _) as [[[u f]|e] w']; [|done].
      cbn. split; [|done]. rewrite bool_decide_eq_true. split.
      * by intros ?%length_zero_iff_nil.
      * by intros ->.
    + by rewrite upload_chunks_batch_unconfigured.
  - exists demo_service, "doc", [0%nat], None, 50,
      (fresh_world (always (Raised rate_limited)) [chunk_record 1]).
    eexists. split; [vm_compute; reflexivity|]. cbn. split; [done|lia].
Qed.

(** C4. Status 429 is not told apart for the log alone: on the last
    attempt it decides whether the batch is retried and what is recorded.
    One chunk, every commit raising [HfHubHTTPError]: with status 500 the
    batch is attempted three times, with waits of 2 and 4 seconds between
    the attempts, and its chunk is listed in [failed_chunks]; with status
    429 the third attempt is followed by a wait of 8 seconds, after which
    no attempt is left, and the chunk is recorded neither as uploaded nor
    as failed. *)
Theorem a_last_rate_limit_is_waited_on_and_not_recorded :
  let run code :=
    upload_chunks_batch demo_service "doc" [0%nat] None 50
      (fresh_world (always (Raised (HfHubHTTPError (Some code) "error")))
                   [chunk_record 1]) in
  shape (trace (run 500).2) = [Attempt; Wait 2; Attempt; Wait 4; Attempt]
  ∧ (∃ r, (run 500).1 = Ok (Report r)
          ∧ uploaded_count r = 0%nat
          ∧ failed_chunks r = ["doc/chunk_01.json"])
  ∧ shape (trace (run 429).2) = [Attempt; Wait 2; Attempt; Wait 4; Attempt; Wait 8]
  ∧ (∃ r, (run 429).1 = Ok (Report r)
          ∧ uploaded_count r = 0%nat
          ∧ failed_chunks r = []).
Proof.
  cbv zeta. split; [vm_compute; reflexivity|]. split.
  { eexists. split; [vm_compute; reflexivity|]. by split. }
  split; [vm_compute; reflexivity|].
  eexists. split; [vm_compute; reflexivity|]. by split.
Qed.



(* ===================================================================== *)
(** ** What is sent *)
(* ===================================================================== *)

Lemma after_inj w evs1 evs2 : after w evs1 = after w evs2 → evs1 = evs2.
Proof.
  intros H. apply (f_equal trace) in H. cbn in H. by apply app_inv_head in H.
Qed.

Lemma retry_loop_requests target_repo folder_name batch_start batch ops attempts u f w evs :
  (retry_loop target_repo folder_name batch_start batch ops attempts u f w).2 = after w evs →
  Forall (λ c, c.1 = batch_request target_repo folder_name batch_start batch ops)
         (commits_of evs).
Proof.
  revert w evs. induction attempts as [|attempt attempts IH]; intros w evs.
  - cbn. rewrite <- (after_nil w) at 1. intros <-%after_inj. constructor.
  - rewrite retry_loop_step.
    destruct (hub w (trace w) _) as [|e].
    + cbn. intros <-%after_inj. by repeat constructor.
    + destruct (retries e attempt).
      * destruct (retry_loop_shape target_repo folder_name batch_start batch ops attempts u f
                    (after w (EvCommit (batch_request target_repo folder_name batch_start batch ops)
                                (Raised e)
                              :: backoff_events batch_start (length batch) e attempt)))
          as (evs' & Hw & _).
        intros H. specialize (IH _ _ Hw). rewrite Hw, after_after in H.
        apply after_inj in H. subst evs. cbn.
        rewrite commits_of_app, commits_of_backoff_events. by constructor.
      * destruct (failed_names_of _ _); cbn; intros <-%after_inj; cbn.
        -- destruct e; by repeat constructor.
        -- by repeat constructor.
Qed.

Lemma operations_of_sources folder_name ds ops :
  operations_of folder_name ds = Ok ops →
  Forall (λ op, ∃ d, d ∈ ds ∧ chunk_operation folder_name d = Ok op) ops.
Proof.
  revert ops. induction ds as [|d ds IH]; intros ops; cbn.
  - intros [= <-]. constructor.
  - destruct (chunk_operation folder_name d) as [op|] eqn:Hop; [|done].
    destruct (operations_of folder_name ds) as [ops'|]; [|done].
    intros [= <-]. constructor.
    + exists d. split; [left|done].
    + eapply Forall_impl; [by apply IH|]. intros op' (d' & Hd' & Hop').
      exists d'. split; [by right|done].
Qed.

Lemma slice_subseteq {A} (l : list A) start size : slice l start size ⊆ l.
Proof. unfold slice. etrans; [apply subseteq_take|apply subseteq_drop]. Qed.

Lemma elem_of_map_deref w (l1 l2 : list loc) d :
  l1 ⊆ l2 → d ∈ map (deref w) l1 → d ∈ map (deref w) l2.
Proof.
  intros Hsub. rewrite !list_elem_of_In, !in_map_iff.
  intros (l & <- & Hl). exists l. split; [done|].
  apply list_elem_of_In, Hsub. by apply list_elem_of_In.
Qed.

Lemma upload_one_batch_sends target_repo folder_name chunks batch_size batch_start u f w evs :
  (upload_one_batch target_repo folder_name chunks batch_size batch_start u f w).2
  = after w evs →
  sends_only folder_name (map (deref w) chunks) evs.
Proof.
  rewrite upload_one_batch_run.
  destruct (operations_of _ _) as [ops|e] eqn:Hops.
  - intros H%retry_loop_requests. unfold sends_only.
    eapply Forall_impl; [exact H|]. intros c ->. cbn.
    eapply Forall_impl; [by apply operations_of_sources|].
    intros op (d & Hd & Hop). exists d. split; [|done].
    eapply elem_of_map_deref; [apply slice_subseteq|exact Hd].
  - cbn. rewrite <- (after_nil w) at 1. intros <-%after_inj. constructor.
Qed.

Lemma sends_only_app folder_name ds evs1 evs2 :
  sends_only folder_name ds evs1 → sends_only folder_name ds evs2 →
  sends_only folder_name ds (evs1 ++ evs2).
Proof.
  unfold sends_only. rewrite commits_of_app, Forall_app. by split.
Qed.

Lemma upload_batches_sends target_repo folder_name chunks batch_size starts u f w evs :
  (upload_batches target_repo folder_name chunks batch_size starts u f w).2 = after w evs →
  sends_only folder_name (map (deref w) chunks) evs.
Proof.
  revert u f w evs. induction starts as [|s starts IH]; intros u f w evs.
  - cbn. rewrite <- (after_nil w) at 1. intros <-%after_inj. constructor.
  - rewrite upload_batches_cons.
    destruct (upload_one_batch_frame target_repo folder_name chunks batch_size s u f w)
      as (evs1 & Hw1 & _).
    pose proof (upload_one_batch_sends _ _ _ _ _ _ _ _ _ Hw1) as Hs1.
    destruct (upload_one_batch _ _ _ _ _ _ _ _) as [[r|e] w1]; cbn in Hw1; subst w1.
    + destruct (upload_batches_frame target_repo folder_name chunks batch_size starts
                  r.1 r.2 (after w evs1)) as (evs2 & Hw2).
      pose proof (IH _ _ _ _ Hw2) as Hs2.
      rewrite Hw2, after_after. intros <-%after_inj.
      by apply sends_only_app.
    + cbn. by intros <-%after_inj.
Qed.

(** Whatever happens, the commits of [upload_chunks_batch] carry nothing
    but operations built from the chunks it was given. *)
Lemma upload_chunks_batch_sends self folder_name chunks repo batch_size w evs :
  (upload_chunks_batch self folder_name chunks repo batch_size w).2 = after w evs →
  sends_only folder_name (map (deref w) chunks) evs.
Proof.
  destruct (is_configured self) eqn:Hc.
  - rewrite upload_chunks_batch_run by done.
    destruct (py_range _ _) as [starts|e].
    + intros H. apply (upload_batches_sends (or_default repo (chunked_repo self)) folder_name
                         chunks (Z.to_nat batch_size) starts 0%nat []).
      by destruct (upload_batches _ _ _ _ _ _ _ _) as [[r|e] w'].
    + cbn. rewrite <- (after_nil w) at 1. intros <-%after_inj. constructor.
  - rewrite upload_chunks_batch_unconfigured by done.
    cbn. rewrite <- (after_nil w) at 1. intros <-%after_inj. constructor.
Qed.

(* ===================================================================== *)
(** ** Remote paths *)
(* ===================================================================== *)






Lemma startswith_drop s pre :
  startswith s pre = true → s = pre +:+ str_drop (String.length pre) s.
Proof.
  unfold startswith. revert s. induction pre as [|a pre IH]; intros s; [done|].
  destruct s as [|b s]; [done|]. cbn [String.prefix].
  destruct (ascii_dec a b) as [->|]; [|done].
  intros H. change (String b s = String b (pre +:+ str_drop (String.length pre) s)).
  f_equal. by apply IH.
Qed.
















(* ===================================================================== *)
(** ** Reading a chunk folder *)
(* ===================================================================== *)

Lemma same_disk_refl w : same_disk w w.
Proof. by repeat split. Qed.

Lemma same_disk_trans w1 w2 w3 : same_disk w1 w2 → same_disk w2 w3 → same_disk w1 w3.
Proof.
  intros (?&?&?&?&?) (?&?&?&?&?). repeat split; congruence.
Qed.

Lemma quiet_refl w : quiet w w.
Proof. exists []. by rewrite app_nil_r. Qed.

Lemma quiet_trans w1 w2 w3 : quiet w1 w2 → quiet w2 w3 → quiet w1 w3.
Proof.
  intros (e1 & H1 & C1) (e2 & H2 & C2). exists (e1 ++ e2).
  rewrite H2, H1, <- app_assoc, commits_of_app, C1, C2. done.
Qed.

Lemma grows_refl w : grows w w.
Proof. exists []. by rewrite app_nil_r. Qed.

Lemma grows_trans w1 w2 w3 : grows w1 w2 → grows w2 w3 → grows w1 w3.
Proof.
  intros (d1 & H1) (d2 & H2). exists (d1 ++ d2). by rewrite H2, H1, <- app_assoc.
Qed.

Lemma quiet_same_trace w w' : trace w' = trace w → quiet w w'.
Proof. intros H. exists []. by rewrite app_nil_r. Qed.

Lemma grows_same_store w w' : store w' = store w → grows w w'.
Proof. intros H. exists []. by rewrite app_nil_r. Qed.

Lemma deref_grows w w' (l : loc) :
  grows w w' → (l < length (store w))%nat → deref w' l = deref w l.
Proof.
  intros (ds & Hs) Hl. unfold deref. by rewrite Hs, lookup_app_l.
Qed.

Lemma map_deref_grows w w' (ls : list loc) :
  grows w w' → Forall (λ l, (l < length (store w))%nat) ls →
  map (deref w') ls = map (deref w) ls.
Proof.
  intros Hg. induction 1 as [|l ls Hl _ IH]; cbn; [done|].
  by rewrite IH, (deref_grows w w').
Qed.

Lemma collect_chunk_run folder_path chunk_file c w :
  collect_chunk folder_path chunk_file c w =
  match classify (files w) folder_path chunk_file with
  | NotJson => (Ok c, w)
  | Unreadable =>
      (Ok {| unpushed_chunks := unpushed_chunks c;
             chunk_file_paths := chunk_file_paths c;
             collected_results := count_failed (collected_results c) |},
       after w [EvLog ERROR READ_ERROR [] (path_join folder_path chunk_file)])
  | Marked d =>
      (Ok {| unpushed_chunks := unpushed_chunks c;
             chunk_file_paths := chunk_file_paths c;
             collected_results := count_skipped (collected_results c) |},
       with_store w (store w ++ [d]))
  | Unmarked d =>
      let key := dict_get d "chunk_index" (PStr chunk_file) in
      if hashable key then
        (Ok {| unpushed_chunks := unpushed_chunks c ++ [length (store w)];
               chunk_file_paths :=
                 key_set (chunk_file_paths c) key (path_join folder_path chunk_file);
               collected_results := collected_results c |},
         with_store w (store w ++ [d]))
      else
        (Ok {| unpushed_chunks := unpushed_chunks c ++ [length (store w)];
               chunk_file_paths := chunk_file_paths c;
               collected_results := count_failed (collected_results c) |},
         after (with_store w (store w ++ [d]))
               [EvLog ERROR READ_ERROR [] (path_join folder_path chunk_file)])
  end.
Proof.
  unfold collect_chunk, classify.
  destruct (endswith chunk_file ".json"); cbn [negb]; [|done].
  destruct (files w !! path_join folder_path chunk_file) as [[d|raw]|]; [|done..].
  unfold bind, alloc. cbn beta iota zeta.
  destruct (truthy (dict_get d "pushed_to_hf" PNone)); [done|].
  cbv zeta. by destruct (hashable _).
Qed.

Lemma collect_chunks_spec folder_path listing c w :
  Forall (λ l, (l < length (store w))%nat) (unpushed_chunks c) →
  ∃ c' w',
    collect_chunks folder_path listing c w = (Ok c', w')
    ∧ same_disk w w' ∧ quiet w w' ∧ grows w w'
    ∧ Forall (λ l, (l < length (store w'))%nat) (unpushed_chunks c')
    ∧ map (deref w') (unpushed_chunks c')
      = map (deref w) (unpushed_chunks c) ++ unmarked_records (files w) folder_path listing
    ∧ Results.skipped (collected_results c')
      = (Results.skipped (collected_results c) + marked_count (files w) folder_path listing)%nat
    ∧ Results.failed (collected_results c')
      = (Results.failed (collected_results c) + read_failures (files w) folder_path listing)%nat
    ∧ Results.uploaded (collected_results c') = Results.uploaded (collected_results c)
    ∧ Results.files (collected_results c') = Results.files (collected_results c)
    ∧ Results.failed_chunks (collected_results c')
      = Results.failed_chunks (collected_results c).
Proof.
  revert c w. induction listing as [|chunk_file listing IH]; intros c w Hvalid.
  - exists c, w. cbn. unfold ret, unmarked_records, marked_count, read_failures. cbn.
    rewrite app_nil_r, !Nat.add_0_r.
    repeat split; auto using same_disk_refl, quiet_refl, grows_refl.
  - cbn [collect_chunks]. unfold bind. rewrite collect_chunk_run.
    unfold unmarked_records, marked_count, read_failures. cbn [flat_map].
    rewrite !length_app.
    fold (unmarked_records (files w) folder_path listing).
    fold (marked_count (files w) folder_path listing).
    fold (read_failures (files w) folder_path listing).
    destruct (classify (files w) folder_path chunk_file) as [| |d|d] eqn:Hk.
    + destruct (IH c w Hvalid) as (c' & w' & Hrun & Hrest).
      exists c', w'. split; [done|]. cbn [app length Nat.add]. exact Hrest.
    + set (c1 := {| unpushed_chunks := unpushed_chunks c;
                    chunk_file_paths := chunk_file_paths c;
                    collected_results := count_failed (collected_results c) |}).
      set (w1 := after w _).
      destruct (IH c1 w1 Hvalid)
        as (c' & w' & Hrun & Hd & Hq & Hg & Hv & Hm & Hs & Hf & Hu & Hfi & Hfc).
      exists c', w'. split; [done|].
      split; [eapply same_disk_trans; [|exact Hd]; by repeat split|].
      split; [eapply quiet_trans; [|exact Hq]; eexists; split; reflexivity|].
      split; [eapply grows_trans; [|exact Hg]; by apply grows_same_store|].
      split; [done|]. cbn in Hm, Hs, Hf, Hu. cbn [app length].
      repeat split; try done. lia.
    + set (c1 := {| unpushed_chunks := unpushed_chunks c;
                    chunk_file_paths := chunk_file_paths c;
                    collected_results := count_skipped (collected_results c) |}).
      set (w1 := with_store w (store w ++ [d])).
      assert (grows w w1) as Hg1 by (by exists [d]).
      assert (Forall (λ l, (l < length (store w1))%nat) (unpushed_chunks c1)) as Hv1.
      { eapply Forall_impl; [exact Hvalid|]. cbn. intros l Hl. rewrite length_app. lia. }
      destruct (IH c1 w1 Hv1)
        as (c' & w' & Hrun & Hd & Hq & Hg & Hv & Hm & Hs & Hf & Hu & Hfi & Hfc).
      exists c', w'. split; [done|].
      split; [eapply same_disk_trans; [|exact Hd]; by repeat split|].
      split; [eapply quiet_trans; [|exact Hq]; by apply quiet_same_trace|].
      split; [by eapply grows_trans|].
      split; [done|]. cbn in Hm, Hs, Hf, Hu. cbn [app length].
      rewrite Hm, (map_deref_grows w w1) by done.
      repeat split; try done. lia.
    + cbv zeta.
      assert (∀ (c1 : collected) (w1 : world),
                unpushed_chunks c1 = unpushed_chunks c ++ [length (store w)] →
                store w1 = store w ++ [d] →
                Forall (λ l, (l < length (store w1))%nat) (unpushed_chunks c1)
                ∧ map (deref w1) (unpushed_chunks c1)
                  = map (deref w) (unpushed_chunks c) ++ [d]) as Hstep.
      { intros c1 w1 -> Hs1. split.
        - apply Forall_app. split.
          + eapply Forall_impl; [exact Hvalid|]. cbn. intros l Hl.
            rewrite Hs1, length_app. lia.
          + constructor; [|constructor]. rewrite Hs1, length_app. cbn. lia.
        - rewrite map_app. f_equal.
          + apply map_deref_grows; [by exists [d]|done].
          + cbn. unfold deref. rewrite Hs1.
            by rewrite list_lookup_middle. }
      destruct (hashable (dict_get d "chunk_index" (PStr chunk_file))).
      * match goal with |- context [collect_chunks _ _ ?c1 ?w1] =>
          destruct (Hstep c1 w1 eq_refl eq_refl) as (Hv1 & Hm1);
          destruct (IH c1 w1 Hv1)
            as (c' & w' & Hrun & Hd & Hq & Hg & Hv & Hm & Hs & Hf & Hu & Hfi & Hfc)
        end.
        exists c', w'. split; [done|].
        split; [eapply same_disk_trans; [|exact Hd]; by repeat split|].
        split; [eapply quiet_trans; [|exact Hq]; by apply quiet_same_trace|].
        split; [eapply grows_trans; [|exact Hg]; by exists [d]|].
        split; [done|]. cbn in Hs, Hf, Hu. cbn [app length].
        rewrite Hm, Hm1, <- app_assoc.
        repeat split; try done.
      * match goal with |- context [collect_chunks _ _ ?c1 ?w1] =>
          destruct (Hstep c1 w1 eq_refl eq_refl) as (Hv1 & Hm1);
          destruct (IH c1 w1 Hv1)
            as (c' & w' & Hrun & Hd & Hq & Hg & Hv & Hm & Hs & Hf & Hu & Hfi & Hfc)
        end.
        exists c', w'. split; [done|].
        split; [eapply same_disk_trans; [|exact Hd]; by repeat split|].
        split; [eapply quiet_trans; [|exact Hq]; eexists; split; reflexivity|].
        split; [eapply grows_trans; [|exact Hg]; by exists [d]|].
        split; [done|]. cbn in Hs, Hf, Hu. cbn [app length].
        rewrite Hm, Hm1, <- app_assoc.
        repeat split; try done. lia.
Qed.

Lemma unmarked_records_spec fs folder_path listing d :
  d ∈ unmarked_records fs folder_path listing ↔
  ∃ chunk_file, chunk_file ∈ listing
                ∧ endswith chunk_file ".json" = true
                ∧ fs !! path_join folder_path chunk_file = Some (JsonObject d)
                ∧ truthy (dict_get d "pushed_to_hf" PNone) = false.
Proof.
  unfold unmarked_records. rewrite list_elem_of_In, in_flat_map. split.
  - intros (f & Hf & Hd). exists f. split; [by apply list_elem_of_In|].
    unfold classify in Hd.
    destruct (endswith f ".json"); cbn in Hd; [|done].
    destruct (fs !! path_join folder_path f) as [[d'|]|]; cbn in Hd; [|done..].
    destruct (truthy (dict_get d' "pushed_to_hf" PNone)) eqn:Ht; cbn in Hd; [done|].
    destruct Hd as [->|[]]. done.
  - intros (f & Hf & He & Hfs & Ht). exists f. split; [by apply list_elem_of_In|].
    unfold classify. rewrite He, Hfs, Ht. cbn. by left.
Qed.

(* ===================================================================== *)
(** ** Marking the pushed chunks *)
(* ===================================================================== *)

Lemma path_exists_with_store w s p : path_exists (with_store w s) p = path_exists w p.
Proof. done. Qed.

Lemma mark_chunk_quiet folder_name failed_set paths pushed_at chunk_data w :
  quiet w (mark_chunk folder_name failed_set paths pushed_at chunk_data w).2.
Proof.
  unfold mark_chunk, bind, read, lift. cbn beta iota zeta.
  destruct (format_02d _) as [idx|e]; [|apply quiet_refl].
  destruct (bool_decide _); [apply quiet_refl|].
  destruct (key_get paths _) as [chunk_path|]; [|apply quiet_refl].
  destruct (negb (String.eqb chunk_path "") && path_exists w chunk_path); [|apply quiet_refl].
  unfold setitem. cbn beta iota zeta.
  destruct (write_fails w chunk_path); cbn.
  - eexists. split; reflexivity.
  - by apply quiet_same_trace.
Qed.

Lemma mark_chunks_quiet folder_name failed_set paths pushed_at unpushed w :
  quiet w (mark_chunks folder_name failed_set paths pushed_at unpushed w).2.
Proof.
  revert w. induction unpushed as [|l ls IH]; intros w; [apply quiet_refl|].
  cbn [mark_chunks]. unfold bind.
  pose proof (mark_chunk_quiet folder_name failed_set paths pushed_at l w) as Hq.
  destruct (mark_chunk _ _ _ _ _ _) as [[[]|e] w1]; cbn in Hq; [|done].
  eapply quiet_trans; [exact Hq|apply IH].
Qed.

(** A chunk the report lists as failed is left as it is. *)
Lemma mark_chunk_reported_failed folder_name failed_set paths pushed_at chunk_data w idx :
  format_02d (dict_get (deref w chunk_data) "chunk_index" PNone) = Ok idx →
  folder_name +:+ "/chunk_" +:+ idx +:+ ".json" ∈ failed_set →
  mark_chunk folder_name failed_set paths pushed_at chunk_data w = (Ok tt, w).
Proof.
  intros Hidx Hin. unfold mark_chunk, bind, read, lift. cbn beta iota zeta.
  rewrite Hidx. by rewrite bool_decide_eq_true_2.
Qed.

(** A chunk the report does not list as failed gets the marker, in its
    dict and in its file. *)
Lemma mark_chunk_writes_marker folder_name failed_set paths pushed_at chunk_data w idx path :
  format_02d (dict_get (deref w chunk_data) "chunk_index" PNone) = Ok idx →
  folder_name +:+ "/chunk_" +:+ idx +:+ ".json" ∉ failed_set →
  key_get paths (dict_get (deref w chunk_data) "chunk_index" PNone) = Some path →
  path ≠ "" →
  path_exists w path = true →
  write_fails w path = false →
  (chunk_data < length (store w))%nat →
  let d' := <["pushed_to_hf" := PStr pushed_at]> (deref w chunk_data) in
  mark_chunk folder_name failed_set paths pushed_at chunk_data w
  = (Ok tt, with_files (with_store w (<[chunk_data := d']> (store w)))
                       (<[path := JsonObject d']> (files w))).
Proof.
  intros Hidx Hnin Hpath Hne Hex Hwf Hl d'.
  unfold mark_chunk, bind, read, lift. cbn beta iota zeta.
  rewrite Hidx, bool_decide_eq_false_2, Hpath by done.
  apply String.eqb_neq in Hne. rewrite Hne, Hex. cbn [negb andb].
  unfold setitem, write_json. cbn beta iota zeta.
  cbn [write_fails with_store]. rewrite Hwf. cbn beta iota zeta.
  rewrite path_exists_with_store, Hex.
  unfold with_files, with_store, deref. cbn.
  rewrite list_lookup_insert_eq by done. done.
Qed.

(* ===================================================================== *)
(** ** Pushing a chunk folder *)
(* ===================================================================== *)

Lemma sends_only_quiet folder_name ds evs :
  commits_of evs = [] → sends_only folder_name ds evs.
Proof. unfold sends_only. intros ->. constructor. Qed.

Lemma get_tallies result chunks self folder_name repo batch_size w :
  (upload_chunks_batch self folder_name chunks repo batch_size w).1 = Ok result →
  (get_uploaded_count result + get_failed_count result ≤ length chunks)%nat.
Proof.
  destruct result as [err|r]; cbn; [lia|].
  intros H%upload_chunks_batch_tally. lia.
Qed.

(** A folder that is pushed, stage by stage: read, upload, mark. *)
Lemma push_chunk_folder_run
    hf_service repo target_filename approved_chunked_dir folder_name results w listing c w1 :
  dirs w !! path_join approved_chunked_dir folder_name = Some listing →
  filtered_out target_filename folder_name = false →
  collect_chunks (path_join approved_chunked_dir folder_name) listing
    {| unpushed_chunks := []; chunk_file_paths := []; collected_results := results |} w
  = (Ok c, w1) →
  push_chunk_folder hf_service repo target_filename approved_chunked_dir folder_name results w
  = match unpushed_chunks c with
    | [] => (Ok (collected_results c), w1)
    | _ :: _ =>
        match upload_chunks_batch hf_service folder_name (unpushed_chunks c) repo 50 w1 with
        | (Ok result, w2) =>
            match mark_chunks folder_name (get_failed_chunks result) (chunk_file_paths c)
                    (clock w2 (trace w2) +:+ "Z") (unpushed_chunks c) w2 with
            | (Ok _, w3) =>
                (Ok (add_batch_result folder_name (collected_results c) result), w3)
            | (Raise e, w3) => (Raise e, w3)
            end
        | (Raise e, w2) => (Raise e, w2)
        end
    end.
Proof.
  intros Hdir Hfilter Hrun. unfold push_chunk_folder. rewrite Hdir, Hfilter.
  unfold bind at 1. rewrite Hrun.
  destruct (unpushed_chunks c) as [|l ls]; [done|].
  unfold bind at 1. destruct (upload_chunks_batch _ _ _ _ _ _) as [[result|e] w2]; [|done].
  unfold bind at 1, utcnow_isoformat at 1. unfold bind at 1.
  by destruct (mark_chunks _ _ _ _ _ _) as [[[]|e] w3].
Qed.

(** C7. In the chunked section of [push_to_huggingface], for every
    folder that is pushed (a record carries the marker when its
    [pushed_to_hf] entry is truthy, which every timestamp written by the
    push is): a commit carries only operations built from
    records of the folder that have no [pushed_to_hf] marker, so a record
    that already carries the marker is left out before batching and is
    never sent; each such record adds one to [skipped], and what the
    folder adds to [uploaded] and [failed] is bounded by the entries that
    could not be read and the unmarked records; and when every record of
    the folder carries the marker (as after a push whose successes were
    marked) pushing again makes no commit and uploads nothing. *)
Theorem marked_chunks_are_skipped_and_never_sent
    hf_service repo target_filename approved_chunked_dir folder_name results w listing :
  dirs w !! path_join approved_chunked_dir folder_name = Some listing →
  filtered_out target_filename folder_name = false →
  let folder_path := path_join approved_chunked_dir folder_name in
  let unmarked := unmarked_records (files w) folder_path listing in
  let run := push_chunk_folder hf_service repo target_filename approved_chunked_dir
               folder_name results w in
  (∀ d, d ∈ unmarked ↔
        ∃ chunk_file, chunk_file ∈ listing
                      ∧ endswith chunk_file ".json" = true
                      ∧ files w !! path_join folder_path chunk_file = Some (JsonObject d)
                      ∧ truthy (dict_get d "pushed_to_hf" PNone) = false)
  ∧ ∃ evs,
      trace run.2 = trace w ++ evs
      ∧ sends_only folder_name unmarked evs
      ∧ (∀ r, run.1 = Ok r →
           Results.skipped r
           = (Results.skipped results + marked_count (files w) folder_path listing)%nat
           ∧ (Results.uploaded r + Results.failed r
              ≤ Results.uploaded results + Results.failed results
                + read_failures (files w) folder_path listing + length unmarked)%nat)
      ∧ (unmarked = [] →
         commits_of evs = []
         ∧ ∀ r, run.1 = Ok r → Results.uploaded r = Results.uploaded results).
Proof.
  intros Hdir Hfilter folder_path unmarked run.
  split; [intros d; apply unmarked_records_spec|].
  destruct (collect_chunks_spec folder_path listing
              {| unpushed_chunks := []; chunk_file_paths := []; collected_results := results |}
              w (Forall_nil_2 _))
    as (c & w1 & Hrun & Hd & (evs1 & Ht1 & Hc1) & Hg & Hv & Hm & Hs & Hf & Hu & _).
  cbn [unpushed_chunks collected_results map app] in Hm, Hs, Hf, Hu.
  fold unmarked in Hm.
  assert (length (unpushed_chunks c) = length unmarked) as Hlen
    by (by rewrite <- Hm, length_map).
  pose proof (push_chunk_folder_run hf_service repo target_filename approved_chunked_dir
                folder_name results w listing c w1 Hdir Hfilter Hrun) as Hr.
  fold run in Hr. clearbody run.
  destruct (unpushed_chunks c) as [|l ls] eqn:Hun.
  - (* nothing left to push *)
    subst run. cbn. exists evs1. split; [done|]. split; [by apply sends_only_quiet|].
    split.
    + intros r [= <-]. split; [done|]. lia.
    + intros _. split; [done|]. by intros r [= <-].
  - assert (unmarked ≠ []) as Hne by (intros E; by rewrite E in Hlen).
    cbv iota in Hr. rewrite <- Hun in Hr, Hm, Hv, Hlen. clear Hun.
    destruct (upload_chunks_batch_frame hf_service folder_name (unpushed_chunks c) repo 50 w1)
      as (evs2 & Hw2).
    pose proof (upload_chunks_batch_sends _ _ _ _ _ _ _ Hw2) as Hsend. rewrite Hm in Hsend.
    pose proof (λ result, get_tallies result (unpushed_chunks c) hf_service folder_name
                            repo 50 w1) as Htally.
    destruct (upload_chunks_batch hf_service folder_name (unpushed_chunks c) repo 50 w1)
      as [[result|e] w2]; cbn [fst snd] in Hw2, Htally; subst w2.
    + specialize (Htally result eq_refl).
      match type of Hr with
      | context [mark_chunks ?a ?b ?p ?q ?r ?x] =>
          destruct (mark_chunks_quiet a b p q r x) as (evs3 & Ht3 & Hc3);
          destruct (mark_chunks a b p q r x) as [[[]|e] w3]
      end; cbn [fst snd] in Ht3; subst run; cbn [fst snd].
      all: exists (evs1 ++ evs2 ++ evs3).
      all: split; [rewrite Ht3; cbn [trace after with_trace]; by rewrite Ht1, <- !app_assoc|].
      all: split; [unfold sends_only; rewrite !commits_of_app, Hc1, Hc3, app_nil_r; exact Hsend|].
      all: split; [|by intros E].
      * intros r [= <-]. cbn. split; [done|]. rewrite Hu, Hf. lia.
      * by intros r.
    + subst run. cbn. exists (evs1 ++ evs2).
      split; [by rewrite Ht1, <- app_assoc|].
      split; [unfold sends_only; rewrite commits_of_app, Hc1; exact Hsend|].
      split; [by intros r|by intros E].
Qed.

(** A folder of three records, one marked: the first push sends the two
    others in one commit and marks them; a second push of the folder
    sends nothing and skips all three. *)
Lemma second_push_of_a_pushed_folder_sends_nothing :
  map (λ c, map path_in_repo (operations c.1)) (commits_of (trace demo_disk_pushed))
  = [["doc/chunk_01.json"; "doc/chunk_03.json"]]
  ∧ ∃ evs,
      trace (push_chunk_folder demo_service None None demo_dir "doc" Results.empty
               demo_disk_pushed).2
      = trace demo_disk_pushed ++ evs
      ∧ commits_of evs = []
      ∧ ∀ r, (push_chunk_folder demo_service None None demo_dir "doc" Results.empty
                demo_disk_pushed).1 = Ok r →
             Results.uploaded r = 0%nat ∧ Results.skipped r = 3%nat.
Proof.
  split; [vm_compute; reflexivity|].
  destruct (marked_chunks_are_skipped_and_never_sent demo_service None None demo_dir "doc"
              Results.empty demo_disk_pushed demo_listing)
    as (_ & evs & Ht & _ & Hcount & Hnone).
  - vm_compute. reflexivity.
  - reflexivity.
  - exists evs. split; [exact Ht|].
    assert (unmarked_records (files demo_disk_pushed) (path_join demo_dir "doc")
              demo_listing = []) as Hall
      by (vm_compute; reflexivity).
    destruct (Hnone Hall) as (Hc & Hup). split; [exact Hc|].
    intros r Hr. split; [exact (Hup r Hr)|].
    destruct (Hcount r Hr) as (Hsk & _). rewrite Hsk. vm_compute. reflexivity.
Defined.

(* ===================================================================== *)
(** ** Who writes what *)
(* ===================================================================== *)

(** C9. [upload_chunks_batch] leaves the local files, the directories and
    every dict of the heap (so the chunk dicts it is given) as they were:
    all it does to the world is append commit attempts, sleeps and log
    records to the trace.  The [pushed_to_hf] marker is written by
    [push_to_huggingface]: the folder's files after a push are those its
    marking loop leaves, run on the files as they were before the upload
    and driven by the [failed_chunks] of the report; the loop leaves a
    chunk listed there alone and gives any other chunk the marker, in its
    dict and in its file. *)
Theorem upload_leaves_disk_and_chunks_alone_and_the_caller_marks :
  (∀ self folder_name chunks repo batch_size w,
     let run := upload_chunks_batch self folder_name chunks repo batch_size w in
     files run.2 = files w ∧ dirs run.2 = dirs w ∧ store run.2 = store w
     ∧ (∀ l, deref run.2 l = deref w l)
     ∧ ∃ evs, trace run.2 = trace w ++ evs)
  ∧ (∀ hf_service repo target_filename approved_chunked_dir folder_name results w
       listing c w1 result w2,
       dirs w !! path_join approved_chunked_dir folder_name = Some listing →
       filtered_out target_filename folder_name = false →
       collect_chunks (path_join approved_chunked_dir folder_name) listing
         {| unpushed_chunks := []; chunk_file_paths := []; collected_results := results |} w
       = (Ok c, w1) →
       unpushed_chunks c ≠ [] →
       upload_chunks_batch hf_service folder_name (unpushed_chunks c) repo 50 w1
       = (Ok result, w2) →
       files w2 = files w
       ∧ (push_chunk_folder hf_service repo target_filename approved_chunked_dir
            folder_name results w).2
         = (mark_chunks folder_name (get_failed_chunks result) (chunk_file_paths c)
              (clock w2 (trace w2) +:+ "Z") (unpushed_chunks c) w2).2)
  ∧ (∀ folder_name failed_set paths pushed_at chunk_data w idx,
       format_02d (dict_get (deref w chunk_data) "chunk_index" PNone) = Ok idx →
       folder_name +:+ "/chunk_" +:+ idx +:+ ".json" ∈ failed_set →
       mark_chunk folder_name failed_set paths pushed_at chunk_data w = (Ok tt, w))
  ∧ (∀ folder_name failed_set paths pushed_at chunk_data w idx path,
       format_02d (dict_get (deref w chunk_data) "chunk_index" PNone) = Ok idx →
       folder_name +:+ "/chunk_" +:+ idx +:+ ".json" ∉ failed_set →
       key_get paths (dict_get (deref w chunk_data) "chunk_index" PNone) = Some path →
       path ≠ "" →
       path_exists w path = true →
       write_fails w path = false →
       (chunk_data < length (store w))%nat →
       let d' := <["pushed_to_hf" := PStr pushed_at]> (deref w chunk_data) in
       let run := mark_chunk folder_name failed_set paths pushed_at chunk_data w in
       run.1 = Ok tt
       ∧ files run.2 = <[path := JsonObject d']> (files w)
       ∧ deref run.2 chunk_data = d').
Proof.
  split; [|split; [|split]].
  - intros self folder_name chunks repo batch_size w run.
    destruct (upload_chunks_batch_frame self folder_name chunks repo batch_size w)
      as (evs & Hw).
    fold run in Hw. rewrite Hw. repeat split; eauto.
  - intros hf_service repo target_filename approved_chunked_dir folder_name results w
      listing c w1 result w2 Hdir Hfilter Hrun Hne Hup.
    destruct (collect_chunks_spec (path_join approved_chunked_dir folder_name) listing
                {| unpushed_chunks := []; chunk_file_paths := []; collected_results := results |}
                w (Forall_nil_2 _))
      as (c' & w1' & Hrun' & (_ & _ & _ & Hfiles & _) & _).
    rewrite Hrun in Hrun'. injection Hrun' as <- <-.
    destruct (upload_chunks_batch_frame hf_service folder_name (unpushed_chunks c) repo 50 w1)
      as (evs & Hw).
    rewrite Hup in Hw. cbn in Hw. split; [by rewrite Hw|].
    rewrite (push_chunk_folder_run _ _ _ _ _ _ _ _ _ _ Hdir Hfilter Hrun).
    destruct (unpushed_chunks c) as [|l ls] eqn:Hun; [done|].
    rewrite Hup. by destruct (mark_chunks _ _ _ _ _ _) as [[[]|e] w3].
  - apply mark_chunk_reported_failed.
  - intros folder_name failed_set paths pushed_at chunk_data w idx path
      Hidx Hnin Hpath Hne Hex Hwf Hl d' run.
    subst run. rewrite (mark_chunk_writes_marker _ _ _ _ _ _ _ _ Hidx Hnin Hpath Hne Hex Hwf Hl).
    cbn. split; [done|]. split; [done|].
    unfold deref. cbn. by rewrite list_lookup_insert_eq.
Qed.

(** The marking loop on one chunk: marked when the report lists no
    failure, left alone when the report lists it. *)
Lemma marking_of_an_uploaded_and_of_a_failed_chunk :
  let path := "data/approved/chunked/doc/chunk_01.json" in
  let paths := [(PInt 1, path)] in
  let pushed_at := "2026-01-01T00:00:00Z" in
  files (mark_chunk "doc" [] paths pushed_at 0%nat marking_world).2 !! path
  = Some (JsonObject (<["pushed_to_hf" := PStr pushed_at]> (chunk_record 1)))
  ∧ mark_chunk "doc" ["doc/chunk_01.json"] paths pushed_at 0%nat marking_world
    = (Ok tt, marking_world)
  ∧ files demo_upload.2 = files demo_disk
  ∧ files (push_chunk_folder demo_service None None demo_dir "doc" Results.empty
             demo_disk).2 !! path
    = Some (JsonObject (<["pushed_to_hf" := PStr pushed_at]> (chunk_record 1))).
Proof.
  cbv zeta.
  destruct upload_leaves_disk_and_chunks_alone_and_the_caller_marks
    as (_ & Hcaller & Hfailed & Hmark).
  split; [|split].
  - destruct (Hmark "doc" [] [(PInt 1, "data/approved/chunked/doc/chunk_01.json")]
                "2026-01-01T00:00:00Z" 0%nat marking_world "01"
                "data/approved/chunked/doc/chunk_01.json") as (_ & Hfiles & _).
    + reflexivity.
    + apply not_elem_of_nil.
    + reflexivity.
    + discriminate.
    + vm_compute. reflexivity.
    + reflexivity.
    + cbn. lia.
    + rewrite Hfiles. vm_compute. reflexivity.
  - apply (Hfailed "doc" ["doc/chunk_01.json"] _ _ 0%nat marking_world "01").
    + reflexivity.
    + left.
  - destruct (Hcaller demo_service None None demo_dir "doc" Results.empty demo_disk
                demo_listing demo_collected demo_read.2 demo_result demo_upload.2)
      as (Hfiles & Hpush).
    + vm_compute. reflexivity.
    + reflexivity.
    + vm_compute. reflexivity.
    + vm_compute. discriminate.
    + vm_compute. reflexivity.
    + split; [exact Hfiles|]. rewrite Hpush. vm_compute. reflexivity.
Defined.

(* ===================================================================== *)
(** ** Where the tallies do add up *)
(* ===================================================================== *)

Lemma indexed_names folder_name ds :
  Forall (λ d, indexed d = true) ds →
  ∃ names, failed_names_of folder_name ds = Ok names.
Proof.
  induction 1 as [|d ds Hd _ (names & IHn)]; cbn.
  - by eexists.
  - unfold failed_chunk_name, dict_get. unfold indexed in Hd.
    rewrite IHn.
    destruct (d !! "chunk_index") as [[]|]; try done; cbn; by eexists.
Qed.

Lemma slice_Forall {A} (P : A → Prop) (f : loc → A) chunks batch_start batch_size :
  Forall (λ l, P (f l)) chunks →
  Forall P (map f (slice chunks batch_start batch_size)).
Proof. intros H. apply Forall_map. unfold slice. by apply Forall_take, Forall_drop. Qed.

Lemma retries_before_last e attempt :
  (attempt < MAX_RETRIES)%nat → retries e attempt = true.
Proof.
  intros H%Nat.ltb_lt. destruct e; cbn [retries]; rewrite H; by rewrite ?orb_true_r.
Qed.

Lemma retries_at_last e :
  is_rate_limit e = false → retries e MAX_RETRIES = false.
Proof. destruct e; cbn [retries is_rate_limit]; intros H; by rewrite ?H. Qed.

(** Without a 429 on its last attempt a batch is settled one way or the
    other. *)
Lemma retry_loop_settles target_repo folder_name batch_start batch ops u f w names :
  never_rate_limited w →
  failed_names_of folder_name (map (deref w) batch) = Ok names →
  let run := retry_loop target_repo folder_name batch_start batch ops
               (seq 1 MAX_RETRIES) u f w in
  run.1 = Ok ((u + length batch)%nat, f) ∨ run.1 = Ok (u, f ++ names).
Proof.
  intros Hhub Hnames run. subst run.
  change (seq 1 MAX_RETRIES) with [1; 2; 3]%nat.
  rewrite retry_loop_step. destruct (hub w (trace w) _) as [|e1]; [by left|].
  rewrite retries_before_last by (unfold MAX_RETRIES; lia).
  rewrite retry_loop_step. cbn [hub after with_trace].
  destruct (hub w _ _) as [|e2]; [by left|].
  rewrite retries_before_last by (unfold MAX_RETRIES; lia).
  rewrite retry_loop_step. cbn [hub after with_trace].
  destruct (hub w _ _) as [|e3] eqn:H3; [by left|].
  change 3%nat with MAX_RETRIES. rewrite retries_at_last by (by eapply Hhub).
  change (deref (after _ _)) with (deref w). change (deref (with_trace _ _)) with (deref w).
  rewrite Hnames. by right.
Qed.

Lemma upload_batches_settle target_repo folder_name chunks batch_size starts u f w :
  never_rate_limited w →
  Forall (λ l, indexed (deref w l) = true) chunks →
  Forall (λ l, sendable folder_name (deref w l) = true) chunks →
  ∃ u' f',
    (upload_batches target_repo folder_name chunks batch_size starts u f w).1 = Ok (u', f')
    ∧ (u' + length f'
       = u + length f + sum_list (map (λ s, length (slice chunks s batch_size)) starts))%nat.
Proof.
  intros Hhub Hidx Hsend. revert u f w Hhub Hidx Hsend.
  induction starts as [|s starts IH]; intros u f w Hhub Hidx Hsend.
  - exists u, f. cbn. split; [done|lia].
  - rewrite upload_batches_cons, upload_one_batch_run.
    destruct (indexed_names folder_name _
                (slice_Forall (λ d, indexed d = true) (deref w) chunks s batch_size Hidx))
      as (names & Hnames).
    destruct (operations_of_sendable folder_name _
                (slice_Forall (λ d, sendable folder_name d = true) (deref w) chunks s
                   batch_size Hsend)) as (ops & Hops & _).
    rewrite Hops.
    pose proof (retry_loop_settles target_repo folder_name s (slice chunks s batch_size)
                  ops u f w names Hhub Hnames) as Hsettle. cbv zeta in Hsettle.
    destruct (retry_loop_shape target_repo folder_name s (slice chunks s batch_size) ops
                (seq 1 MAX_RETRIES) u f w) as (evs & Hw & _).
    destruct (retry_loop _ _ _ _ _ _ _ _ _) as [r w1]. cbn in Hw, Hsettle. subst w1.
    assert (∃ u1 f1, r = Ok (u1, f1)
                     ∧ (u1 + length f1
                        = u + length f + length (slice chunks s batch_size))%nat)
      as (u1 & f1 & -> & Hsum).
    { destruct Hsettle as [->| ->]; eexists _, _; (split; [done|]).
      - lia.
      - apply failed_names_of_length in Hnames.
        rewrite length_map in Hnames. rewrite length_app. lia. }
    destruct (IH u1 f1 (after w evs) Hhub Hidx Hsend) as (u' & f' & Hrun & Hsum').
    exists u', f'. split; [exact Hrun|]. cbn [map sum_list_with]. unfold id at 1. lia.
Qed.

(** X4. With a positive batch size, records that all have an integer
    [chunk_index] and whose operations can all be built (the record can
    be encoded and the hub client accepts its path), and a hub that never
    answers 429, the call returns its report and every chunk is counted
    once, as uploaded or as failed. *)
Lemma tallies_add_up_without_rate_limit self folder_name chunks repo batch_size w :
  is_configured self = true →
  0 < batch_size →
  never_rate_limited w →
  Forall (λ l, indexed (deref w l) = true) chunks →
  Forall (λ l, sendable folder_name (deref w l) = true) chunks →
  ∃ r, (upload_chunks_batch self folder_name chunks repo batch_size w).1 = Ok (Report r)
       ∧ (uploaded_count r + length (failed_chunks r))%nat = length chunks.
Proof.
  intros Hc Hpos Hhub Hidx Hsend. rewrite upload_chunks_batch_run by done. unfold py_range.
  destruct (Z.eqb_spec batch_size 0) as [|_]; [lia|].
  destruct (Z.ltb_spec batch_size 0) as [|_]; [lia|].
  destruct (upload_batches_settle (or_default repo (chunked_repo self)) folder_name chunks
              (Z.to_nat batch_size)
              (range_loop (length chunks) 0 (length chunks) (Z.to_nat batch_size))
              0%nat [] w Hhub Hidx Hsend) as (u & f & Hrun & Hsum).
  destruct (upload_batches _ _ _ _ _ _ _ _) as [r w1]. cbn in Hrun. subst r.
  eexists. split; [reflexivity|]. cbn. cbn in Hsum. rewrite Hsum.
  change (map (λ s, length (slice chunks s (Z.to_nat batch_size))) ?l)
    with (map (length ∘ (λ s, slice chunks s (Z.to_nat batch_size))) l).
  rewrite <- (map_map (λ s, slice chunks s (Z.to_nat batch_size)) length).
  fold (batches_of chunks (Z.to_nat batch_size)).
  rewrite sum_list_concat_length, batches_of_concat by lia. done.
Qed.

Lemma upload_batches_return target_repo folder_name chunks batch_size starts u f w :
  Forall (λ l, indexed (deref w l) = true) chunks →
  Forall (λ l, sendable folder_name (deref w l) = true) chunks →
  is_ok (upload_batches target_repo folder_name chunks batch_size starts u f w).1 = true.
Proof.
  intros Hidx Hsend. revert u f w Hidx Hsend.
  induction starts as [|s starts IH]; intros u f w Hidx Hsend; [done|].
  rewrite upload_batches_cons, upload_one_batch_run.
  destruct (indexed_names folder_name _
              (slice_Forall (λ d, indexed d = true) (deref w) chunks s batch_size Hidx))
    as (names & Hnames).
  destruct (operations_of_sendable folder_name _
              (slice_Forall (λ d, sendable folder_name d = true) (deref w) chunks s
                 batch_size Hsend)) as (ops & Hops & _).
  rewrite Hops.
  pose proof (retry_loop_result target_repo folder_name s (slice chunks s batch_size) ops
                (seq 1 MAX_RETRIES) u f w) as Hres.
  destruct (retry_loop_shape target_repo folder_name s (slice chunks s batch_size) ops
              (seq 1 MAX_RETRIES) u f w) as (evs & Hw & _).
  destruct (retry_loop _ _ _ _ _ _ _ _ _) as [[r|e] w1]; cbn in Hw, Hres; subst w1.
  - by apply IH.
  - congruence.
Qed.

(** X5. With a batch size other than zero and records that all have an
    integer [chunk_index] and whose operations can all be built (the
    record can be encoded and the hub client accepts its path), whatever
    the hub raises is caught: the call returns its report. *)
Lemma call_returns_for_indexed_chunks self folder_name chunks repo batch_size w :
  is_configured self = true →
  batch_size ≠ 0 →
  Forall (λ l, indexed (deref w l) = true) chunks →
  Forall (λ l, sendable folder_name (deref w l) = true) chunks →
  ∃ r, (upload_chunks_batch self folder_name chunks repo batch_size w).1 = Ok (Report r).
Proof.
  intros Hc Hnz Hidx Hsend. rewrite upload_chunks_batch_run by done. unfold py_range.
  destruct (Z.eqb_spec batch_size 0) as [|_]; [done|].
  destruct (batch_size <? 0).
  all: match goal with
       | |- context [upload_batches ?a ?b ?c ?d ?e ?g ?h ?i] =>
           pose proof (upload_batches_return a b c d e g h i Hidx Hsend) as Hok;
           destruct (upload_batches a b c d e g h i) as [[r|x] w1]; [|done]
       end.
  all: by eexists.
Qed.

(* ===================================================================== *)
(** ** What the dropped batch costs the caller *)
(* ===================================================================== *)

(** The marking loop of [push_to_huggingface] marks every chunk that the
    report does not list as failed.  A batch dropped after a 429 on its
    last attempt is not listed: its chunks were never committed, the push
    counts nothing uploaded and nothing failed, and their files get the
    [pushed_to_hf] marker all the same, so that later pushes skip them. *)
Lemma dropped_chunks_are_marked_as_pushed :
  let run := push_to_huggingface_chunked demo_service None None demo_dir
               demo_disk_rate_limited in
  Forall (λ c, c.2 = Raised rate_limited) (commits_of (trace run.2))
  ∧ (∃ r, run.1 = Ok r ∧ Results.uploaded r = 0%nat ∧ Results.failed r = 0%nat)
  ∧ unmarked_records (files run.2) (path_join demo_dir "doc") demo_listing = [].
Proof.
  cbv zeta. split; [vm_compute; by repeat constructor|].
  split; [eexists; split; [vm_compute; reflexivity|done]|].
  vm_compute. reflexivity.
Qed.

(* ===================================================================== *)
(** ** What the hub accepted *)
(* ===================================================================== *)

Lemma accepted_requests_app t1 t2 :
  accepted_requests (t1 ++ t2) = accepted_requests t1 ++ accepted_requests t2.
Proof. induction t1 as [|[? []| |] t1 IH]; cbn; by rewrite ?IH. Qed.

Lemma total_sleep_app t1 t2 : total_sleep (t1 ++ t2) = total_sleep t1 + total_sleep t2.
Proof.
  unfold total_sleep. rewrite sleeps_of_app.
  induction (sleeps_of t1) as [|s l IH]; cbn; [done|]. rewrite IH. lia.
Qed.

Lemma operations_accepted_app t1 t2 :
  operations_accepted (t1 ++ t2) = (operations_accepted t1 + operations_accepted t2)%nat.
Proof.
  unfold operations_accepted. rewrite accepted_requests_app, map_app.
  induction (map _ (accepted_requests t1)) as [|x l IH]; cbn; [done|]. rewrite IH. lia.
Qed.

Lemma backoff_events_quiet batch_start len e attempt :
  accepted_requests (backoff_events batch_start len e attempt) = []
  ∧ total_sleep (backoff_events batch_start len e attempt) = 2 ^ Z.of_nat attempt.
Proof. destruct e; cbn; split; try done; lia. Qed.

(** How one batch ends: the hub's acceptance, if any, is its last event. *)
Lemma retry_loop_ends target_repo folder_name batch_start batch ops attempts u f w :
  ∃ evs,
    (retry_loop target_repo folder_name batch_start batch ops attempts u f w).2 = after w evs
    ∧ ((accepted_requests evs = []
        ∧ ∀ u' f', (retry_loop target_repo folder_name batch_start batch ops attempts u f w).1
                   = Ok (u', f') → u' = u)
       ∨ (∃ evs0,
            evs = evs0 ++ [EvCommit (batch_request target_repo folder_name batch_start batch ops)
                             Committed]
            ∧ accepted_requests evs0 = []
            ∧ (retry_loop target_repo folder_name batch_start batch ops attempts u f w).1
              = Ok ((u + length batch)%nat, f)))
    ∧ 0 ≤ total_sleep evs ≤ foldr Z.add 0 (map (λ a, 2 ^ Z.of_nat a) attempts).
Proof.
  revert w. induction attempts as [|attempt attempts IH]; intros w.
  - exists []. rewrite after_nil. split; [done|]. split; [|done].
    left. split; [done|]. cbn. by intros u' f' [= <- <-].
  - rewrite retry_loop_step.
    assert (0 ≤ foldr Z.add 0 (map (λ a, 2 ^ Z.of_nat a) attempts)) as Hpos.
    { clear. induction attempts as [|a l IH]; cbn; [done|].
      pose proof (Z.pow_nonneg 2 (Z.of_nat a)). lia. }
    pose proof (Z.pow_nonneg 2 (Z.of_nat attempt)) as Hp.
    destruct (hub w (trace w) _) as [|e].
    + eexists. split; [done|]. split.
      * right. exists []. done.
      * cbn. lia.
    + destruct (retries e attempt).
      * destruct (IH (after w (EvCommit (batch_request target_repo folder_name batch_start
                                           batch ops) (Raised e)
                               :: backoff_events batch_start (length batch) e attempt)))
          as (evs & Hw & Hend & Hsleep).
        destruct (backoff_events_quiet batch_start (length batch) e attempt) as (Hq & Hs).
        eexists. rewrite Hw, after_after. split; [done|]. split.
        -- destruct Hend as [(Ha & Hu)|(evs0 & -> & Ha & Hr)].
           ++ left. split; [|done]. cbn. by rewrite accepted_requests_app, Hq, Ha.
           ++ right. eexists (_ :: _ ++ evs0). split; [by rewrite app_comm_cons, <- app_assoc|].
              split; [|done]. cbn. by rewrite accepted_requests_app, Hq, Ha.
        -- change (EvCommit ?r ?o :: ?l) with ([EvCommit r o] ++ l).
           rewrite <- app_assoc, !total_sleep_app, Hs. cbn. lia.
      * destruct (failed_names_of _ _); cbn.
        -- eexists. split; [done|]. split.
           ++ left. split; [by destruct e|]. by intros u' f' [= <- <-].
           ++ destruct e; cbn; lia.
        -- eexists. split; [done|]. split; [|cbn; lia].
           left. split; [done|]. done.
Qed.

Lemma operations_of_length folder_name ds ops :
  operations_of folder_name ds = Ok ops → length ops = length ds.
Proof.
  revert ops. induction ds as [|d ds IH]; intros ops; cbn.
  - by intros [= <-].
  - destruct (chunk_operation folder_name d); [|done].
    destruct (operations_of folder_name ds) as [l|]; [|done].
    intros [= <-]. cbn. f_equal. by apply IH.
Qed.

Lemma upload_one_batch_ends target_repo folder_name chunks batch_size batch_start u f w :
  ∃ evs,
    (upload_one_batch target_repo folder_name chunks batch_size batch_start u f w).2
    = after w evs
    ∧ (accepted_requests evs = []
       ∨ ∃ evs0 req, evs = evs0 ++ [EvCommit req Committed] ∧ accepted_requests evs0 = [])
    ∧ (∀ u' f',
         (upload_one_batch target_repo folder_name chunks batch_size batch_start u f w).1
         = Ok (u', f') → u' = (u + operations_accepted evs)%nat)
    ∧ (length (accepted_requests evs) ≤ 1)%nat
    ∧ 0 ≤ total_sleep evs ≤ 14
    ∧ (length (commits_of evs) ≤ 3)%nat.
Proof.
  rewrite upload_one_batch_run.
  destruct (operations_of _ _) as [ops|e] eqn:Hops.
  - destruct (retry_loop_ends target_repo folder_name batch_start
                (slice chunks batch_start batch_size) ops (seq 1 MAX_RETRIES) u f w)
      as (evs & Hw & Hend & Hsleep).
    destruct (retry_loop_shape target_repo folder_name batch_start
                (slice chunks batch_start batch_size) ops (seq 1 MAX_RETRIES) u f w)
      as (evs' & Hw' & Hp).
    rewrite Hw in Hw'. apply after_inj in Hw'. subst evs'.
    apply backoff_schedule_prefix in Hp. destruct Hp as (Hc & _).
    rewrite <- commits_of_shape in Hc.
    apply operations_of_length in Hops. rewrite length_map in Hops.
    exists evs. split; [done|].
    destruct Hend as [(Ha & Hu)|(evs0 & -> & Ha & Hr)].
    + split; [by left|]. split.
      * intros u' f' Hr. unfold operations_accepted. rewrite Ha. cbn.
        rewrite (Hu _ _ Hr). lia.
      * rewrite Ha. cbn. split; [lia|]. split; [exact Hsleep|exact Hc].
    + split; [right; by eexists _, _|]. split.
      * intros u' f'. rewrite Hr. intros [= <- <-].
        unfold operations_accepted. rewrite accepted_requests_app, Ha. cbn. lia.
      * rewrite accepted_requests_app, Ha. cbn. split; [lia|]. split; [exact Hsleep|exact Hc].
  - exists []. rewrite after_nil. split; [done|]. split; [by left|].
    split; [done|]. cbn. split; [lia|]. split; [done|lia].
Qed.

Lemma upload_batches_ends target_repo folder_name chunks batch_size starts u f w :
  ∃ evs,
    (upload_batches target_repo folder_name chunks batch_size starts u f w).2 = after w evs
    ∧ (∀ u' f',
         (upload_batches target_repo folder_name chunks batch_size starts u f w).1
         = Ok (u', f') → u' = (u + operations_accepted evs)%nat)
    ∧ (length (accepted_requests evs) ≤ length starts)%nat
    ∧ 0 ≤ total_sleep evs ≤ 14 * Z.of_nat (length starts)
    ∧ (length (commits_of evs) ≤ 3 * length starts)%nat.
Proof.
  revert u f w. induction starts as [|s starts IH]; intros u f w.
  - exists []. rewrite after_nil. split; [done|]. split.
    + cbn. intros u' f' [= <- <-]. unfold operations_accepted. cbn. lia.
    + cbn. split; [lia|]. split; [done|lia].
  - rewrite upload_batches_cons.
    destruct (upload_one_batch_ends target_repo folder_name chunks batch_size s u f w)
      as (evs1 & Hw1 & _ & Hu1 & Ha1 & Hs1 & Hc1).
    destruct (upload_one_batch _ _ _ _ _ _ _ _) as [[[u1 f1]|e] w1]; cbn in Hw1; subst w1.
    + cbn [fst snd].
      destruct (IH u1 f1 (after w evs1)) as (evs2 & Hw2 & Hu2 & Ha2 & Hs2 & Hc2).
      exists (evs1 ++ evs2). rewrite Hw2, after_after. split; [done|].
      rewrite operations_accepted_app, accepted_requests_app, total_sleep_app,
        commits_of_app, !length_app.
      split.
      * intros u' f' Hr. cbn [fst snd] in *. rewrite (Hu2 _ _ Hr), (Hu1 _ _ eq_refl). lia.
      * cbn [length]. split; [lia|]. split; lia.
    + exists evs1. split; [done|]. split; [done|]. cbn [length]. split; [lia|]. split; lia.
Qed.

(** X1. The [uploaded_count] of a report of [upload_chunks_batch] is the
    number of files the hub accepted during the call: the operations of
    the commits it answered without raising, whatever it raised in
    between. *)
Theorem report_counts_the_files_the_hub_accepted
    self folder_name chunks repo batch_size w r :
  (upload_chunks_batch self folder_name chunks repo batch_size w).1 = Ok (Report r) →
  ∃ evs,
    (upload_chunks_batch self folder_name chunks repo batch_size w).2 = after w evs
    ∧ uploaded_count r = operations_accepted evs.
Proof.
  destruct (is_configured self) eqn:Hc.
  2: { by rewrite upload_chunks_batch_unconfigured. }
  rewrite upload_chunks_batch_run by done.
  destruct (py_range _ _) as [starts|e]; [|done].
  destruct (upload_batches_ends (or_default repo (chunked_repo self)) folder_name chunks
              (Z.to_nat batch_size) starts 0%nat [] w) as (evs & Hw & Hu & _).
  destruct (upload_batches _ _ _ _ _ _ _ _) as [[[u f]|e] w1]; [|done].
  cbn in Hw. subst w1. intros [= <-]. exists evs. split; [done|]. cbn.
  by rewrite (Hu _ _ eq_refl).
Qed.

(** Three chunks in batches of two, the first commit failing with a
    server error: both batches are accepted in the end, three files. *)
Lemma three_chunks_after_one_server_error :
  ∃ evs,
    retried_run.2 = after retried_world evs
    ∧ uploaded_count (report_of retried_run) = operations_accepted evs
    ∧ uploaded_count (report_of retried_run) = 3%nat.
Proof.
  destruct (report_counts_the_files_the_hub_accepted demo_service "doc" (seq 0 3) None 2
              retried_world (report_of retried_run)) as (evs & Hw & Hu).
  - vm_compute. reflexivity.
  - exists evs. split; [exact Hw|]. split; [exact Hu|]. vm_compute. reflexivity.
Defined.

(** X2. A batch that the hub has accepted is not sent again: in the
    events of a batch the accepted commit, when there is one, is the last
    event; and a call with a positive [batch_size] has at most
    ceil(m / batch_size) accepted commits, one per batch. *)
Theorem an_accepted_batch_is_never_sent_again :
  (∀ target_repo folder_name chunks batch_size batch_start u f w,
     ∃ evs,
       (upload_one_batch target_repo folder_name chunks batch_size batch_start u f w).2
       = after w evs
       ∧ (accepted_requests evs = []
          ∨ ∃ evs0 req, evs = evs0 ++ [EvCommit req Committed]
                        ∧ accepted_requests evs0 = []))
  ∧ (∀ self folder_name chunks repo batch_size w,
       0 < batch_size →
       ∃ evs,
         (upload_chunks_batch self folder_name chunks repo batch_size w).2 = after w evs
         ∧ (length (accepted_requests evs)
            ≤ ceil_div (length chunks) (Z.to_nat batch_size))%nat).
Proof.
  split.
  - intros. destruct (upload_one_batch_ends target_repo folder_name chunks batch_size
                        batch_start u f w) as (evs & Hw & Hend & _).
    by exists evs.
  - intros self folder_name chunks repo batch_size w Hpos.
    destruct (is_configured self) eqn:Hc.
    2: { rewrite upload_chunks_batch_unconfigured by done.
         exists []. rewrite after_nil. split; [done|]. cbn. lia. }
    rewrite upload_chunks_batch_run by done. unfold py_range.
    destruct (Z.eqb_spec batch_size 0) as [|_]; [lia|].
    destruct (Z.ltb_spec batch_size 0) as [|_]; [lia|].
    destruct (upload_batches_ends (or_default repo (chunked_repo self)) folder_name chunks
                (Z.to_nat batch_size)
                (range_loop (length chunks) 0 (length chunks) (Z.to_nat batch_size))
                0%nat [] w) as (evs & Hw & _ & Ha & _).
    rewrite range_loop_length in Ha by lia. rewrite Nat.sub_0_r in Ha.
    exists evs. split; [|done].
    by destruct (upload_batches _ _ _ _ _ _ _ _) as [[r|e] w1].
Qed.

(** X3. With a positive [batch_size] a call of [upload_chunks_batch]
    sleeps at most 14 seconds (2 + 4 + 8) per batch and makes at most
    three commit attempts per batch, whatever the hub answers. *)
Theorem backoff_time_and_attempts_are_bounded_by_the_batches
    self folder_name chunks repo batch_size w :
  0 < batch_size →
  ∃ evs,
    (upload_chunks_batch self folder_name chunks repo batch_size w).2 = after w evs
    ∧ 0 ≤ total_sleep evs
      ≤ 14 * Z.of_nat (ceil_div (length chunks) (Z.to_nat batch_size))
    ∧ (length (commits_of evs)
       ≤ 3 * ceil_div (length chunks) (Z.to_nat batch_size))%nat.
Proof.
  intros Hpos.
  destruct (is_configured self) eqn:Hc.
  2: { rewrite upload_chunks_batch_unconfigured by done.
       exists []. rewrite after_nil. split; [done|]. cbn. split; lia. }
  rewrite upload_chunks_batch_run by done. unfold py_range.
  destruct (Z.eqb_spec batch_size 0) as [|_]; [lia|].
  destruct (Z.ltb_spec batch_size 0) as [|_]; [lia|].
  destruct (upload_batches_ends (or_default repo (chunked_repo self)) folder_name chunks
              (Z.to_nat batch_size)
              (range_loop (length chunks) 0 (length chunks) (Z.to_nat batch_size))
              0%nat [] w) as (evs & Hw & _ & _ & Hs & Hcm).
  rewrite range_loop_length in Hs, Hcm by lia. rewrite Nat.sub_0_r in Hs, Hcm.
  exists evs. split; [|done].
  by destruct (upload_batches _ _ _ _ _ _ _ _) as [[r|e] w1].
Qed.

(** Three chunks in two batches: at most 28 seconds of sleep and six
    commit attempts. *)
Lemma backoff_of_three_chunks_in_two_batches :
  ∃ evs,
    retried_run.2 = after retried_world evs
    ∧ 0 ≤ total_sleep evs ≤ 28
    ∧ (length (commits_of evs) ≤ 6)%nat.
Proof.
  destruct (backoff_time_and_attempts_are_bounded_by_the_batches demo_service "doc"
              (seq 0 3) None 2 retried_world) as (evs & Hw & Hs & Hc).
  - lia.
  - change (ceil_div (length (seq 0 3)) (Z.to_nat 2)) with 2%nat in Hs, Hc.
    exists evs. split; [exact Hw|]. split; lia.
Defined.

(** X6. A [batch_size] that is not positive.  With 0 the [range] of the
    batch loop raises [ValueError] and the call ends before anything is
    sent.  With a negative one the range is empty: nothing is sent and
    the report says [success] with 0 uploaded and nothing failed, however
    many chunks were given. *)
Theorem a_batch_size_that_is_not_positive_uploads_nothing
    self folder_name chunks repo batch_size w :
  is_configured self = true →
  (batch_size = 0 →
   upload_chunks_batch self folder_name chunks repo batch_size w
   = (Raise (ValueError "range() arg 3 must not be zero"), w))
  ∧ (batch_size < 0 →
     ∃ r, upload_chunks_batch self folder_name chunks repo batch_size w = (Ok (Report r), w)
          ∧ success r = true ∧ uploaded_count r = 0%nat ∧ failed_chunks r = []).
Proof.
  intros Hc. split.
  - intros ->. by rewrite upload_chunks_batch_run.
  - intros Hneg. rewrite upload_chunks_batch_run by done. unfold py_range.
    destruct (Z.eqb_spec batch_size 0) as [|_]; [lia|].
    destruct (Z.ltb_spec batch_size 0) as [_|]; [|lia].
    cbn. eexists. split; [reflexivity|]. done.
Qed.

(** Batch sizes 0 and -1. *)
Lemma batch_sizes_zero_and_minus_one :
  upload_chunks_batch demo_service "doc" (seq 0 3) None 0 retried_world
  = (Raise (ValueError "range() arg 3 must not be zero"), retried_world)
  ∧ ∃ r, upload_chunks_batch demo_service "doc" (seq 0 3) None (-1) retried_world
         = (Ok (Report r), retried_world)
         ∧ success r = true ∧ uploaded_count r = 0%nat ∧ failed_chunks r = [].
Proof.
  split.
  - destruct (a_batch_size_that_is_not_positive_uploads_nothing demo_service "doc"
                (seq 0 3) None 0 retried_world) as [H0 _]; [reflexivity|].
    apply H0. reflexivity.
  - destruct (a_batch_size_that_is_not_positive_uploads_nothing demo_service "doc"
                (seq 0 3) None (-1) retried_world) as [_ Hneg]; [reflexivity|].
    apply Hneg. lia.
Defined.

Lemma failed_names_of_sources folder_name ds names :
  failed_names_of folder_name ds = Ok names →
  Forall (λ name, ∃ d, d ∈ ds ∧ failed_chunk_name folder_name d = Ok name) names.
Proof.
  revert names. induction ds as [|d ds IH]; intros names; cbn.
  - intros [= <-]. constructor.
  - destruct (failed_chunk_name folder_name d) as [name|] eqn:Hn; [|done].
    destruct (failed_names_of folder_name ds) as [l|]; [|done].
    intros [= <-]. constructor.
    + exists d. split; [left|done].
    + eapply Forall_impl; [by apply IH|]. intros n (d' & Hd' & Hn').
      exists d'. split; [by right|done].
Qed.

Lemma upload_batches_failed_names target_repo folder_name chunks batch_size starts u f w u' f' :
  (upload_batches target_repo folder_name chunks batch_size starts u f w).1 = Ok (u', f') →
  ∃ names, f' = f ++ names
           ∧ Forall (λ name, ∃ d, d ∈ map (deref w) chunks
                                  ∧ failed_chunk_name folder_name d = Ok name) names.
Proof.
  revert u f w. induction starts as [|s starts IH]; intros u f w.
  - cbn. intros [= <- <-]. exists []. by rewrite app_nil_r.
  - rewrite upload_batches_cons, upload_one_batch_run.
    destruct (operations_of _ _) as [ops|e]; [|done].
    pose proof (retry_loop_result target_repo folder_name s (slice chunks s batch_size) ops
                  (seq 1 MAX_RETRIES) u f w) as Hres.
    destruct (retry_loop_shape target_repo folder_name s (slice chunks s batch_size) ops
                (seq 1 MAX_RETRIES) u f w) as (evs & Hw & _).
    destruct (retry_loop _ _ _ _ _ _ _ _ _) as [[[u1 f1]|e] w1]; [|done].
    cbn in Hw, Hres. subst w1. cbn [fst snd]. intros H.
    apply IH in H. destruct H as (names2 & -> & Hn2).
    change (deref (after w evs)) with (deref w) in Hn2.
    destruct Hres as [[_ ->]|[[_ (names1 & Hn1 & ->)]|[_ ->]]].
    + by exists names2.
    + exists (names1 ++ names2). rewrite <- app_assoc. split; [done|].
      apply Forall_app. split; [|done].
      apply failed_names_of_sources in Hn1.
      eapply Forall_impl; [exact Hn1|]. intros n (d & Hd & Hname).
      exists d. split; [|done]. eapply elem_of_map_deref; [apply slice_subseteq|exact Hd].
    + by exists names2.
Qed.

(** X7. In a report of [upload_chunks_batch], [failed_count] is the
    length of [failed_chunks], and every name listed there is
    [folder/chunk_NN.json] for one of the chunks given, whose
    [chunk_index] is the int (or bool) NN: nothing is listed that was not
    handed in. *)
Theorem every_failed_name_is_the_name_of_a_given_chunk
    self folder_name chunks repo batch_size w r :
  (upload_chunks_batch self folder_name chunks repo batch_size w).1 = Ok (Report r) →
  failed_count r = length (failed_chunks r)
  ∧ Forall (λ name,
              ∃ d idx, d ∈ map (deref w) chunks
                       ∧ (d !! "chunk_index" = Some (PInt idx)
                          ∨ ∃ b : bool, d !! "chunk_index" = Some (PBool b)
                                        ∧ idx = (if b then 1 else 0))
                       ∧ name = folder_name +:+ "/chunk_" +:+ format_int_02d idx +:+ ".json")
           (failed_chunks r).
Proof.
  destruct (is_configured self) eqn:Hc.
  2: { by rewrite upload_chunks_batch_unconfigured. }
  rewrite upload_chunks_batch_run by done.
  destruct (py_range _ _) as [starts|e]; [|done].
  destruct (upload_batches _ _ _ _ _ _ _ _) as [[[u f]|e] w1] eqn:E; [|done].
  intros [= <-]. cbn. split; [done|].
  assert ((upload_batches (or_default repo (chunked_repo self)) folder_name chunks
             (Z.to_nat batch_size) starts 0%nat [] w).1 = Ok (u, f)) as H by (by rewrite E).
  apply upload_batches_failed_names in H. destruct H as (names & -> & Hn). cbn.
  eapply Forall_impl; [exact Hn|]. intros name (d & Hd & Hname).
  unfold failed_chunk_name, dict_get in Hname.
  destruct (d !! "chunk_index") as [[| b | z | | |]|] eqn:Hidx; cbn in Hname; try done.
  - injection Hname as <-. exists d, (if b then 1 else 0). split; [done|]. split; [|done].
    right. by exists b.
  - injection Hname as <-. exists d, z. split; [done|]. split; [by left|done].
Qed.

(** Three chunks behind a hub that fails every commit: all three are
    listed, under their names. *)
Lemma failed_names_of_three_chunks :
  failed_chunks (report_of failing_run)
  = ["doc/chunk_01.json"; "doc/chunk_02.json"; "doc/chunk_03.json"]
  ∧ failed_count (report_of failing_run) = 3%nat
  ∧ Forall (λ name,
              ∃ d idx, d ∈ map (deref failing_world) (seq 0 3)
                       ∧ (d !! "chunk_index" = Some (PInt idx)
                          ∨ ∃ b : bool, d !! "chunk_index" = Some (PBool b)
                                        ∧ idx = (if b then 1 else 0))
                       ∧ name = "doc" +:+ "/chunk_" +:+ format_int_02d idx +:+ ".json")
           (failed_chunks (report_of failing_run)).
Proof.
  destruct (every_failed_name_is_the_name_of_a_given_chunk demo_service "doc" (seq 0 3)
              None 2 failing_world (report_of failing_run)) as [Hc Hall].
  - vm_compute. reflexivity.
  - split; [vm_compute; reflexivity|]. split; [|exact Hall].
    rewrite Hc. vm_compute. reflexivity.
Defined.

(* ===================================================================== *)
(** ** The single-file uploads *)
(* ===================================================================== *)

Lemma upload_raw_file_tries_once self filename content metadata repo w :
  tries_once self w (raw_operations filename content metadata)
    (upload_raw_file self filename content metadata repo w).
Proof.
  unfold tries_once, upload_raw_file. cbv zeta.
  destruct (is_configured self) eqn:Hc; cbn [negb];
    [|eexists; split; [reflexivity|]; by split].
  destruct (raw_operations filename content metadata) as [ops|e];
    [|eexists; split; [reflexivity|]; by split].
  unfold bind, create_commit. cbv zeta.
  match goal with
  | |- context [hub w (trace w) ?q] => destruct (hub w (trace w) q) as [|[]] eqn:E
  end;
    (eexists; split; [reflexivity|];
     eexists _, _; split; [reflexivity|]; split; [reflexivity|];
     split; [by rewrite E|]; cbn; by split).
Qed.

Lemma upload_cleaned_file_tries_once self filename content metadata repo w :
  tries_once self w (cleaned_operations filename content)
    (upload_cleaned_file self filename content metadata repo w).
Proof.
  unfold tries_once, upload_cleaned_file. cbv zeta.
  destruct (is_configured self) eqn:Hc; cbn [negb];
    [|eexists; split; [reflexivity|]; by split].
  destruct (cleaned_operations filename content) as [ops|e];
    [|eexists; split; [reflexivity|]; by split].
  unfold bind, create_commit. cbv zeta.
  match goal with
  | |- context [hub w (trace w) ?q] => destruct (hub w (trace w) q) as [|[]] eqn:E
  end;
    (eexists; split; [reflexivity|];
     eexists _, _; split; [reflexivity|]; split; [reflexivity|];
     split; [by rewrite E|]; cbn; by split).
Qed.

Lemma upload_chunk_tries_once self folder_name chunk_file chunk_data repo w :
  tries_once self w (single_chunk_operations folder_name chunk_file chunk_data)
    (upload_chunk self folder_name chunk_file chunk_data repo w).
Proof.
  unfold tries_once, upload_chunk. cbv zeta.
  destruct (is_configured self) eqn:Hc; cbn [negb];
    [|eexists; split; [reflexivity|]; by split].
  destruct (single_chunk_operations folder_name chunk_file chunk_data) as [ops|e];
    [|eexists; split; [reflexivity|]; by split].
  unfold bind, create_commit. cbv zeta.
  match goal with
  | |- context [hub w (trace w) ?q] => destruct (hub w (trace w) q) as [|[]] eqn:E
  end;
    (eexists; split; [reflexivity|];
     eexists _, _; split; [reflexivity|]; split; [reflexivity|];
     split; [by rewrite E|]; cbn; by split).
Qed.

(** X8. [upload_raw_file], [upload_cleaned_file] and [upload_chunk]
    always return their dict.  Without a token they do nothing and
    report no success.  With one they build their operations inside the
    [try]: when a text cannot be encoded or the hub client refuses a
    path, they do nothing more and report no success; otherwise they
    call [create_commit] exactly once, with these operations, do not
    retry, and report success exactly when the hub accepted that
    commit. *)
Theorem single_file_uploads_try_once_and_never_raise :
  ∀ self w,
    (∀ filename content metadata repo,
       tries_once self w (raw_operations filename content metadata)
         (upload_raw_file self filename content metadata repo w))
    ∧ (∀ filename content metadata repo,
         tries_once self w (cleaned_operations filename content)
           (upload_cleaned_file self filename content metadata repo w))
    ∧ (∀ folder_name chunk_file chunk_data repo,
         tries_once self w (single_chunk_operations folder_name chunk_file chunk_data)
           (upload_chunk self folder_name chunk_file chunk_data repo w)).
Proof.
  intros self w. split; [|split]; intros.
  - apply upload_raw_file_tries_once.
  - apply upload_cleaned_file_tries_once.
  - apply upload_chunk_tries_once.
Qed.

(* ===================================================================== *)
(** ** File names and the listing of the raw repository *)
(* ===================================================================== *)

Lemma prefix_String a s1 c s2 :
  String.prefix (String a s1) (String c s2)
  = if decide (a = c) then String.prefix s1 s2 else false.
Proof.
  change (String.prefix (String a s1) (String c s2))
    with (if Ascii.ascii_dec a c then String.prefix s1 s2 else false).
  by destruct (Ascii.ascii_dec a c), (decide (a = c)).
Qed.

Lemma prefix_txt_straddle c b :
  String.prefix ".txt" (String c b) = false →
  String.prefix ".txt" (String c (b +:+ ".txt")) = false.
Proof.
  rewrite !prefix_String. case_decide as Hc; [|done].
  destruct b as [|c1 b]; [done|].
  change (String c1 b +:+ ".txt") with (String c1 (b +:+ ".txt")).
  rewrite !prefix_String. case_decide; [|done].
  destruct b as [|c2 b]; [done|].
  change (String c2 b +:+ ".txt") with (String c2 (b +:+ ".txt")).
  rewrite !prefix_String. case_decide; [|done].
  destruct b as [|c3 b]; [done|].
  change (String c3 b +:+ ".txt") with (String c3 (b +:+ ".txt")).
  rewrite !prefix_String. case_decide; [|done].
  by destruct b.
Qed.

Lemma base_name_of_clean base :
  occurs ".txt" base = false → base_name_of (base +:+ ".txt") = base.
Proof.
  unfold base_name_of, str_replace. cbn [String.eqb].
  change (String.eqb ".txt" "") with false. cbv iota.
  induction base as [|c b IH]; [done|].
  cbn [occurs]. intros [Hp Ho]%orb_false_iff.
  change (String c b +:+ ".txt") with (String c (b +:+ ".txt")).
  cbn [replace_from]. rewrite (prefix_txt_straddle c b Hp). by rewrite IH.
Qed.

Lemma string_length_app (a b : string) :
  String.length (a +:+ b) = (String.length a + String.length b)%nat.
Proof.
  induction a as [|c a IH]; [done|].
  change (String c a +:+ b) with (String c (a +:+ b)).
  cbn [String.length Nat.add]. by rewrite IH.
Qed.

Lemma substring_all (s : string) : String.substring 0 (String.length s) s = s.
Proof.
  induction s as [|c s IH]; [done|].
  cbn [String.length String.substring]. by rewrite IH.
Qed.

Lemma substring_suffix (b suf : string) :
  String.substring (String.length b) (String.length suf) (b +:+ suf) = suf.
Proof.
  induction b as [|c b IH]; [apply substring_all|].
  change (String c b +:+ suf) with (String c (b +:+ suf)).
  cbn [String.length String.substring]. exact IH.
Qed.

Lemma substring_split (s : string) (n m : nat) :
  (n + m)%nat = String.length s →
  s = String.substring 0 n s +:+ String.substring n m s.
Proof.
  revert n. induction s as [|c s IH]; intros n H; cbn [String.length] in H.
  - by destruct n, m.
  - destruct n as [|n].
    + cbn [Nat.add] in H. subst m.
      change (String.substring 0 0 (String c s)) with EmptyString.
      change (S (String.length s)) with (String.length (String c s)).
      by rewrite substring_all.
    + cbn [String.substring].
      change (String c ?x +:+ ?y) with (String c (x +:+ y)).
      f_equal. apply IH. lia.
Qed.

(** [s.endswith(suffix)] holds of the strings that end with [suffix]. *)
Lemma endswith_spec (s suffix : string) :
  endswith s suffix = true ↔ ∃ b, s = b +:+ suffix.
Proof.
  unfold endswith. rewrite andb_true_iff, Nat.leb_le, String.eqb_eq. split.
  - intros [Hle Hsuf].
    exists (String.substring 0 (String.length s - String.length suffix) s).
    rewrite (substring_split s (String.length s - String.length suffix)
               (String.length suffix)) at 1 by lia.
    by rewrite Hsuf.
  - intros [b ->]. rewrite string_length_app. split; [lia|].
    replace (String.length b + String.length suffix - String.length suffix)%nat
      with (String.length b) by lia.
    apply substring_suffix.
Qed.

(** X9. [list_raw_files] of a configured service, when the hub lists
    the repository: [count] is the number of names returned, which is the
    number of repository files ending in [.txt]; every name returned
    comes from such a file by [replace('.txt', '')]; and a file [b.txt]
    whose [b] does not contain [.txt] is listed as [b]. *)
Theorem listed_names_are_the_txt_files_of_the_repository
    list_repo_files self files :
  is_configured self = true →
  list_repo_files (raw_repo self) = inr files →
  ∃ names,
    list_raw_files list_repo_files self = Listed names (length names)
    ∧ length names = length (List.filter (λ f, endswith f ".txt") files)
    ∧ (∀ name, name ∈ names →
         ∃ b, b +:+ ".txt" ∈ files ∧ name = base_name_of (b +:+ ".txt"))
    ∧ (∀ b, b +:+ ".txt" ∈ files → occurs ".txt" b = false → b ∈ names).
Proof.
  intros Hc Hl. unfold list_raw_files. rewrite Hc, Hl. cbn [negb].
  eexists. split; [reflexivity|]. split; [by rewrite length_map|]. split.
  - intros name (f & -> & Hf)%list_elem_of_fmap.
    apply list_elem_of_In, filter_In in Hf. destruct Hf as [Hf He].
    apply endswith_spec in He. destruct He as [b ->].
    exists b. split; [by apply list_elem_of_In|done].
  - intros b Hb Hclean. apply list_elem_of_fmap. exists (b +:+ ".txt").
    split; [by rewrite base_name_of_clean|].
    apply list_elem_of_In, filter_In. split; [by apply list_elem_of_In|].
    apply endswith_spec. by exists b.
Qed.

(** A repository with two text files among four files. *)
Lemma names_listed_for_a_repository :
  ∃ names,
    list_raw_files demo_repo_files demo_service = Listed names (length names)
    ∧ length names = 2%nat
    ∧ "a" ∈ names ∧ "notes/b" ∈ names.
Proof.
  destruct (listed_names_are_the_txt_files_of_the_repository demo_repo_files demo_service
              ["README.md"; "a.txt"; "a.meta.json"; "notes/b.txt"])
    as (names & Hl & Hn & _ & Hin).
  - reflexivity.
  - reflexivity.
  - exists names. split; [exact Hl|]. split; [rewrite Hn; reflexivity|].
    split.
    + apply (Hin "a"); [right; left|reflexivity].
    + apply (Hin "notes/b"); [right; right; right; left|reflexivity].
Defined.

(* ===================================================================== *)
(** ** The raw and cleaned sections of the push *)
(* ===================================================================== *)

Lemma str_app_assoc (a b c : string) : (a +:+ b) +:+ c = a +:+ (b +:+ c).
Proof.
  induction a as [|x a IH]; [done|].
  change (String x a +:+ b) with (String x (a +:+ b)).
  change (String x ?s +:+ ?t) with (String x (s +:+ t)).
  by rewrite IH.
Qed.

Lemma txt_is_not_meta_json (b1 : string) : endswith (b1 +:+ ".txt") ".meta.json" = false.
Proof.
  apply not_true_is_false. intros [b2 H]%endswith_spec. revert b2 H.
  induction b1 as [|c b1 IH]; intros b2 H.
  - apply (f_equal String.length) in H. rewrite !string_length_app in H.
    cbn [String.length] in H. lia.
  - destruct b2 as [|c2 b2].
    + assert (endswith ".meta.json" ".txt" = true) as Hf; [|done].
      apply endswith_spec. by exists (String c b1).
    + change (String c b1 +:+ ".txt") with (String c (b1 +:+ ".txt")) in H.
      change (String c2 b2 +:+ ".meta.json") with (String c2 (b2 +:+ ".meta.json")) in H.
      injection H as _ H. by apply (IH b2).
Qed.

Lemma content_path_is_not_meta dir filename :
  endswith filename ".txt" = true →
  endswith (path_join dir filename) ".meta.json" = false.
Proof.
  intros [b ->]%endswith_spec. unfold path_join.
  rewrite <- !str_app_assoc. apply txt_is_not_meta_json.
Qed.

Lemma meta_path_is_meta dir base_name :
  endswith (path_join dir (base_name +:+ ".meta.json")) ".meta.json" = true.
Proof.
  apply endswith_spec. exists (dir +:+ "/" +:+ base_name).
  unfold path_join. by rewrite !str_app_assoc.
Qed.

Lemma str_app_eq_app (a b c d : string) :
  a +:+ b = c +:+ d →
  (∃ x, c = a +:+ x ∧ b = x +:+ d) ∨ (∃ x, a = c +:+ x ∧ d = x +:+ b).
Proof.
  revert c. induction a as [|x a IH]; intros c H.
  - left. by exists c.
  - destruct c as [|y c].
    + right. by exists (String x a).
    + change (String x a +:+ b) with (String x (a +:+ b)) in H.
      change (String y c +:+ d) with (String y (c +:+ d)) in H.
      injection H as -> H.
      destruct (IH c H) as [(z & -> & ->)|(z & -> & ->)]; [left|right]; by exists z.
Qed.

Lemma has_slash_app (a b : string) : has_slash (a +:+ b) = has_slash a || has_slash b.
Proof.
  induction a as [|x a IH]; [done|].
  change (String x a +:+ b) with (String x (a +:+ b)).
  cbn [has_slash]. by rewrite IH, orb_assoc.
Qed.

Lemma meta_json_is_not_txt (name : string) :
  endswith name ".meta.json" = true → endswith name ".txt" = false.
Proof.
  intros [b ->]%endswith_spec. apply not_true_is_false. intros [b2 H]%endswith_spec.
  apply str_app_eq_app in H as [(x & _ & H)|(x & _ & H)].
  - assert (endswith ".meta.json" ".txt" = true) as Hf; [|done].
    apply endswith_spec. by exists x.
  - apply (f_equal String.length) in H. rewrite string_length_app in H.
    cbn [String.length] in H. lia.
Qed.

(** The name of an entry ends as its path does. *)
Lemma entry_name_suffix dir path name suffix :
  entry_name dir path = Some name →
  has_slash suffix = false →
  endswith path suffix = true → endswith name suffix = true.
Proof.
  unfold entry_name. destruct (startswith path (dir +:+ "/")) eqn:Hs; [|done].
  apply startswith_drop in Hs. rewrite string_length_app in Hs. cbn [String.length] in Hs.
  destruct (_ && _) eqn:Hn; [|done]. intros [= <-].
  apply andb_true_iff in Hn as [_ Hn]. apply negb_true_iff in Hn.
  revert Hs Hn. generalize (str_drop (String.length dir + 1) path). intros name -> Hn Hsuf.
  intros [b H]%endswith_spec. apply endswith_spec.
  apply str_app_eq_app in H as [(x & _ & H)|(x & H & ->)]; [by exists x|].
  destruct x as [|c x]; [by exists ""|]. exfalso.
  apply str_app_eq_app in H as [(y & _ & H)|(y & _ & H)].
  - destruct y as [|c' y].
    + cbn in H. injection H as <- <-.
      change (String "/" "" +:+ name) with (String "/" name) in Hsuf. done.
    + change (String c' y +:+ String c x) with (String c' (y +:+ String c x)) in H.
      injection H as _ H. by destruct y.
  - rewrite H, !has_slash_app in Hsuf. cbn in Hsuf.
    by rewrite orb_true_r in Hsuf.
Qed.

Lemma insert_sorted_permutation name listing : insert_sorted name listing ≡ₚ name :: listing.
Proof.
  induction listing as [|x listing IH]; [done|]. cbn [insert_sorted].
  destruct (String.leb name x); [done|]. rewrite IH. apply Permutation_swap.
Qed.

Lemma create_entry_lookup path ds dir :
  create_entry path ds !! dir
  = (λ listing, match entry_name dir path with
                | Some name => insert_sorted name listing
                | None => listing
                end) <$> ds !! dir.
Proof. unfold create_entry. rewrite map_lookup_imap. by destruct (ds !! dir). Qed.

Lemma filter_length_permutation {A} (f : A → bool) (l1 l2 : list A) :
  l1 ≡ₚ l2 → length (List.filter f l1) = length (List.filter f l2).
Proof.
  induction 1 as [|x l1 l2 _ IH|x y l|l1 l2 l3 _ IH1 _ IH2]; cbn [List.filter].
  - done.
  - destruct (f x); cbn [length]; by rewrite IH.
  - by destruct (f x), (f y).
  - by rewrite IH1.
Qed.

(** The upload of a section: at most one commit, whose operations are the
    section's, accepted exactly when the upload reports success. *)
Lemma upload_of_run st self base_name content metadata repo w :
  ∃ r evs,
    upload_of st self base_name content metadata repo w = (Ok r, after w evs)
    ∧ ((upload_succeeded r = false ∧ accepted_requests evs = []
        ∧ (length (commits_of evs) ≤ 1)%nat
        ∧ Forall (λ c, stage_operations st base_name content metadata = Ok (operations c.1))
                 (commits_of evs))
       ∨ (upload_succeeded r = true
          ∧ ∃ req, evs = [EvCommit req Committed]
                   ∧ stage_operations st base_name content metadata = Ok (operations req))).
Proof.
  destruct st; cbn [upload_of stage_operations].
  - unfold upload_raw_file. cbv zeta. destruct (is_configured self); cbn [negb].
    + destruct (raw_operations base_name content metadata) as [ops|e].
      * unfold bind, create_commit. cbv zeta.
        match goal with
        | |- context [hub w (trace w) ?q] => destruct (hub w (trace w) q) as [|[]] eqn:E
        end.
        all: eexists _, [EvCommit _ _]; (split; [reflexivity|]).
        1: right; split; [done|]; eexists; split; [reflexivity|done].
        all: left; cbn; repeat split; try done; try lia; by repeat constructor.
      * eexists _, []. rewrite after_nil. split; [reflexivity|]. left. cbn.
        repeat split; try done; try lia; constructor.
    + exists (UploadError "HuggingFace not configured. Please set HF_TOKEN."), [].
      rewrite after_nil. split; [done|]. left. cbn.
      repeat split; try done; try lia; constructor.
  - unfold upload_cleaned_file. cbv zeta. destruct (is_configured self); cbn [negb].
    + destruct (cleaned_operations base_name content) as [ops|e].
      * unfold bind, create_commit. cbv zeta.
        match goal with
        | |- context [hub w (trace w) ?q] => destruct (hub w (trace w) q) as [|e] eqn:E
        end.
        all: eexists _, [EvCommit _ _]; (split; [reflexivity|]).
        1: right; split; [done|]; eexists; split; [reflexivity|done].
        all: left; cbn; repeat split; try done; try lia; by repeat constructor.
      * eexists _, []. rewrite after_nil. split; [reflexivity|]. left. cbn.
        repeat split; try done; try lia; constructor.
    + exists (UploadError "HuggingFace not configured"), [].
      rewrite after_nil. split; [done|]. left. cbn.
      repeat split; try done; try lia; constructor.
Qed.

Lemma truthy_stamp stamp : truthy (PStr (stamp +:+ "Z")) = true.
Proof. by destruct stamp. Qed.

Lemma marked_after_insert stamp (d : pydict) :
  truthy (dict_get (<["pushed_to_hf" := PStr (stamp +:+ "Z")]> d) "pushed_to_hf" PNone) = true.
Proof. unfold dict_get. rewrite lookup_insert_eq. apply truthy_stamp. Qed.

Lemma meta_names_added_refl w w' : dirs w' = dirs w → meta_names_added w w'.
Proof.
  intros Hd dir. rewrite Hd. destruct (dirs w !! dir) as [listing|]; [|done].
  exists []. split; [done|constructor].
Qed.

Lemma meta_names_added_trans w1 w2 w3 :
  meta_names_added w1 w2 → meta_names_added w2 w3 → meta_names_added w1 w3.
Proof.
  intros H1 H2 dir. specialize (H1 dir). specialize (H2 dir).
  destruct (dirs w1 !! dir) as [l1|], (dirs w2 !! dir) as [l2|], (dirs w3 !! dir) as [l3|];
    try done.
  destruct H1 as (a1 & P1 & F1), H2 as (a2 & P2 & F2).
  exists (a2 ++ a1). split; [|by apply Forall_app].
  by rewrite P2, P1, app_assoc.
Qed.

Lemma meta_names_added_is_Some w w' dir :
  meta_names_added w w' → is_Some (dirs w' !! dir) ↔ is_Some (dirs w !! dir).
Proof.
  intros H. specialize (H dir).
  destruct (dirs w !! dir), (dirs w' !! dir); try done; split; intros [? ?]; done.
Qed.

Lemma path_exists_same w w' p :
  meta_names_added w w' → files w' !! p = files w !! p →
  path_exists w' p = path_exists w p.
Proof.
  intros Hd Hf. unfold path_exists. rewrite Hf. f_equal.
  apply bool_decide_ext. by apply meta_names_added_is_Some.
Qed.

Lemma load_metadata_same w w' p :
  meta_names_added w w' → files w' !! p = files w !! p →
  load_metadata w' p = load_metadata w p.
Proof.
  intros Hd Hf. unfold load_metadata. by rewrite (path_exists_same w w' p), Hf.
Qed.

Lemma marks_only_refl w : marks_only w w.
Proof.
  split; [done|]. split; [by apply meta_names_added_refl|]. split; [|done].
  intros p. by left.
Qed.

Lemma marks_only_after w evs : marks_only w (after w evs).
Proof.
  split; [done|]. split; [by apply meta_names_added_refl|]. split; [|done].
  intros p. by left.
Qed.

Lemma marks_only_trans w1 w2 w3 : marks_only w1 w2 → marks_only w2 w3 → marks_only w1 w3.
Proof.
  intros ((Hh1 & Hc1 & Hw1 & Hs1) & Hd1 & Hm1 & Hn1) ((Hh2 & Hc2 & Hw2 & Hs2) & Hd2 & Hm2 & Hn2).
  split; [repeat split; congruence|].
  split; [by eapply meta_names_added_trans|]. split.
  - intros p. destruct (Hm1 p) as [E1|(d1 & s1 & E1 & U1 & O1)].
    + destruct (Hm2 p) as [E2|(d2 & s2 & E2 & U2 & O2)].
      * left. congruence.
      * right. exists d2, s2. split; [done|]. split; [done|].
        destruct O2 as [O2|[O2 ->]]; [left; congruence|right].
        split; [|done]. by rewrite <- (path_exists_same w1 w2 p).
    + destruct (Hm2 p) as [E2|(d2 & s2 & E2 & U2 & O2)].
      * right. exists d1, s1. split; [congruence|done].
      * exfalso. destruct O2 as [O2|[O2 _]].
        -- rewrite E1 in O2. injection O2 as <-. by rewrite marked_after_insert in U2.
        -- unfold path_exists in O2. rewrite E1 in O2.
           rewrite bool_decide_eq_true_2 in O2 by (by eexists). done.
  - intros p Hp. by rewrite Hn2, Hn1.
Qed.

Lemma marks_only_marked w w' p : marks_only w w' → marked_at w p → marked_at w' p.
Proof.
  intros (_ & _ & Hm & _) (d & Hf & Ht). destruct (Hm p) as [E|(d1 & s1 & E & _)].
  - exists d. by rewrite E.
  - eexists. split; [exact E|]. apply marked_after_insert.
Qed.

Lemma marks_only_is_Some w w' p :
  marks_only w w' → is_Some (files w !! p) → is_Some (files w' !! p).
Proof.
  intros (_ & _ & Hm & _) Hs. destruct (Hm p) as [E|(d1 & s1 & E & _)].
  - by rewrite E.
  - by eexists.
Qed.

(** Metadata that is still unmarked after a push is the metadata the
    push found. *)
Lemma marks_only_unmarked w w' p d :
  marks_only w w' →
  load_metadata w' p = Some d → truthy (dict_get d "pushed_to_hf" PNone) = false →
  load_metadata w p = Some d.
Proof.
  intros (_ & Hd & Hm & _) Hl Hu.
  destruct (Hm p) as [E|(d1 & s1 & E & _)].
  - by rewrite <- (load_metadata_same w w' p).
  - exfalso. unfold load_metadata, path_exists in Hl. rewrite E in Hl.
    rewrite bool_decide_eq_true_2 in Hl by (by eexists). cbn in Hl.
    injection Hl as <-. by rewrite marked_after_insert in Hu.
Qed.

Lemma marks_only_sends json_dumps st w w' dir filename req :
  marks_only w w' → endswith filename ".txt" = true →
  sends_file json_dumps st w' dir filename req → sends_file json_dumps st w dir filename req.
Proof.
  intros Hm He (c & d & Hc & Hl & Hu & Hops). exists c, d.
  split; [|split; [by eapply marks_only_unmarked|done]].
  destruct Hm as (_ & _ & _ & Hn). by rewrite <- Hn by by apply content_path_is_not_meta.
Qed.

(** Writing the marked metadata of an entry, after its upload. *)
Lemma marks_only_write w evs dir base_name d stamp :
  load_metadata w (path_join dir (base_name +:+ ".meta.json")) = Some d →
  truthy (dict_get d "pushed_to_hf" PNone) = false →
  marks_only w
    (write_json (path_join dir (base_name +:+ ".meta.json"))
       (<["pushed_to_hf" := PStr (stamp +:+ "Z")]> d) (after w evs)).2.
Proof.
  intros Hl Hu. split; [done|]. split; [|split].
  - intros p. cbn [write_json snd dirs].
    change (path_exists (after w evs) ?q) with (path_exists w q).
    change (dirs (after w evs)) with (dirs w).
    destruct (path_exists w _).
    { destruct (dirs w !! p) as [listing|]; [|done]. exists []. split; [done|constructor]. }
    rewrite create_entry_lookup. destruct (dirs w !! p) as [listing|]; [|done].
    cbn [fmap option_fmap option_map].
    destruct (entry_name p _) as [name|] eqn:Hname.
    + exists [name]. split; [apply insert_sorted_permutation|].
      constructor; [|constructor].
      eapply entry_name_suffix; [exact Hname|done|apply meta_path_is_meta].
    + exists []. split; [done|constructor].
  - intros p. unfold marker_added. cbn [write_json snd files].
    change (files (after w evs)) with (files w).
    destruct (decide (p = path_join dir (base_name +:+ ".meta.json"))) as [->|Hne].
    + right. exists d, stamp. rewrite lookup_insert_eq. split; [done|]. split; [done|].
      unfold load_metadata in Hl.
      destruct (path_exists w _) eqn:Hex.
      * destruct (files w !! _) as [[d'|]|]; try done. injection Hl as ->. by left.
      * injection Hl as <-. by right.
    + left. by rewrite lookup_insert_ne.
  - intros p Hp. cbn [write_json snd files]. change (files (after w evs)) with (files w).
    rewrite lookup_insert_ne; [done|].
    intros <-. by rewrite meta_path_is_meta in Hp.
Qed.

Section stage_facts.
Context (json_dumps : pydict → string).
Context (st : stage) (hf_service : HuggingFaceService) (dir : string)
        (repo target_filename : option string).

Local Abbreviation meta_of filename :=
  (path_join dir (base_name_of filename +:+ ".meta.json")).
Local Abbreviation push_one :=
  (push_file json_dumps st hf_service dir repo target_filename).
Local Abbreviation push_all :=
  (push_files json_dumps st hf_service dir repo target_filename).

(** What one iteration of the loop does to the counters and the world:
    nothing for an entry that is not pushed; else the entry is skipped,
    fails, or is uploaded, and then marked unless the marker cannot be
    written. *)
Lemma push_file_outcome filename results w :
  ∃ r' w',
    push_one filename results w = (Ok r', w')
    ∧ ((eligible target_filename filename = false ∧ r' = results ∧ w' = w)
       ∨ (eligible target_filename filename = true
          ∧ ((r' = count_skipped results ∧ w' = w
              ∧ is_Some (files w !! path_join dir filename)
              ∧ marked_at w (meta_of filename))
             ∨ (r' = count_failed results
                ∧ ∃ evs, w' = after w evs ∧ accepted_requests evs = []
                         ∧ (length (commits_of evs) ≤ 1)%nat
                         ∧ Forall (λ c, sends_file json_dumps st w dir filename c.1)
                                  (commits_of evs))
             ∨ (∃ req,
                  sends_file json_dumps st w dir filename req
                  ∧ ((write_fails w (meta_of filename) = false
                      ∧ r' = count_uploaded (base_name_of filename) results
                      ∧ ∃ d stamp,
                          load_metadata w (meta_of filename) = Some d
                          ∧ truthy (dict_get d "pushed_to_hf" PNone) = false
                          ∧ w' = (write_json (meta_of filename)
                                    (<["pushed_to_hf" := PStr (stamp +:+ "Z")]> d)
                                    (after w [EvCommit req Committed])).2)
                     ∨ (write_fails w (meta_of filename) = true
                        ∧ r' = count_failed (count_uploaded (base_name_of filename) results)
                        ∧ ∃ l, w' = after w [EvCommit req Committed; l]
                               ∧ accepted_requests [l] = []
                               ∧ commits_of [l] = [])))))).
Proof.
  unfold push_file, eligible.
  destruct (endswith filename ".txt"); cbn [negb andb].
  2: { eexists _, _. split; [reflexivity|]. by left. }
  destruct (filtered_out target_filename (base_name_of filename)); cbn [negb].
  { eexists _, _. split; [reflexivity|]. by left. }
  cbv zeta.
  assert (∀ w0 r0,
            ∃ evs, on_push_exception st (base_name_of filename) r0 w0
                   = (Ok (count_failed r0), after w0 evs)
                   ∧ accepted_requests evs = [] ∧ commits_of evs = []
                   ∧ ∃ l, evs = [l]) as Hexc.
  { intros w0 r0. eexists [_]. split; [reflexivity|]. repeat split. by eexists. }
  destruct (files w !! path_join dir filename) as [c|] eqn:Hcontent.
  2: { destruct (Hexc w results) as (evs & Hrun & Ha & Hc & _).
       rewrite Hrun. eexists _, _. split; [reflexivity|]. right. split; [done|].
       right. left. split; [done|]. exists evs. rewrite Hc.
       repeat split; try done; cbn; lia. }
  destruct (load_metadata w (meta_of filename)) as [d|] eqn:Hmeta.
  2: { destruct (Hexc w results) as (evs & Hrun & Ha & Hc & _).
       rewrite Hrun. eexists _, _. split; [reflexivity|]. right. split; [done|].
       right. left. split; [done|]. exists evs. rewrite Hc.
       repeat split; try done; cbn; lia. }
  destruct (truthy (dict_get d "pushed_to_hf" PNone)) eqn:Hmark.
  { eexists _, _. split; [reflexivity|]. right. split; [done|]. left.
    repeat split; [done|]. unfold load_metadata in Hmeta.
    destruct (path_exists w (meta_of filename)) eqn:Hex.
    - destruct (files w !! meta_of filename) as [[d'|]|] eqn:Hf; try done.
      injection Hmeta as ->. by exists d.
    - injection Hmeta as <-. done. }
  assert (∀ req, stage_operations st (base_name_of filename) (file_text json_dumps c) d
                 = Ok (operations req)
                 → sends_file json_dumps st w dir filename req) as Hsends.
  { intros req Hops. by exists c, d. }
  destruct (upload_of_run st hf_service (base_name_of filename) (file_text json_dumps c)
              d repo w) as (r & evs & Hup & Hcase).
  unfold bind at 1. rewrite Hup.
  destruct Hcase as [(Hr & Ha & Hn & Hops)|(Hr & req & -> & Hops)].
  - destruct r as [|err]; [done|].
    unfold bind, log, emit, ret. cbn [after trace with_trace].
    eexists _, _. split; [reflexivity|]. right. split; [done|]. right. left.
    split; [done|]. exists (evs ++ [EvLog ERROR (UPLOAD_FAILED st) [] (base_name_of filename)]).
    split; [by rewrite <- after_after|].
    rewrite accepted_requests_app, commits_of_app, Ha. cbn. rewrite app_nil_r.
    repeat split; [done|].
    eapply Forall_impl; [exact Hops|]. intros cm. apply Hsends.
  - destruct r as [msg rp|]; [|done].
    unfold bind at 1, utcnow_isoformat at 1.
    change (write_fails (after w [EvCommit req Committed])) with (write_fails w).
    destruct (write_fails w (meta_of filename)) eqn:Hwf.
    + destruct (Hexc (after w [EvCommit req Committed])
                  (count_uploaded (base_name_of filename) results))
        as (evs & Hrun & Ha & Hc & l & ->).
      rewrite Hrun. eexists _, _. split; [reflexivity|]. right. split; [done|].
      right. right. exists req. split; [by apply Hsends|]. right.
      repeat split; try done. exists l. by rewrite after_after.
    + eexists _, _. split; [reflexivity|]. right. split; [done|].
      right. right. exists req. split; [by apply Hsends|]. left.
      repeat split; try done. by eexists d, _.
Qed.

Lemma push_file_facts filename results w :
  ∃ r' w' evs du df ds,
    push_one filename results w = (Ok r', w')
    ∧ trace w' = trace w ++ evs
    ∧ marks_only w w'
    ∧ Results.uploaded r' = (Results.uploaded results + du)%nat
    ∧ Results.failed r' = (Results.failed results + df)%nat
    ∧ Results.skipped r' = (Results.skipped results + ds)%nat
    ∧ Results.failed_chunks r' = Results.failed_chunks results
    ∧ length (Results.files r') = (length (Results.files results) + du)%nat
    ∧ du = length (accepted_requests evs)
    ∧ (length (commits_of evs) ≤ (if eligible target_filename filename then 1 else 0))%nat
    ∧ (du + ds ≤ (if eligible target_filename filename then 1 else 0))%nat
    ∧ ((if eligible target_filename filename then 1 else 0) ≤ du + df + ds)%nat
    ∧ (du + df + ds ≤ (if eligible target_filename filename then 1 else 0) + du)%nat
    ∧ (write_fails w (meta_of filename) = false →
       (du + df + ds)%nat = (if eligible target_filename filename then 1 else 0)%nat)
    ∧ Forall (λ c, eligible target_filename filename = true
                   ∧ sends_file json_dumps st w dir filename c.1) (commits_of evs)
    ∧ (df = 0%nat → eligible target_filename filename = true →
       is_Some (files w' !! path_join dir filename) ∧ marked_at w' (meta_of filename)).
Proof.
  destruct (push_file_outcome filename results w) as (r' & w' & Hrun & Hcase).
  exists r', w'.
  destruct Hcase as [(He & -> & ->)|(He & [(-> & -> & Hc & Hm)|[(-> & evs & -> & Ha & Hn & Hs)|
                      (req & Hs & [(Hwf & -> & d & stamp & Hl & Hu & ->)
                                  |(Hwf & -> & l & -> & Hal & Hcl)])]])];
    rewrite He.
  - exists [], 0%nat, 0%nat, 0%nat. rewrite app_nil_r.
    do 2 (split; [done|]). split; [apply marks_only_refl|].
    cbn. repeat split; try done; lia.
  - exists [], 0%nat, 0%nat, 1%nat. rewrite app_nil_r.
    do 2 (split; [done|]). split; [apply marks_only_refl|].
    cbn. repeat split; try done; lia.
  - exists evs, 0%nat, 1%nat, 0%nat.
    do 2 (split; [done|]). split; [apply marks_only_after|].
    cbn. rewrite Ha. repeat split; try done; try lia.
    eapply Forall_impl; [exact Hs|]. by intros c Hc.
  - exists [EvCommit req Committed], 1%nat, 0%nat, 0%nat.
    do 2 (split; [done|]). split; [by apply marks_only_write|].
    unfold count_uploaded.
    cbn [Results.uploaded Results.failed Results.skipped Results.files
         Results.failed_chunks accepted_requests commits_of length].
    rewrite length_app. cbn [length].
    do 5 (split; [done || lia|]). do 6 (split; [done || lia|]).
    split; [constructor; [by split|constructor]|]. intros _ _.
    cbn [write_json snd files]. change (files (after w ?e)) with (files w). split.
    + destruct Hs as (c & _ & Hc & _). rewrite lookup_insert_ne; [by eexists|].
      intros Heq. unfold eligible in He. apply andb_true_iff in He as [He _].
      pose proof (content_path_is_not_meta dir filename He) as Hnm.
      rewrite <- Heq, meta_path_is_meta in Hnm. done.
    + eexists. cbn [write_json snd files]. rewrite lookup_insert_eq.
      split; [done|]. apply marked_after_insert.
  - exists [EvCommit req Committed; l], 1%nat, 1%nat, 0%nat.
    do 2 (split; [done|]). split; [apply marks_only_after|].
    unfold count_uploaded, count_failed.
    cbn [Results.uploaded Results.failed Results.skipped Results.files
         Results.failed_chunks].
    rewrite length_app. cbn [length].
    destruct l as [rq [|e]| |]; cbn in Hal, Hcl; try done;
      cbn [accepted_requests commits_of length].
    all: do 5 (split; [done || lia|]); do 5 (split; [done || lia|]).
    all: split; [congruence|].
    all: split; [constructor; [by split|constructor]|done].
Qed.

Lemma push_files_facts listing results w :
  ∃ r' w' evs du df ds,
    push_all listing results w = (Ok r', w')
    ∧ trace w' = trace w ++ evs
    ∧ marks_only w w'
    ∧ Results.uploaded r' = (Results.uploaded results + du)%nat
    ∧ Results.failed r' = (Results.failed results + df)%nat
    ∧ Results.skipped r' = (Results.skipped results + ds)%nat
    ∧ Results.failed_chunks r' = Results.failed_chunks results
    ∧ length (Results.files r') = (length (Results.files results) + du)%nat
    ∧ du = length (accepted_requests evs)
    ∧ (length (commits_of evs) ≤ length (List.filter (eligible target_filename) listing))%nat
    ∧ (du + ds ≤ length (List.filter (eligible target_filename) listing))%nat
    ∧ (length (List.filter (eligible target_filename) listing) ≤ du + df + ds)%nat
    ∧ (du + df + ds ≤ length (List.filter (eligible target_filename) listing) + du)%nat
    ∧ ((∀ p, write_fails w p = false) →
       (du + df + ds)%nat = length (List.filter (eligible target_filename) listing))
    ∧ Forall (λ c, ∃ filename, filename ∈ listing
                               ∧ eligible target_filename filename = true
                               ∧ sends_file json_dumps st w dir filename c.1)
             (commits_of evs)
    ∧ (df = 0%nat →
       Forall (λ filename, eligible target_filename filename = true →
                           is_Some (files w' !! path_join dir filename)
                           ∧ marked_at w' (meta_of filename)) listing).
Proof.
  revert results w. induction listing as [|filename listing IH]; intros results w.
  - exists results, w, [], 0%nat, 0%nat, 0%nat. rewrite app_nil_r.
    do 2 (split; [done|]). split; [apply marks_only_refl|].
    cbn. repeat split; try done; try lia; constructor.
  - cbn [push_files]. unfold bind.
    destruct (push_file_facts filename results w)
      as (r1 & w1 & evs1 & du1 & df1 & ds1 & Hrun1 & Ht1 & Hm1 & Hu1 & Hf1 & Hs1 & Hfc1
          & Hfl1 & Hdu1 & Hc1 & Hlo1 & Hmid1 & Hhi1 & Heq1 & Hsend1 & Hmark1).
    rewrite Hrun1.
    destruct (IH r1 w1)
      as (r2 & w2 & evs2 & du2 & df2 & ds2 & Hrun2 & Ht2 & Hm2 & Hu2 & Hf2 & Hs2 & Hfc2
          & Hfl2 & Hdu2 & Hc2 & Hlo2 & Hmid2 & Hhi2 & Heq2 & Hsend2 & Hmark2).
    rewrite Hrun2.
    exists r2, w2, (evs1 ++ evs2), (du1 + du2)%nat, (df1 + df2)%nat, (ds1 + ds2)%nat.
    assert (length (List.filter (eligible target_filename) (filename :: listing))
            = ((if eligible target_filename filename then 1 else 0)
               + length (List.filter (eligible target_filename) listing))%nat) as ->.
    { cbn [List.filter]. by destruct (eligible target_filename filename). }
    rewrite accepted_requests_app, commits_of_app, !length_app.
    split; [done|]. split; [by rewrite Ht2, Ht1, app_assoc|].
    split; [by eapply marks_only_trans|].
    set (e := (if eligible target_filename filename then 1 else 0)%nat) in *.
    set (n := length (List.filter (eligible target_filename) listing)) in *.
    do 3 (split; [lia|]). split; [congruence|].
    do 6 (split; [lia|]).
    split.
    { intros Hwf. rewrite <- Heq1, <- Heq2; [lia| |by apply Hwf].
      intros p. destruct Hm1 as ((_ & _ & -> & _) & _). apply Hwf. }
    split.
    { apply Forall_app. split.
      - eapply Forall_impl; [exact Hsend1|]. intros c (He & Hs).
        exists filename. split; [left|done].
      - eapply Forall_impl; [exact Hsend2|]. intros c (f & Hin & He & Hs).
        exists f. split; [by right|]. split; [done|].
        eapply marks_only_sends; [exact Hm1| |exact Hs].
        unfold eligible in He. by apply andb_true_iff in He as [He _]. }
    intros Hdf. assert (df1 = 0%nat ∧ df2 = 0%nat) as [-> ->] by lia.
    constructor; [|by apply Hmark2].
    intros He. destruct (Hmark1 eq_refl He) as [Hc Hmk].
    split; [by eapply marks_only_is_Some|by eapply marks_only_marked].
Qed.
End stage_facts.

Lemma push_stage_run json_dumps os_order st hf_service dir repo target_filename w :
  push_stage json_dumps os_order st hf_service dir repo target_filename w
  = if path_exists w dir then
      match dirs w !! dir with
      | Some listing =>
          push_files json_dumps st hf_service dir repo target_filename
            (os_order dir listing) Results.empty w
      | None => (Raise (OSError "Not a directory"), w)
      end
    else (Ok Results.empty, w).
Proof.
  unfold push_stage. destruct (path_exists w dir); [|done].
  unfold bind, os_listdir. by destruct (dirs w !! dir).
Qed.




(** X11. Every commit attempted by the raw or the cleaned section
    carries one entry of the directory that ends in [.txt] and passes the
    filter: its text as it was on disk when the push began, under
    [base_name.txt] (for the raw section with its metadata under
    [base_name.meta.json]), the paths being the ones the hub client
    accepted, and the metadata of that entry had no [pushed_to_hf]
    marker.  So an entry that carries the marker is never sent. *)
Theorem a_section_sends_unmarked_files_as_they_are_on_disk
    json_dumps os_order st hf_service dir repo target_filename w :
  ∃ evs,
    trace (push_stage json_dumps os_order st hf_service dir repo target_filename w).2
    = trace w ++ evs
    ∧ Forall (λ c, ∃ filename,
                     filename ∈ eligible_entries os_order w dir target_filename
                     ∧ sends_file json_dumps st w dir filename c.1)
             (commits_of evs).
Proof.
  rewrite push_stage_run. unfold eligible_entries.
  destruct (path_exists w dir).
  2: { exists []. rewrite app_nil_r. split; [done|constructor]. }
  destruct (dirs w !! dir) as [listing|].
  2: { exists []. rewrite app_nil_r. split; [done|constructor]. }
  destruct (push_files_facts json_dumps st hf_service dir repo target_filename
              (os_order dir listing) Results.empty w)
    as (r & w' & evs & du & df & ds & Hrun & Ht & _ & _ & _ & _ & _ & _ & _
        & _ & _ & _ & _ & _ & Hsend & _).
  rewrite Hrun. exists evs. split; [done|].
  eapply Forall_impl; [exact Hsend|]. intros c (f & Hin & He & Hs).
  exists f. split; [|done]. apply list_elem_of_In, filter_In.
  split; [by apply list_elem_of_In|done].
Qed.


Section second_push.
Context (json_dumps : pydict → string).
Context (st : stage) (hf_service : HuggingFaceService) (dir : string)
        (repo target_filename : option string).

Local Abbreviation meta_path filename :=
  (path_join dir (base_name_of filename +:+ ".meta.json")).

Lemma marked_at_load w p :
  marked_at w p →
  ∃ d, load_metadata w p = Some d ∧ truthy (dict_get d "pushed_to_hf" PNone) = true.
Proof.
  intros (d & Hf & Ht). exists d. split; [|done].
  unfold load_metadata, path_exists. rewrite Hf.
  by rewrite bool_decide_eq_true_2 by (by eexists).
Qed.

(** An entry that is marked is skipped, and nothing happens. *)
Lemma push_file_marked filename results w :
  eligible target_filename filename = true →
  is_Some (files w !! path_join dir filename) →
  marked_at w (meta_path filename) →
  push_file json_dumps st hf_service dir repo target_filename filename results w
  = (Ok (count_skipped results), w).
Proof.
  intros He [c Hc] (d & Hl & Ht)%marked_at_load.
  unfold eligible in He. apply andb_true_iff in He as [He1 He2].
  apply negb_true_iff in He2.
  unfold push_file. rewrite He1, He2. cbn [negb]. cbv zeta.
  by rewrite Hc, Hl, Ht.
Qed.

Lemma push_files_marked listing results w :
  Forall (λ filename, eligible target_filename filename = true →
                      is_Some (files w !! path_join dir filename)
                      ∧ marked_at w (meta_path filename)) listing →
  ∃ r, push_files json_dumps st hf_service dir repo target_filename listing results w
       = (Ok r, w)
       ∧ Results.uploaded r = Results.uploaded results
       ∧ Results.failed r = Results.failed results
       ∧ Results.skipped r
         = (Results.skipped results
            + length (List.filter (eligible target_filename) listing))%nat
       ∧ Results.files r = Results.files results.
Proof.
  intros Hall. revert results.
  induction Hall as [|filename listing Hf _ IH]; intros results.
  - exists results. cbn. repeat split; try done; lia.
  - cbn [push_files List.filter]. unfold bind.
    destruct (eligible target_filename filename) eqn:He.
    + destruct (Hf eq_refl) as [Hc Hm].
      rewrite push_file_marked by done.
      destruct (IH (count_skipped results)) as (r & Hrun & Hu & Hfa & Hs & Hfi).
      exists r. split; [done|]. cbn in Hu, Hfa, Hs, Hfi. cbn [length].
      repeat split; try done. lia.
    + assert (push_file json_dumps st hf_service dir repo target_filename filename
                results w = (Ok results, w)) as ->.
      { unfold eligible in He. unfold push_file.
        destruct (endswith filename ".txt"); cbn [negb]; [|done].
        cbn [andb] in He. apply negb_false_iff in He. by rewrite He. }
      apply IH.
Qed.
End second_push.

(** The listing of a directory after a push: the entries that the
    section pushes are the ones of before. *)
Lemma pushed_listing (os_order : listdir_order) target_filename w w1 dir listing :
  dirs w !! dir = Some listing →
  meta_names_added w w1 →
  ∃ listing',
    dirs w1 !! dir = Some listing'
    ∧ (∀ f, eligible target_filename f = true →
            f ∈ os_order dir listing' ↔ f ∈ os_order dir listing)
    ∧ length (List.filter (eligible target_filename) (os_order dir listing'))
      = length (List.filter (eligible target_filename) (os_order dir listing)).
Proof.
  intros Hd Hadd. specialize (Hadd dir). rewrite Hd in Hadd.
  destruct (dirs w1 !! dir) as [listing'|]; [|done].
  destruct Hadd as (added & Hperm & Hadded). exists listing'. split; [done|].
  assert (∀ f, f ∈ added → eligible target_filename f = false) as Hne.
  { intros f Hin. rewrite Forall_forall in Hadded. unfold eligible.
    by rewrite (meta_json_is_not_txt f (Hadded f Hin)). }
  split.
  - intros f He. rewrite !order_permutes, Hperm, elem_of_app. split; [|by right].
    intros [Hin|Hin]; [|done]. by rewrite (Hne f Hin) in He.
  - rewrite (filter_length_permutation _ _ _ (order_permutes os_order dir listing')).
    rewrite (filter_length_permutation _ _ _ (order_permutes os_order dir listing)).
    rewrite (filter_length_permutation _ _ _ Hperm).
    clear Hperm Hadded. induction added as [|a added IH]; [done|].
    cbn [app List.filter]. rewrite (Hne a) by left. apply IH.
    intros f Hin. apply Hne. by right.
Qed.

(** X13. When the raw or the cleaned section has run and counted no
    failure, running it again from the world it left changes nothing:
    no commit, no log record, no write; it uploads 0, fails 0 and skips
    every entry that ends in [.txt] and passes the filter. *)
Theorem a_section_pushed_without_failure_is_skipped_by_the_next_push
    json_dumps os_order st hf_service dir repo target_filename w r w' :
  push_stage json_dumps os_order st hf_service dir repo target_filename w = (Ok r, w') →
  Results.failed r = 0%nat →
  ∃ r2,
    push_stage json_dumps os_order st hf_service dir repo target_filename w' = (Ok r2, w')
    ∧ Results.uploaded r2 = 0%nat
    ∧ Results.failed r2 = 0%nat
    ∧ Results.skipped r2 = length (eligible_entries os_order w dir target_filename)
    ∧ Results.files r2 = [].
Proof.
  rewrite !push_stage_run. unfold eligible_entries.
  destruct (path_exists w dir) eqn:Hex.
  2: { intros [= <- <-] _. rewrite Hex. exists Results.empty.
       split; [done|]. cbn.
       unfold path_exists in Hex. apply orb_false_iff in Hex as [_ Hd].
       apply bool_decide_eq_false in Hd.
       destruct (dirs w !! dir); [by destruct Hd|done]. }
  destruct (dirs w !! dir) as [listing|] eqn:Hd; [|done].
  destruct (push_files_facts json_dumps st hf_service dir repo target_filename
              (os_order dir listing) Results.empty w)
    as (r1 & w1 & evs & du & df & ds & Hrun & _ & Hm & _ & Hfa & _ & _ & _ & _
        & _ & _ & _ & _ & _ & _ & Hmark).
  rewrite Hrun. intros [= <- <-] Hfailed. cbn in Hfa.
  assert (df = 0%nat) as Hdf by lia.
  destruct Hm as (_ & Hdirs & _).
  destruct (pushed_listing os_order target_filename w w1 dir listing Hd Hdirs)
    as (listing' & Hd1 & Hsame & Hlen).
  assert (path_exists w1 dir = true) as ->.
  { unfold path_exists. rewrite Hd1.
    rewrite (bool_decide_eq_true_2 (is_Some (Some listing'))) by (by eexists).
    apply orb_true_r. }
  rewrite Hd1.
  assert (Forall (λ filename, eligible target_filename filename = true →
                              is_Some (files w1 !! path_join dir filename)
                              ∧ marked_at w1 (path_join dir (base_name_of filename
                                                             +:+ ".meta.json")))
                 (os_order dir listing')) as Hall.
  { pose proof (Hmark Hdf) as Hall. rewrite Forall_forall in Hall. apply Forall_forall.
    intros f Hin He. apply Hall; [|done]. by apply Hsame. }
  destruct (push_files_marked json_dumps st hf_service dir repo target_filename
              (os_order dir listing') Results.empty w1 Hall)
    as (r2 & Hrun2 & Hu2 & Hf2 & Hs2 & Hfi2).
  exists r2. rewrite <- Hlen. by repeat split.
Qed.

(** The two raw files pushed twice. *)
Lemma second_push_of_two_raw_files_skips_both :
  ∃ r2,
    push_stage compact_dumps sorted_order RawStage demo_service raw_dir None None
      raw_first_push.2 = (Ok r2, raw_first_push.2)
    ∧ Results.uploaded r2 = 0%nat
    ∧ Results.failed r2 = 0%nat
    ∧ Results.skipped r2 = 2%nat
    ∧ Results.files r2 = [].
Proof.
  destruct (a_section_pushed_without_failure_is_skipped_by_the_next_push compact_dumps
              sorted_order RawStage demo_service raw_dir None None raw_disk_writable
              (results_of raw_first_push) raw_first_push.2)
    as (r2 & Hrun & Hu & Hf & Hs & Hfi).
  - vm_compute. reflexivity.
  - vm_compute. reflexivity.
  - exists r2. split; [exact Hrun|]. split; [exact Hu|]. split; [exact Hf|].
    split; [|exact Hfi]. rewrite Hs. vm_compute. reflexivity.
Defined.

Lemma upload_of_accepted st self base_name content metadata repo w :
  is_configured self = true →
  (∀ t req, hub w t req = Committed) →
  is_ok (stage_operations st base_name content metadata) = true →
  ∃ req msg target,
    upload_of st self base_name content metadata repo w
    = (Ok (UploadOk msg target), after w [EvCommit req Committed]).
Proof.
  intros Hc Hhub Hok. destruct st; cbn [upload_of stage_operations] in *.
  - unfold upload_raw_file. rewrite Hc. cbn [negb]. cbv zeta.
    destruct (raw_operations base_name content metadata) as [ops|]; [|done].
    unfold bind, create_commit. cbv zeta. rewrite Hhub. by eexists _, _, _.
  - unfold upload_cleaned_file. rewrite Hc. cbn [negb]. cbv zeta.
    destruct (cleaned_operations base_name content) as [ops|]; [|done].
    unfold bind, create_commit. cbv zeta. rewrite Hhub. by eexists _, _, _.
Qed.

Section unwritable.
Context (json_dumps : pydict → string).
Context (st : stage) (hf_service : HuggingFaceService) (dir : string)
        (repo target_filename : option string).
Hypothesis configured : is_configured hf_service = true.

(** An unmarked entry whose upload is accepted and whose marker cannot
    be written: counted as uploaded and as failed, the disk as before. *)
Lemma push_file_unwritable filename results w :
  (∀ t req, hub w t req = Committed) →
  (∀ p, write_fails w p = true) →
  eligible target_filename filename = true →
  unpushed_at json_dumps st w dir filename →
  ∃ req l,
    push_file json_dumps st hf_service dir repo target_filename filename results w
    = (Ok (count_failed (count_uploaded (base_name_of filename) results)),
       after w [EvCommit req Committed; l])
    ∧ accepted_requests [l] = [].
Proof.
  intros Hhub Hwf He (c & d & Hc & Hl & Hu & Hok).
  unfold eligible in He. apply andb_true_iff in He as [He1 He2].
  apply negb_true_iff in He2.
  unfold push_file. rewrite He1, He2. cbn [negb]. cbv zeta.
  rewrite Hc, Hl, Hu.
  destruct (upload_of_accepted st hf_service (base_name_of filename)
              (file_text json_dumps c) d repo w configured Hhub Hok)
    as (req & msg & tg & Hup).
  unfold bind at 1. rewrite Hup.
  unfold bind at 1, utcnow_isoformat at 1.
  change (write_fails (after w [EvCommit req Committed])) with (write_fails w).
  rewrite Hwf. unfold on_push_exception, bind, log, emit, ret. cbn [after trace with_trace].
  exists req, (EvLog ERROR (UPLOAD_EXCEPTION st) [] (base_name_of filename)).
  split; [|done]. unfold after, with_trace. cbn. by rewrite <- app_assoc.
Qed.

Lemma push_files_unwritable listing results w :
  (∀ t req, hub w t req = Committed) →
  (∀ p, write_fails w p = true) →
  Forall (unpushed_at json_dumps st w dir)
         (List.filter (eligible target_filename) listing) →
  ∃ r evs,
    push_files json_dumps st hf_service dir repo target_filename listing results w
    = (Ok r, after w evs)
    ∧ length (accepted_requests evs)
      = length (List.filter (eligible target_filename) listing)
    ∧ Results.uploaded r
      = (Results.uploaded results
         + length (List.filter (eligible target_filename) listing))%nat
    ∧ Results.failed r
      = (Results.failed results
         + length (List.filter (eligible target_filename) listing))%nat
    ∧ Results.skipped r = Results.skipped results.
Proof.
  intros Hhub Hwf. revert results w Hhub Hwf.
  induction listing as [|filename listing IH]; intros results w Hhub Hwf Hall.
  - exists results, []. rewrite after_nil. cbn. repeat split; try done; lia.
  - cbn [push_files List.filter] in *. unfold bind.
    destruct (eligible target_filename filename) eqn:He.
    + inversion Hall as [|? ? Hun Hrest]; subst.
      destruct (push_file_unwritable filename results w Hhub Hwf He Hun)
        as (req & l & Hrun & Hl).
      rewrite Hrun.
      destruct (IH (count_failed (count_uploaded (base_name_of filename) results))
                  (after w [EvCommit req Committed; l]) Hhub Hwf Hrest)
        as (r & evs & Hrun2 & Ha & Hu & Hf & Hs).
      exists r, ([EvCommit req Committed; l] ++ evs).
      rewrite <- after_after. split; [done|].
      rewrite accepted_requests_app. cbn in Hu, Hf, Hs.
      change (accepted_requests [EvCommit req Committed; l])
        with (req :: accepted_requests [l]).
      rewrite Hl. cbn [length app]. repeat split; try done; lia.
    + assert (push_file json_dumps st hf_service dir repo target_filename filename
                results w = (Ok results, w)) as ->.
      { unfold eligible in He. unfold push_file.
        destruct (endswith filename ".txt"); cbn [negb]; [|done].
        cbn [andb] in He. apply negb_false_iff in He. by rewrite He. }
      by apply IH.
Qed.
End unwritable.

Lemma push_stage_unwritable
    json_dumps (os_order : listdir_order) st hf_service dir repo target_filename w listing :
  is_configured hf_service = true →
  (∀ t req, hub w t req = Committed) →
  (∀ p, write_fails w p = true) →
  dirs w !! dir = Some listing →
  Forall (unpushed_at json_dumps st w dir)
         (List.filter (eligible target_filename) (os_order dir listing)) →
  ∃ r evs,
    push_stage json_dumps os_order st hf_service dir repo target_filename w
    = (Ok r, after w evs)
    ∧ length (accepted_requests evs)
      = length (List.filter (eligible target_filename) (os_order dir listing))
    ∧ Results.uploaded r
      = length (List.filter (eligible target_filename) (os_order dir listing))
    ∧ Results.failed r
      = length (List.filter (eligible target_filename) (os_order dir listing))
    ∧ Results.skipped r = 0%nat.
Proof.
  intros Hc Hhub Hwf Hd Hall. rewrite push_stage_run. unfold path_exists. rewrite Hd.
  rewrite (bool_decide_eq_true_2 (is_Some (Some listing))) by (by eexists).
  rewrite orb_true_r.
  destruct (push_files_unwritable json_dumps st hf_service dir repo target_filename Hc
              (os_order dir listing) Results.empty w Hhub Hwf Hall)
    as (r & evs & Hrun & Ha & Hu & Hf & Hs).
  exists r, evs. by rewrite Hrun.
Qed.

(** X14. Where the metadata files cannot be written, in front of a hub
    that accepts every commit: each readable, unmarked entry whose
    operations can be built (its texts can be encoded and the hub client
    accepts its paths) is uploaded and counted both as uploaded and as
    failed, the disk stays as it was, and the next push uploads every one
    of them again. *)
Theorem where_markers_cannot_be_written_every_push_uploads_again
    json_dumps os_order st hf_service dir repo target_filename w listing :
  is_configured hf_service = true →
  (∀ t req, hub w t req = Committed) →
  (∀ p, write_fails w p = true) →
  dirs w !! dir = Some listing →
  Forall (unpushed_at json_dumps st w dir)
         (eligible_entries os_order w dir target_filename) →
  let n := length (eligible_entries os_order w dir target_filename) in
  ∃ r evs,
    push_stage json_dumps os_order st hf_service dir repo target_filename w
    = (Ok r, after w evs)
    ∧ length (accepted_requests evs) = n
    ∧ Results.uploaded r = n ∧ Results.failed r = n ∧ Results.skipped r = 0%nat
    ∧ ∃ r2 evs2,
        push_stage json_dumps os_order st hf_service dir repo target_filename (after w evs)
        = (Ok r2, after (after w evs) evs2)
        ∧ length (accepted_requests evs2) = n
        ∧ Results.uploaded r2 = n ∧ Results.failed r2 = n.
Proof.
  intros Hc Hhub Hwf Hd Hall n. subst n. revert Hall. unfold eligible_entries.
  rewrite Hd. intros Hall.
  destruct (push_stage_unwritable json_dumps os_order st hf_service dir repo
              target_filename w listing Hc Hhub Hwf Hd Hall)
    as (r & evs & Hrun & Ha & Hu & Hf & Hs).
  exists r, evs. do 5 (split; [done|]).
  destruct (push_stage_unwritable json_dumps os_order st hf_service dir repo
              target_filename (after w evs) listing Hc Hhub Hwf Hd Hall)
    as (r2 & evs2 & Hrun2 & Ha2 & Hu2 & Hf2 & Hs2).
  by exists r2, evs2.
Qed.

(** The two raw files on a disk that cannot be written. *)
Lemma two_raw_files_on_a_read_only_disk :
  ∃ r evs,
    push_stage compact_dumps sorted_order RawStage demo_service raw_dir None None
      raw_disk_read_only = (Ok r, after raw_disk_read_only evs)
    ∧ length (accepted_requests evs) = 2%nat
    ∧ Results.uploaded r = 2%nat ∧ Results.failed r = 2%nat
    ∧ ∃ r2 evs2,
        push_stage compact_dumps sorted_order RawStage demo_service raw_dir None None
          (after raw_disk_read_only evs) = (Ok r2, after (after raw_disk_read_only evs) evs2)
        ∧ length (accepted_requests evs2) = 2%nat
        ∧ Results.uploaded r2 = 2%nat.
Proof.
  assert (eligible_entries sorted_order raw_disk_read_only raw_dir None = ["a.txt"; "b.txt"])
    as Hentries by (vm_compute; reflexivity).
  destruct (where_markers_cannot_be_written_every_push_uploads_again compact_dumps
              sorted_order RawStage demo_service raw_dir None None raw_disk_read_only
              ["a.meta.json"; "a.txt"; "b.txt"])
    as (r & evs & Hrun & Ha & Hu & Hf & _ & r2 & evs2 & Hrun2 & Ha2 & Hu2 & _).
  - reflexivity.
  - intros t req. reflexivity.
  - intros p. reflexivity.
  - vm_compute. reflexivity.
  - rewrite Hentries. constructor; [|constructor; [|constructor]].
    + eexists _, _. repeat split; vm_compute; reflexivity.
    + eexists _, _. repeat split; vm_compute; reflexivity.
  - rewrite Hentries in Ha, Hu, Hf, Ha2, Hu2.
    exists r, evs. split; [exact Hrun|]. split; [exact Ha|]. split; [exact Hu|].
    split; [exact Hf|]. exists r2, evs2. split; [exact Hrun2|]. split; [exact Ha2|exact Hu2].
Defined.

(* ===================================================================== *)
(** ** A chunk file without [chunk_index] *)
(* ===================================================================== *)

Lemma quiet_accepts_nothing evs : commits_of evs = [] → accepted_requests evs = [].
Proof.
  induction evs as [|[req out| |] evs IH]; cbn; try done.
Qed.

(** Marking a chunk leaves the [chunk_index] of every dict as it is. *)
Lemma mark_chunk_index folder_name failed_set paths pushed_at chunk_data w l :
  deref (mark_chunk folder_name failed_set paths pushed_at chunk_data w).2 l !! "chunk_index"
  = deref w l !! "chunk_index".
Proof.
  unfold mark_chunk, bind, read, lift. cbn beta iota zeta.
  destruct (format_02d _) as [idx|e]; [|done].
  destruct (bool_decide _); [done|].
  destruct (key_get paths _) as [chunk_path|]; [|done].
  destruct (negb (String.eqb chunk_path "") && path_exists w chunk_path); [|done].
  unfold setitem. cbn beta iota zeta.
  assert (∀ w', store w' = <[chunk_data := <["pushed_to_hf" := PStr pushed_at]>
                                              (deref w chunk_data)]> (store w) →
                deref w' l !! "chunk_index" = deref w l !! "chunk_index") as Hstore.
  { intros w' Hs. unfold deref at 1. rewrite Hs.
    destruct (decide (l = chunk_data)) as [->|Hne].
    - destruct (decide (chunk_data < length (store w))%nat) as [Hlt|Hge].
      + rewrite list_lookup_insert_eq by done. by rewrite lookup_insert_ne.
      + by rewrite list_insert_ge by lia.
    - by rewrite list_lookup_insert_ne. }
  destruct (write_fails _ chunk_path); cbn; by apply Hstore.
Qed.

(** The marking loop raises when it comes to a chunk without
    [chunk_index]. *)
Lemma mark_chunks_unindexed folder_name failed_set paths pushed_at unpushed w l :
  l ∈ unpushed → deref w l !! "chunk_index" = None →
  ∃ e, (mark_chunks folder_name failed_set paths pushed_at unpushed w).1 = Raise e.
Proof.
  revert w. induction unpushed as [|l' ls IH]; intros w Hin Hnone.
  - by apply elem_of_nil in Hin.
  - cbn [mark_chunks]. unfold bind.
    pose proof (mark_chunk_index folder_name failed_set paths pushed_at l' w l) as Hidx.
    destruct (mark_chunk folder_name failed_set paths pushed_at l' w) as [[[]|e] w1] eqn:Hm;
      [|by eexists].
    cbn [snd] in Hidx. apply elem_of_cons in Hin as [->|Hin].
    + exfalso. revert Hm. unfold mark_chunk, bind, read, lift. cbn beta iota zeta.
      unfold dict_get. by rewrite Hnone.
    + apply IH; [done|congruence].
Qed.

Section unindexed_chunk.
Context (hf_service : HuggingFaceService) (repo target_filename : option string)
        (approved_chunked_dir folder_name : string) (results : Results.t)
        (w : world) (listing : list string).

Local Abbreviation folder_path := (path_join approved_chunked_dir folder_name).
Local Abbreviation unmarked := (unmarked_records (files w) folder_path listing).

Hypothesis is_folder : dirs w !! folder_path = Some listing.
Hypothesis not_filtered : filtered_out target_filename folder_name = false.
Hypothesis has_unindexed : unindexed_entry (files w) folder_path listing.

Lemma unindexed_push_raises :
  ∃ e, (push_chunk_folder hf_service repo target_filename approved_chunked_dir folder_name
          results w).1 = Raise e.
Proof.
  destruct (collect_chunks_spec folder_path listing
              {| unpushed_chunks := []; chunk_file_paths := [];
                 collected_results := results |} w (Forall_nil_2 _))
    as (c & w1 & Hrun & _ & _ & _ & _ & Hmap & _).
  cbn [unpushed_chunks map app] in Hmap.
  destruct has_unindexed as (d & Hd & Hnone).
  rewrite <- Hmap in Hd. apply list_elem_of_fmap in Hd as (l & -> & Hl).
  rewrite (push_chunk_folder_run _ _ _ _ _ _ _ _ _ _ is_folder not_filtered Hrun).
  destruct (unpushed_chunks c) as [|l0 ls] eqn:Hun; [by apply elem_of_nil in Hl|].
  destruct (upload_chunks_batch_frame hf_service folder_name (l0 :: ls) repo 50 w1)
    as (evs & Hw2).
  destruct (upload_chunks_batch _ _ _ _ _ _) as [[result|e] w2]; [|by eexists].
  cbn [snd] in Hw2. subst w2.
  destruct (mark_chunks_unindexed folder_name (get_failed_chunks result) (chunk_file_paths c)
              (clock (after w1 evs) (trace (after w1 evs)) +:+ "Z") (l0 :: ls)
              (after w1 evs) l Hl Hnone) as (e & He).
  destruct (mark_chunks _ _ _ _ _ _) as [[[]|e'] w3]; [done|by eexists].
Qed.

Lemma unindexed_push_after_upload :
  is_configured hf_service = true →
  (∀ t req, hub w t req = Committed) →
  Forall (λ d, sendable folder_name d = true) unmarked →
  ∃ evs,
    trace (push_chunk_folder hf_service repo target_filename approved_chunked_dir
             folder_name results w).2 = trace w ++ evs
    ∧ operations_accepted evs = length unmarked.
Proof.
  intros Hc Hhub Hidx.
  destruct (collect_chunks_spec folder_path listing
              {| unpushed_chunks := []; chunk_file_paths := [];
                 collected_results := results |} w (Forall_nil_2 _))
    as (c & w1 & Hrun & (Hh1 & _) & (e1 & Ht1 & Hq1) & _ & _ & Hmap & _).
  cbn [unpushed_chunks map app] in Hmap.
  destruct has_unindexed as (d & Hd & Hnone).
  rewrite (push_chunk_folder_run _ _ _ _ _ _ _ _ _ _ is_folder not_filtered Hrun).
  destruct (unpushed_chunks c) as [|l0 ls] eqn:Hun.
  { cbn in Hmap. rewrite <- Hmap in Hd. by apply elem_of_nil in Hd. }
  assert (∀ t req, hub w1 t req = Committed) as Hhub1 by (by rewrite Hh1).
  assert (Forall (λ l, sendable folder_name (deref w1 l) = true) (l0 :: ls)) as Hidx1.
  { rewrite <- Hmap in Hidx. by apply Forall_map in Hidx. }
  rewrite upload_chunks_batch_run by done. unfold py_range.
  change (50 =? 0) with false. change (50 <? 0) with false. cbv iota.
  pose proof (upload_batches_accepted (or_default repo (chunked_repo hf_service))
                folder_name (l0 :: ls) (Z.to_nat 50) w1 Hhub1 Hidx1
                (range_loop (length (l0 :: ls)) 0 (length (l0 :: ls)) (Z.to_nat 50))
                0%nat [] []) as Hup.
  rewrite after_nil in Hup.
  destruct (upload_batches_ends (or_default repo (chunked_repo hf_service)) folder_name
              (l0 :: ls) (Z.to_nat 50)
              (range_loop (length (l0 :: ls)) 0 (length (l0 :: ls)) (Z.to_nat 50))
              0%nat [] w1) as (evs & Hw & Hu & _).
  rewrite Hup in Hw, Hu |- *. cbn [fst snd app] in Hw, Hu |- *.
  specialize (Hu _ _ eq_refl). cbn [Nat.add] in Hu.
  change (map (λ s, length (slice (l0 :: ls) s (Z.to_nat 50))) ?x)
    with (map (length ∘ (λ s, slice (l0 :: ls) s (Z.to_nat 50))) x) in Hu.
  rewrite <- (map_map (λ s, slice (l0 :: ls) s (Z.to_nat 50)) length) in Hu.
  fold (batches_of (l0 :: ls) (Z.to_nat 50)) in Hu.
  rewrite sum_list_concat_length, batches_of_concat in Hu by (cbn; lia).
  rewrite Hw.
  pose proof (mark_chunks_quiet folder_name [] (chunk_file_paths c)
                (clock (after w1 evs) (trace (after w1 evs)) +:+ "Z") (l0 :: ls)
                (after w1 evs)) as (e3 & Ht3 & Hq3).
  cbn [get_failed_chunks failed_chunks].
  destruct (mark_chunks _ _ _ _ _ _) as [[[]|e'] w3]; cbn [snd] in Ht3 |- *.
  all: exists (e1 ++ evs ++ e3).
  all: split; [rewrite Ht3; cbn [trace after with_trace]; by rewrite Ht1, <- !app_assoc|].
  all: rewrite !operations_accepted_app.
  all: unfold operations_accepted at 1 3;
    rewrite (quiet_accepts_nothing e1), (quiet_accepts_nothing e3) by done.
  all: cbn [map sum_list_with]; rewrite <- Hu, <- Hmap, length_map; lia.
Qed.
End unindexed_chunk.

(** X15. A chunk folder with an unmarked record that has no
    [chunk_index]: the push of the folder raises, whatever the hub
    answers (in the service's failure report, which formats ["?"] with
    [02d], or else in the marking loop, which formats [None]), so the
    route answers 500.  When the hub accepts every commit and the
    operation of every unmarked record of the folder can be built (its
    index, or the default 1, can be formatted, the record can be encoded
    and the hub client accepts its path), every unmarked record of the
    folder has been accepted by the hub before the exception. *)
Theorem a_chunk_without_chunk_index_fails_the_push_of_its_folder
    hf_service repo target_filename approved_chunked_dir folder_name results w listing :
  dirs w !! path_join approved_chunked_dir folder_name = Some listing →
  filtered_out target_filename folder_name = false →
  unindexed_entry (files w) (path_join approved_chunked_dir folder_name) listing →
  let run := push_chunk_folder hf_service repo target_filename approved_chunked_dir
               folder_name results w in
  let unmarked :=
    unmarked_records (files w) (path_join approved_chunked_dir folder_name) listing in
  (∃ e, run.1 = Raise e)
  ∧ (is_configured hf_service = true →
     (∀ t req, hub w t req = Committed) →
     Forall (λ d, sendable folder_name d = true) unmarked →
     ∃ evs, trace run.2 = trace w ++ evs
            ∧ operations_accepted evs = length unmarked).
Proof.
  intros Hd Hf Hun run unmarked. subst run unmarked. split.
  - by eapply unindexed_push_raises.
  - intros Hc Hhub Hidx. by eapply unindexed_push_after_upload.
Qed.

(** A folder of two chunk files, the second without [chunk_index], in
    front of a hub that accepts: both records are accepted in one commit
    and the push raises. *)
Lemma push_of_a_folder_with_an_unindexed_chunk :
  (∃ e, (push_chunk_folder demo_service None None demo_dir "doc" Results.empty
           (unindexed_disk (always Committed))).1 = Raise e)
  ∧ ∃ evs,
      trace (push_chunk_folder demo_service None None demo_dir "doc" Results.empty
               (unindexed_disk (always Committed))).2
      = trace (unindexed_disk (always Committed)) ++ evs
      ∧ operations_accepted evs = 2%nat.
Proof.
  assert (unmarked_records (files (unindexed_disk (always Committed)))
            (path_join demo_dir "doc") ["chunk_01.json"; "chunk_02.json"]
          = [chunk_record 1; unindexed_record]) as Hrecords by (vm_compute; reflexivity).
  destruct (a_chunk_without_chunk_index_fails_the_push_of_its_folder demo_service None None
              demo_dir "doc" Results.empty (unindexed_disk (always Committed))
              ["chunk_01.json"; "chunk_02.json"]) as [Hraise Hsent].
  - vm_compute. reflexivity.
  - reflexivity.
  - exists unindexed_record. rewrite Hrecords. split; [right; left|reflexivity].
  - split; [exact Hraise|].
    destruct Hsent as (evs & Ht & Ha).
    + reflexivity.
    + intros t req. reflexivity.
    + rewrite Hrecords. repeat constructor.
    + exists evs. split; [exact Ht|]. rewrite Ha, Hrecords. reflexivity.
Defined.

(* ===================================================================== *)
(** ** What the chunked section writes *)
(* ===================================================================== *)

Lemma writes_marked_refl w : writes_marked w w.
Proof. split; [done|]. intros p. by left. Qed.

Lemma writes_marked_same w w' :
  files w' = files w → dirs w' = dirs w → writes_marked w w'.
Proof. intros Hf Hd. split; [done|]. intros p. left. by rewrite Hf. Qed.

Lemma writes_marked_trans w1 w2 w3 :
  writes_marked w1 w2 → writes_marked w2 w3 → writes_marked w1 w3.
Proof.
  intros [Hd1 H1] [Hd2 H2]. split; [congruence|]. intros p.
  destruct (H2 p) as [E2|M2]; [|by right].
  destruct (H1 p) as [E1|(d & E1 & M1)]; [left; congruence|].
  right. exists d. by rewrite E2.
Qed.

Lemma mark_chunk_writes folder_name failed_set paths stamp chunk_data w :
  (chunk_data < length (store w))%nat →
  writes_marked w (mark_chunk folder_name failed_set paths (stamp +:+ "Z") chunk_data w).2
  ∧ length (store (mark_chunk folder_name failed_set paths (stamp +:+ "Z") chunk_data w).2)
    = length (store w).
Proof.
  intros Hl. unfold mark_chunk, bind, read, lift. cbn beta iota zeta.
  destruct (format_02d _) as [idx|e]; [|split; [apply writes_marked_refl|done]].
  destruct (bool_decide _); [split; [apply writes_marked_refl|done]|].
  destruct (key_get paths _) as [chunk_path|]; [|split; [apply writes_marked_refl|done]].
  destruct (String.eqb chunk_path ""); cbn [negb andb];
    [split; [apply writes_marked_refl|done]|].
  destruct (path_exists w chunk_path) eqn:Hex;
    [|split; [apply writes_marked_refl|done]].
  unfold setitem. cbn beta iota zeta.
  destruct (write_fails _ chunk_path).
  - cbn. split; [by apply writes_marked_same|]. by rewrite length_insert.
  - unfold bind, read, write_json. cbn beta iota zeta.
    rewrite path_exists_with_store, Hex. cbn.
    split; [|by rewrite length_insert]. split; [done|]. intros p. cbn.
    destruct (decide (p = chunk_path)) as [->|Hne].
    + right. eexists. rewrite lookup_insert_eq. split; [reflexivity|].
      unfold deref at 1. cbn. rewrite list_lookup_insert_eq by done.
      apply marked_after_insert.
    + left. by rewrite lookup_insert_ne.
Qed.

Lemma mark_chunks_writes folder_name failed_set paths stamp unpushed w :
  Forall (λ l, (l < length (store w))%nat) unpushed →
  writes_marked w (mark_chunks folder_name failed_set paths (stamp +:+ "Z") unpushed w).2.
Proof.
  revert w. induction unpushed as [|l ls IH]; intros w Hv; [apply writes_marked_refl|].
  cbn [mark_chunks]. unfold bind.
  inversion Hv as [|? ? Hl Hls]; subst.
  destruct (mark_chunk_writes folder_name failed_set paths stamp l w Hl) as [Hw Hlen].
  destruct (mark_chunk _ _ _ _ _ _) as [[[]|e] w1]; cbn [snd] in Hw, Hlen |- *; [|done].
  eapply writes_marked_trans; [exact Hw|]. apply IH. by rewrite Hlen.
Qed.

Lemma push_chunk_folder_writes
    hf_service repo target_filename approved_chunked_dir folder_name results w :
  writes_marked w (push_chunk_folder hf_service repo target_filename approved_chunked_dir
                     folder_name results w).2.
Proof.
  destruct (dirs w !! path_join approved_chunked_dir folder_name) as [listing|] eqn:Hd.
  2: { unfold push_chunk_folder. rewrite Hd. apply writes_marked_refl. }
  destruct (filtered_out target_filename folder_name) eqn:Hf.
  { unfold push_chunk_folder. rewrite Hd, Hf. apply writes_marked_refl. }
  destruct (collect_chunks_spec (path_join approved_chunked_dir folder_name) listing
              {| unpushed_chunks := []; chunk_file_paths := [];
                 collected_results := results |} w (Forall_nil_2 _))
    as (c & w1 & Hrun & (_ & _ & _ & Hf1 & Hd1) & _ & _ & Hv & _).
  rewrite (push_chunk_folder_run _ _ _ _ _ _ _ _ _ _ Hd Hf Hrun).
  assert (writes_marked w w1) as H1 by (by apply writes_marked_same).
  destruct (unpushed_chunks c) as [|l0 ls] eqn:Hun; [done|].
  destruct (upload_chunks_batch_frame hf_service folder_name (l0 :: ls) repo 50 w1)
    as (evs & Hw2).
  destruct (upload_chunks_batch _ _ _ _ _ _) as [[result|e] w2]; cbn [snd] in Hw2; subst w2.
  2: { cbn [snd]. eapply writes_marked_trans; [exact H1|]. by apply writes_marked_same. }
  pose proof (mark_chunks_writes folder_name (get_failed_chunks result) (chunk_file_paths c)
                (clock (after w1 evs) (trace (after w1 evs))) (l0 :: ls) (after w1 evs) Hv)
    as H3.
  destruct (mark_chunks _ _ _ _ _ _) as [[[]|e] w3]; cbn [snd] in H3 |- *.
  all: eapply writes_marked_trans; [exact H1|].
  all: eapply writes_marked_trans; [|exact H3]; by apply writes_marked_same.
Qed.

Lemma push_chunk_folders_writes
    hf_service repo target_filename approved_chunked_dir folders results w :
  writes_marked w (push_chunk_folders hf_service repo target_filename approved_chunked_dir
                     folders results w).2.
Proof.
  revert results w. induction folders as [|folder_name folders IH]; intros results w.
  - apply writes_marked_refl.
  - cbn [push_chunk_folders]. unfold bind.
    pose proof (push_chunk_folder_writes hf_service repo target_filename
                  approved_chunked_dir folder_name results w) as H1.
    destruct (push_chunk_folder _ _ _ _ _ _ _) as [[r1|e] w1]; cbn [snd] in H1 |- *; [|done].
    eapply writes_marked_trans; [exact H1|apply IH].
Qed.

(** X16. What the chunked section does to the disk, whether it returns
    or raises: the directories are untouched; every file afterwards is
    the file before or a record that carries the [pushed_to_hf] marker;
    so a marker that was there is still there, and no file is
    removed. *)
Theorem the_chunked_section_never_clears_a_marker
    hf_service repo target_filename approved_chunked_dir w :
  let w' := (push_to_huggingface_chunked hf_service repo target_filename
               approved_chunked_dir w).2 in
  dirs w' = dirs w
  ∧ (∀ p, files w' !! p = files w !! p
          ∨ ∃ d, files w' !! p = Some (JsonObject d)
                 ∧ truthy (dict_get d "pushed_to_hf" PNone) = true)
  ∧ (∀ p, marked_at w p → marked_at w' p)
  ∧ (∀ p, is_Some (files w !! p) → is_Some (files w' !! p)).
Proof.
  cbv zeta.
  assert (writes_marked w (push_to_huggingface_chunked hf_service repo target_filename
                             approved_chunked_dir w).2) as [Hd Hw].
  { unfold push_to_huggingface_chunked.
    destruct (path_exists w approved_chunked_dir); [|apply writes_marked_refl].
    destruct (dirs w !! approved_chunked_dir); [|apply writes_marked_refl].
    apply push_chunk_folders_writes. }
  split; [done|]. split; [done|]. split.
  - intros p (d & Hf & Ht). destruct (Hw p) as [E|(d' & E & M)].
    + exists d. by rewrite E.
    + by exists d'.
  - intros p Hs. destruct (Hw p) as [E|(d' & E & M)]; [by rewrite E|by eexists].
Qed.

(* ===================================================================== *)
(** ** The size of a commit *)
(* ===================================================================== *)

Lemma upload_one_batch_sizes target_repo folder_name chunks batch_size batch_start u f w evs :
  (0 < batch_size)%nat → (batch_start < length chunks)%nat →
  (upload_one_batch target_repo folder_name chunks batch_size batch_start u f w).2
  = after w evs →
  Forall (λ c, (0 < length (operations c.1) ≤ batch_size)%nat) (commits_of evs).
Proof.
  intros Hpos Hstart. rewrite upload_one_batch_run.
  destruct (operations_of _ _) as [ops|e] eqn:Hops.
  - intros H%retry_loop_requests.
    eapply Forall_impl; [exact H|]. intros c ->. cbn.
    apply operations_of_length in Hops. rewrite length_map, slice_length in Hops. lia.
  - cbn. rewrite <- (after_nil w) at 1. intros <-%after_inj. constructor.
Qed.

Lemma upload_batches_sizes target_repo folder_name chunks batch_size starts u f w evs :
  (0 < batch_size)%nat → Forall (λ s, (s < length chunks)%nat) starts →
  (upload_batches target_repo folder_name chunks batch_size starts u f w).2 = after w evs →
  Forall (λ c, (0 < length (operations c.1) ≤ batch_size)%nat) (commits_of evs).
Proof.
  intros Hpos Hstarts. revert u f w evs.
  induction Hstarts as [|s starts Hs _ IH]; intros u f w evs.
  - cbn. rewrite <- (after_nil w) at 1. intros <-%after_inj. constructor.
  - rewrite upload_batches_cons.
    destruct (upload_one_batch_frame target_repo folder_name chunks batch_size s u f w)
      as (evs1 & Hw1 & _).
    pose proof (upload_one_batch_sizes _ _ _ _ _ _ _ _ _ Hpos Hs Hw1) as Hs1.
    destruct (upload_one_batch _ _ _ _ _ _ _ _) as [[r|e] w1]; cbn in Hw1; subst w1.
    + destruct (upload_batches_frame target_repo folder_name chunks batch_size starts
                  r.1 r.2 (after w evs1)) as (evs2 & Hw2).
      pose proof (IH _ _ _ _ Hw2) as Hs2.
      rewrite Hw2, after_after. intros <-%after_inj.
      rewrite commits_of_app. by apply Forall_app.
    + cbn. by intros <-%after_inj.
Qed.

Lemma upload_batches_repo target_repo folder_name chunks batch_size starts u f w evs :
  (upload_batches target_repo folder_name chunks batch_size starts u f w).2 = after w evs →
  Forall (λ c, repo_id c.1 = target_repo ∧ repo_type c.1 = "dataset") (commits_of evs).
Proof.
  revert u f w evs. induction starts as [|s starts IH]; intros u f w evs.
  - cbn. rewrite <- (after_nil w) at 1. intros <-%after_inj. constructor.
  - rewrite upload_batches_cons.
    destruct (upload_one_batch_frame target_repo folder_name chunks batch_size s u f w)
      as (evs1 & Hw1 & _).
    assert (Forall (λ c, repo_id c.1 = target_repo ∧ repo_type c.1 = "dataset")
              (commits_of evs1)) as Hs1.
    { revert Hw1. rewrite upload_one_batch_run.
      destruct (operations_of _ _) as [ops|e].
      - intros H%retry_loop_requests. eapply Forall_impl; [exact H|]. by intros c ->.
      - cbn. rewrite <- (after_nil w) at 1. intros <-%after_inj. constructor. }
    destruct (upload_one_batch _ _ _ _ _ _ _ _) as [[r|e] w1]; cbn in Hw1; subst w1.
    + destruct (upload_batches_frame target_repo folder_name chunks batch_size starts
                  r.1 r.2 (after w evs1)) as (evs2 & Hw2).
      pose proof (IH _ _ _ _ Hw2) as Hs2.
      rewrite Hw2, after_after. intros <-%after_inj.
      rewrite commits_of_app. by apply Forall_app.
    + cbn. by intros <-%after_inj.
Qed.

(** X17. With a positive [batch_size], every commit attempted by
    [upload_chunks_batch], first tries and retries alike, carries at
    least one and at most [batch_size] files and goes to the dataset
    repository [repo or self.chunked_repo]. *)
Theorem no_commit_is_empty_or_larger_than_a_batch
    self folder_name chunks repo batch_size w :
  0 < batch_size →
  ∃ evs,
    (upload_chunks_batch self folder_name chunks repo batch_size w).2 = after w evs
    ∧ Forall (λ c, (0 < length (operations c.1) ≤ Z.to_nat batch_size)%nat
                   ∧ repo_id c.1 = or_default repo (chunked_repo self)
                   ∧ repo_type c.1 = "dataset")
             (commits_of evs).
Proof.
  intros Hpos.
  destruct (upload_chunks_batch_frame self folder_name chunks repo batch_size w)
    as (evs & Hw).
  exists evs. split; [done|]. revert Hw.
  destruct (is_configured self) eqn:Hc.
  2: { rewrite upload_chunks_batch_unconfigured by done.
       cbn. rewrite <- (after_nil w) at 1. intros <-%after_inj. constructor. }
  rewrite upload_chunks_batch_run by done. unfold py_range.
  destruct (Z.eqb_spec batch_size 0) as [|_]; [lia|].
  destruct (Z.ltb_spec batch_size 0) as [|_]; [lia|].
  intros Hw.
  assert ((upload_batches (or_default repo (chunked_repo self)) folder_name chunks
             (Z.to_nat batch_size)
             (range_loop (length chunks) 0 (length chunks) (Z.to_nat batch_size))
             0%nat [] w).2 = after w evs) as Hw'.
  { by destruct (upload_batches _ _ _ _ _ _ _ _) as [[r|e] w1]. }
  assert (Forall (λ s, (s < length chunks)%nat)
            (range_loop (length chunks) 0 (length chunks) (Z.to_nat batch_size))) as Hst.
  { apply Forall_forall. intros s Hs. apply range_loop_bound in Hs. lia. }
  assert (0 < Z.to_nat batch_size)%nat as Hn by lia.
  pose proof (upload_batches_sizes _ _ _ _ _ _ _ _ _ Hn Hst Hw') as Hsz.
  pose proof (upload_batches_repo _ _ _ _ _ _ _ _ _ Hw') as Hrp.
  rewrite Forall_forall in Hsz, Hrp |- *. intros c Hc'. split; [by apply Hsz|by apply Hrp].
Qed.

(** Three chunks in batches of two, the first commit failing: every
    attempt carries one or two files. *)
Lemma commit_sizes_of_three_chunks_in_two_batches :
  ∃ evs,
    retried_run.2 = after retried_world evs
    ∧ Forall (λ c, (0 < length (operations c.1) ≤ 2)%nat
                   ∧ repo_id c.1 = "mozhii/chunked"
                   ∧ repo_type c.1 = "dataset")
             (commits_of evs).
Proof.
  apply (no_commit_is_empty_or_larger_than_a_batch demo_service "doc" (seq 0 3) None 2
           retried_world).
  lia.
Defined.

(* ===================================================================== *)
(** ** The listing of the approved files *)
(* ===================================================================== *)

Section listing_facts.
Context (os_order : listdir_order).
Context (w : world) (st : stage) (dir base : string).
Hypothesis marked : marked_at w (path_join dir (base +:+ ".meta.json")).

Local Abbreviation shown files :=
  (∃ entry, files !! base = Some entry ∧ listed_as_pushed st entry).

(** The loop of the stage shows a marked file as pushed. *)
Lemma list_text_entry_shows fname files files' :
  list_text_entry st w dir fname files = Some files' →
  endswith fname ".txt" = true → base_name_of fname = base →
  shown files'.
Proof.
  unfold list_text_entry. intros H He Hb. rewrite He, Hb in H. cbn [negb] in H.
  destruct (marked_at_load _ _ marked) as (d & Hl & Ht). rewrite Hl, Ht in H.
  injection H as <-. eexists. rewrite lookup_insert_eq. split; [done|].
  by destruct st.
Qed.

Lemma list_text_entry_keeps fname files files' :
  list_text_entry st w dir fname files = Some files' → shown files → shown files'.
Proof.
  unfold list_text_entry. intros H (entry & He & Hp).
  destruct (endswith fname ".txt"); cbn [negb] in H; [|injection H as <-; by exists entry].
  destruct (load_metadata w _) as [d|] eqn:Hl; [|done]. injection H as <-.
  destruct (decide (base_name_of fname = base)) as [Hb|Hne].
  - rewrite Hb in Hl |- *.
    destruct (marked_at_load _ _ marked) as (d' & Hl' & Ht).
    assert (d = d') as -> by congruence. rewrite Ht.
    eexists. rewrite lookup_insert_eq. split; [done|]. by destruct st.
  - exists entry. by rewrite lookup_insert_ne.
Qed.

Lemma list_text_entries_keep listing files files' :
  list_text_entries st w dir listing files = Some files' → shown files → shown files'.
Proof.
  revert files. induction listing as [|fname listing IH]; intros files; cbn.
  - by intros [= <-].
  - destruct (list_text_entry st w dir fname files) as [files1|] eqn:H1; [|done].
    intros H Hs. eapply IH; [exact H|]. by eapply list_text_entry_keeps.
Qed.

Lemma list_text_entries_show listing files files' fname :
  list_text_entries st w dir listing files = Some files' →
  fname ∈ listing → endswith fname ".txt" = true → base_name_of fname = base →
  shown files'.
Proof.
  revert files. induction listing as [|f listing IH]; intros files; cbn.
  - by intros _ ?%elem_of_nil.
  - destruct (list_text_entry st w dir f files) as [files1|] eqn:H1; [|done].
    intros H [->|Hin]%elem_of_cons He Hb.
    + eapply list_text_entries_keep; [exact H|]. by eapply list_text_entry_shows.
    + by eapply IH.
Qed.

(** The loops of the other stage and of the chunk folders leave what the
    entry says of the stage. *)
Lemma list_text_entry_other st' dir' fname files files' :
  st' ≠ st →
  list_text_entry st' w dir' fname files = Some files' → shown files → shown files'.
Proof.
  unfold list_text_entry. intros Hst H (entry & He & Hp).
  destruct (endswith fname ".txt"); cbn [negb] in H; [|injection H as <-; by exists entry].
  destruct (load_metadata w _) as [d|]; [|done]. injection H as <-.
  destruct (decide (base_name_of fname = base)) as [Hb|Hne].
  - rewrite Hb. unfold setdefault. rewrite He.
    eexists. rewrite lookup_insert_eq. split; [done|].
    by destruct st, st'.
  - exists entry. by rewrite lookup_insert_ne.
Qed.

Lemma list_text_entries_other st' dir' listing files files' :
  st' ≠ st →
  list_text_entries st' w dir' listing files = Some files' → shown files → shown files'.
Proof.
  intros Hst. revert files. induction listing as [|fname listing IH]; intros files; cbn.
  - by intros [= <-].
  - destruct (list_text_entry st' w dir' fname files) as [files1|] eqn:H1; [|done].
    intros H Hs. eapply IH; [exact H|]. by eapply list_text_entry_other.
Qed.

Lemma list_chunk_folder_keeps chunked_dir folder files :
  shown files → shown (list_chunk_folder os_order w chunked_dir folder files).
Proof.
  intros (entry & He & Hp). unfold list_chunk_folder.
  destruct (dirs w !! _) as [listing|]; [|by exists entry]. cbv zeta.
  destruct (decide (folder = base)) as [->|Hne].
  - unfold setdefault. rewrite He. eexists. rewrite lookup_insert_eq. split; [done|].
    by destruct st.
  - exists entry. by rewrite lookup_insert_ne.
Qed.

Lemma list_chunk_folders_keep chunked_dir folders files :
  shown files → shown (list_chunk_folders os_order w chunked_dir folders files).
Proof.
  revert files. induction folders as [|folder folders IH]; intros files Hs; [done|].
  cbn. by apply IH, list_chunk_folder_keeps.
Qed.

Lemma list_chunk_dir_keeps chunked_dir files files' :
  list_chunk_dir os_order w chunked_dir files = Some files' → shown files → shown files'.
Proof.
  unfold list_chunk_dir. destruct (path_exists w chunked_dir); [|by intros [= <-]].
  destruct (dirs w !! chunked_dir); [|done]. intros [= <-].
  apply list_chunk_folders_keep.
Qed.
End listing_facts.

(** X18. [list_approved_files] after a push: when the raw (or the
    cleaned) section has pushed its directory without a file filter and
    counted no failure, and the listing of the world it left returns its
    entries, the listing writes nothing and logs nothing, [count] is the
    number of entries, and every file of the directory that ends in
    [.txt] has an entry, under its base name, that says it is there and
    pushed ([raw] and [raw_pushed], or [cleaned] and [cleaned_pushed],
    both true). *)
Theorem what_a_push_marked_is_listed_as_pushed
    json_dumps os_order st hf_service repo approved_raw_dir approved_cleaned_dir
    approved_chunked_dir w r w1 entries count w2 :
  let dir := stage_dir st approved_raw_dir approved_cleaned_dir in
  push_stage json_dumps os_order st hf_service dir repo None w = (Ok r, w1) →
  Results.failed r = 0%nat →
  list_approved_files os_order approved_raw_dir approved_cleaned_dir approved_chunked_dir w1
  = (Ok (ApprovedFiles entries count), w2) →
  w2 = w1
  ∧ count = size entries
  ∧ ∀ fname, fname ∈ eligible_entries os_order w dir None →
             ∃ entry, entries !! base_name_of fname = Some entry
                      ∧ listed_as_pushed st entry.
Proof.
  intros dir Hpush Hfailed Hlist.
  unfold list_approved_files in Hlist.
  destruct (collect_approved os_order w1 _ _ _) as [m|] eqn:Hcollect; [|done].
  injection Hlist as <- <- <-. split; [done|]. split; [done|].
  intros fname Hin. unfold eligible_entries in Hin.
  rewrite push_stage_run in Hpush.
  destruct (path_exists w dir) eqn:Hex.
  2: { unfold path_exists in Hex. apply orb_false_iff in Hex as [_ Hd].
       apply bool_decide_eq_false in Hd.
       destruct (dirs w !! dir); [by destruct Hd|by apply elem_of_nil in Hin]. }
  destruct (dirs w !! dir) as [listing|] eqn:Hd; [|done].
  destruct (push_files_facts json_dumps st hf_service dir repo None
              (os_order dir listing) Results.empty w)
    as (r1 & w1' & evs & du & df & ds & Hrun & _ & Hm & _ & Hfa & _ & _ & _ & _
        & _ & _ & _ & _ & _ & _ & Hmark).
  rewrite Hrun in Hpush. injection Hpush as <- <-. cbn in Hfa.
  assert (df = 0%nat) as Hdf by lia.
  apply list_elem_of_In, filter_In in Hin as [Hin He].
  apply list_elem_of_In in Hin.
  pose proof (Hmark Hdf) as Hall. rewrite Forall_forall in Hall.
  destruct (Hall fname Hin He) as [_ Hmk].
  destruct Hm as (_ & Hdirs & _).
  destruct (pushed_listing os_order None w w1' dir listing Hd Hdirs)
    as (listing' & Hd1 & Hsame & _).
  apply (Hsame fname He) in Hin.
  assert (path_exists w1' dir = true) as Hex1.
  { unfold path_exists. rewrite Hd1.
    rewrite (bool_decide_eq_true_2 (is_Some (Some listing'))) by (by eexists).
    apply orb_true_r. }
  assert (endswith fname ".txt" = true) as Het.
  { unfold eligible in He. by apply andb_true_iff in He as [He _]. }
  unfold collect_approved in Hcollect.
  destruct (list_text_dir os_order RawStage w1' approved_raw_dir ∅) as [m1|] eqn:H1; [|done].
  destruct (list_text_dir os_order CleanedStage w1' approved_cleaned_dir m1) as [m2|] eqn:H2;
    [|done].
  destruct st; cbn [stage_dir] in dir; subst dir.
  - eapply list_chunk_dir_keeps; [exact Hcollect|].
    assert (∃ entry, m1 !! base_name_of fname = Some entry
                     ∧ listed_as_pushed RawStage entry) as Hs1.
    { unfold list_text_dir in H1. rewrite Hex1, Hd1 in H1.
      eapply list_text_entries_show; [exact Hmk|exact H1|exact Hin|exact Het|done]. }
    unfold list_text_dir in H2.
    destruct (path_exists w1' approved_cleaned_dir); [|by injection H2 as <-].
    destruct (dirs w1' !! approved_cleaned_dir); [|done].
    eapply list_text_entries_other; [|exact H2|exact Hs1]. done.
  - eapply list_chunk_dir_keeps; [exact Hcollect|].
    unfold list_text_dir in H2. rewrite Hex1, Hd1 in H2.
    eapply list_text_entries_show; [exact Hmk|exact H2|exact Hin|exact Het|done].
Qed.

(** The two raw files after their push: both are listed as pushed. *)
Lemma two_raw_files_listed_after_their_push :
  ∃ a b,
    entries_of raw_listing !! "a" = Some a ∧ listed_as_pushed RawStage a
    ∧ entries_of raw_listing !! "b" = Some b ∧ listed_as_pushed RawStage b.
Proof.
  destruct (what_a_push_marked_is_listed_as_pushed compact_dumps sorted_order RawStage
              demo_service None raw_dir "data/approved/cleaned" demo_dir
              raw_disk_writable (results_of raw_first_push) raw_first_push.2
              (entries_of raw_listing) 2%nat raw_first_push.2) as (_ & _ & Hall).
  - vm_compute. reflexivity.
  - vm_compute. reflexivity.
  - vm_compute. reflexivity.
  - assert (eligible_entries sorted_order raw_disk_writable
              (stage_dir RawStage raw_dir "data/approved/cleaned") None = ["a.txt"; "b.txt"])
      as Hentries by (vm_compute; reflexivity).
    rewrite Hentries in Hall.
    destruct (Hall "a.txt") as (a & Ha & Hpa); [left|].
    destruct (Hall "b.txt") as (b & Hb & Hpb); [right; left|].
    exists a, b. split; [exact Ha|]. split; [exact Hpa|]. split; [exact Hb|exact Hpb].
Defined.

Lemma count_chunk_files_spec w folder_path listing total pushed_count :
  count_chunk_files w folder_path listing total pushed_count
  = ((total + length (List.filter (λ cf, endswith cf ".json") listing))%nat,
     (pushed_count + marked_count (files w) folder_path listing)%nat).
Proof.
  revert total pushed_count. unfold marked_count.
  induction listing as [|cf listing IH]; intros total pushed_count.
  - cbn. by rewrite !Nat.add_0_r.
  - cbn [count_chunk_files List.filter flat_map]. unfold classify at 1, chunk_is_pushed.
    destruct (endswith cf ".json"); cbn [negb].
    + rewrite IH, length_app. cbn [length].
      destruct (files w !! path_join folder_path cf) as [[d|raw]|]; cbn [length].
      * destruct (truthy (dict_get d "pushed_to_hf" PNone)); cbn [length]; f_equal; lia.
      * f_equal; lia.
      * f_equal; lia.
    + rewrite IH. done.
Qed.

Lemma marked_count_bound fs folder_path listing :
  (marked_count fs folder_path listing
   ≤ length (List.filter (λ cf, endswith cf ".json") listing))%nat.
Proof.
  unfold marked_count. induction listing as [|cf listing IH]; [done|].
  cbn [flat_map List.filter]. rewrite length_app. unfold classify at 1.
  destruct (endswith cf ".json"); cbn [negb length]; [|lia].
  destruct (fs !! path_join folder_path cf) as [[d|raw]|]; cbn [length]; try lia.
  destruct (truthy _); cbn [length]; lia.
Qed.

Lemma marked_count_permutation fs folder_path l1 l2 :
  l1 ≡ₚ l2 → marked_count fs folder_path l1 = marked_count fs folder_path l2.
Proof.
  intros H. unfold marked_count. apply Permutation_length. by apply Permutation_flat_map.
Qed.

Section chunk_counts.
Context (os_order : listdir_order).
Context (w : world) (chunked_dir folder : string) (listing : list string).
Hypothesis is_folder : dirs w !! path_join chunked_dir folder = Some listing.

Local Abbreviation counted entries :=
  (∃ entry, entries !! folder = Some entry
            ∧ entry_chunks entry
              = length (List.filter (λ cf, endswith cf ".json")
                          (os_order (path_join chunked_dir folder) listing))
            ∧ entry_chunks_pushed entry
              = marked_count (files w) (path_join chunked_dir folder)
                  (os_order (path_join chunked_dir folder) listing)).

Lemma list_chunk_folder_counts entries :
  counted (list_chunk_folder os_order w chunked_dir folder entries).
Proof.
  unfold list_chunk_folder. rewrite is_folder. cbv zeta.
  rewrite count_chunk_files_spec. eexists. rewrite lookup_insert_eq. by split.
Qed.

Lemma list_chunk_folder_counted folder' entries :
  counted entries → counted (list_chunk_folder os_order w chunked_dir folder' entries).
Proof.
  intros (entry & He & Hc). destruct (decide (folder' = folder)) as [->|Hne].
  - apply list_chunk_folder_counts.
  - unfold list_chunk_folder.
    destruct (dirs w !! path_join chunked_dir folder'); [|by exists entry]. cbv zeta.
    exists entry. by rewrite lookup_insert_ne.
Qed.

Lemma list_chunk_folders_counted folders entries :
  counted entries → counted (list_chunk_folders os_order w chunked_dir folders entries).
Proof.
  revert entries. induction folders as [|f folders IH]; intros entries Hc; [done|].
  cbn. by apply IH, list_chunk_folder_counted.
Qed.

Lemma list_chunk_folders_count folders entries :
  folder ∈ folders → counted (list_chunk_folders os_order w chunked_dir folders entries).
Proof.
  revert entries. induction folders as [|f folders IH]; intros entries.
  - by intros ?%elem_of_nil.
  - intros [Heq|Hin]%elem_of_cons; [subst f|]; cbn.
    + apply list_chunk_folders_counted, list_chunk_folder_counts.
    + by apply IH.
Qed.
End chunk_counts.

(** What a folder adds to [skipped]. *)
Lemma push_chunk_folder_skipped
    hf_service repo target_filename approved_chunked_dir folder_name results w listing r :
  dirs w !! path_join approved_chunked_dir folder_name = Some listing →
  filtered_out target_filename folder_name = false →
  (push_chunk_folder hf_service repo target_filename approved_chunked_dir folder_name
     results w).1 = Ok r →
  Results.skipped r
  = (Results.skipped results
     + marked_count (files w) (path_join approved_chunked_dir folder_name) listing)%nat.
Proof.
  intros Hd Hf.
  destruct (collect_chunks_spec (path_join approved_chunked_dir folder_name) listing
              {| unpushed_chunks := []; chunk_file_paths := [];
                 collected_results := results |} w (Forall_nil_2 _))
    as (c & w1 & Hrun & _ & _ & _ & _ & _ & Hs & _).
  cbn [collected_results] in Hs.
  rewrite (push_chunk_folder_run _ _ _ _ _ _ _ _ _ _ Hd Hf Hrun).
  destruct (unpushed_chunks c) as [|l0 ls]; [by intros [= <-]|].
  destruct (upload_chunks_batch _ _ _ _ _ _) as [[result|e] w2]; [|done].
  destruct (mark_chunks _ _ _ _ _ _) as [[[]|e] w3]; [|done].
  by intros [= <-].
Qed.

(** X19. In the entries returned by [list_approved_files], the entry of
    a chunk folder counts in [chunks] the names of the folder that end in
    [.json] and in [chunks_pushed] those whose file is a record with a
    truthy [pushed_to_hf]; so [chunks_pushed <= chunks]; and, the listing
    order being an order of the folder's names, [chunks_pushed] is what a
    push of the folder that returns adds to [skipped]. *)
Theorem listed_chunk_counts_are_what_the_push_skips
    os_order approved_raw_dir approved_cleaned_dir approved_chunked_dir w entries count w2
    folders folder listing :
  list_approved_files os_order approved_raw_dir approved_cleaned_dir approved_chunked_dir w
  = (Ok (ApprovedFiles entries count), w2) →
  dirs w !! approved_chunked_dir = Some folders →
  folder ∈ os_order approved_chunked_dir folders →
  dirs w !! path_join approved_chunked_dir folder = Some listing →
  let folder_path := path_join approved_chunked_dir folder in
  ∃ entry,
    entries !! folder = Some entry
    ∧ entry_chunks entry
      = length (List.filter (λ cf, endswith cf ".json") (os_order folder_path listing))
    ∧ entry_chunks_pushed entry
      = marked_count (files w) folder_path (os_order folder_path listing)
    ∧ (entry_chunks_pushed entry ≤ entry_chunks entry)%nat
    ∧ (os_order folder_path listing ≡ₚ listing →
       ∀ hf_service repo target_filename results r,
         filtered_out target_filename folder = false →
         (push_chunk_folder hf_service repo target_filename approved_chunked_dir folder
            results w).1 = Ok r →
         Results.skipped r = (Results.skipped results + entry_chunks_pushed entry)%nat).
Proof.
  intros Hlist Hdir Hin Hfolder folder_path. subst folder_path.
  unfold list_approved_files in Hlist.
  destruct (collect_approved os_order w _ _ _) as [m|] eqn:Hcollect; [|done].
  injection Hlist as <- <- <-.
  unfold collect_approved in Hcollect.
  destruct (list_text_dir os_order RawStage w approved_raw_dir ∅) as [m1|]; [|done].
  destruct (list_text_dir os_order CleanedStage w approved_cleaned_dir m1) as [m2|]; [|done].
  unfold list_chunk_dir in Hcollect. rewrite Hdir in Hcollect.
  destruct (path_exists w approved_chunked_dir) eqn:Hex.
  2: { unfold path_exists in Hex. rewrite Hdir in Hex.
       rewrite (bool_decide_eq_true_2 (is_Some (Some folders))) in Hex by (by eexists).
       by rewrite orb_true_r in Hex. }
  injection Hcollect as <-.
  destruct (list_chunk_folders_count os_order w approved_chunked_dir folder listing Hfolder
              (os_order approved_chunked_dir folders) m2 Hin) as (entry & He & Hc & Hp).
  exists entry. split; [done|]. split; [done|]. split; [done|].
  split; [rewrite Hc, Hp; apply marked_count_bound|].
  intros Hperm hf_service repo target_filename results r Hf Hr.
  rewrite (push_chunk_folder_skipped _ _ _ _ _ _ _ _ _ Hfolder Hf Hr), Hp.
  f_equal. symmetry. by apply marked_count_permutation.
Qed.

(** The folder of three chunk records, one of them marked: the listing
    counts three chunks, one pushed, and a push of the folder skips
    one. *)
Lemma listing_of_a_folder_with_a_pushed_chunk :
  ∃ entry,
    entries_of chunk_listing !! "doc" = Some entry
    ∧ entry_chunks entry = 3%nat
    ∧ entry_chunks_pushed entry = 1%nat
    ∧ ∀ r, (push_chunk_folder demo_service None None demo_dir "doc" Results.empty
              demo_disk).1 = Ok r →
           Results.skipped r = 1%nat.
Proof.
  destruct (listed_chunk_counts_are_what_the_push_skips sorted_order raw_dir
              "data/approved/cleaned" demo_dir demo_disk (entries_of chunk_listing) 1%nat
              demo_disk ["doc"] "doc" demo_listing)
    as (entry & He & Hc & Hp & _ & Hskip).
  - vm_compute. reflexivity.
  - vm_compute. reflexivity.
  - left.
  - vm_compute. reflexivity.
  - exists entry. split; [exact He|].
    assert (length (List.filter (λ cf, endswith cf ".json")
                      (sorted_order (path_join demo_dir "doc") demo_listing)) = 3%nat)
      as Hthree by (vm_compute; reflexivity).
    assert (marked_count (files demo_disk) (path_join demo_dir "doc")
              (sorted_order (path_join demo_dir "doc") demo_listing) = 1%nat)
      as Hone by (vm_compute; reflexivity).
    split; [by rewrite Hc, Hthree|]. split; [by rewrite Hp, Hone|].
    intros r Hr. rewrite (Hskip (reflexivity _) demo_service None None Results.empty r eq_refl Hr).
    rewrite Hp, Hone. reflexivity.
Defined.

(* ===================================================================== *)
(** ** The tallies on an example *)
(* ===================================================================== *)

(** Three chunks, the first commit failing with status 500. *)
Lemma tallies_of_three_chunks_after_one_server_error :
  ∃ r, retried_run.1 = Ok (Report r)
       ∧ (uploaded_count r + length (failed_chunks r))%nat = 3%nat.
Proof.
  destruct (tallies_add_up_without_rate_limit demo_service "doc" (seq 0 3) None 2
              retried_world) as (r & Hr & Hsum).
  - reflexivity.
  - lia.
  - intros t req e. cbn. unfold fails_first.
    destruct (length (commits_of t) <? 1)%nat; [|discriminate].
    intros [= <-]. reflexivity.
  - apply (bool_decide_unpack _). vm_compute. exact I.
  - apply (bool_decide_unpack _). vm_compute. exact I.
  - exists r. split; [exact Hr|exact Hsum].
Defined.

(** Three chunks behind a hub that fails every commit. *)
Lemma call_returns_with_a_failing_hub :
  ∃ r, failing_run.1 = Ok (Report r).
Proof.
  apply (call_returns_for_indexed_chunks demo_service "doc" (seq 0 3) None 2 failing_world).
  - reflexivity.
  - lia.
  - apply (bool_decide_unpack _). vm_compute. exact I.
  - apply (bool_decide_unpack _). vm_compute. exact I.
Defined.
